(** * StreamChatWars.GamepadClient: the active-channel routing engine

    A shallow embedding of [gamepad_client/tinkerforge_control.py] and
    [gamepad_client/keys.py]: the shared [server_list] (the channel
    registry), the class-level state of [TinkerforgeControl], the hotkey
    manager, and the three routers that mutate the registry
    ([cb_button], [cb_position], [scan_loop]) together with the indicator
    reflector ([color_all_buttons], reached through [print_current_state]).

    Python objects are shared and mutated in place, so every routine is a
    state transformer over one [World]; exceptions are explicit outcomes and
    the state reached when an exception is raised is kept, as in Python.
    Calls to external collaborators (console, LED buttons, keyboard,
    IP connection) are recorded in the world's output trace. *)

From Stdlib Require Import ZArith QArith Qround.
From stdpp Require Import base list strings gmap.

Open Scope Z_scope.

(** ** Python runtime: exceptions, outcomes, list indexing, ordered dicts *)

Inductive exn :=
| IndexError
| KeyError
| ZeroDivisionError
| AssertionError
| ValueError
| SystemExit
| TypeError
| OverflowError.

Inductive outcome (A : Type) :=
| Ret (a : A)
| Raise (e : exn).
Arguments Ret {A} a.
Arguments Raise {A} e.

(** [l[i]] for a Python list: indices [-len .. len-1] are valid, negative
    ones count from the end, anything else is an [IndexError]. *)
Definition list_index {A} (l : list A) (i : Z) : option nat :=
  let n := Z.of_nat (length l) in
  if decide (0 ≤ i < n) then Some (Z.to_nat i)
  else if decide (- n ≤ i < 0) then Some (Z.to_nat (n + i))
  else None.

(** A float is modelled by the rational it denotes. [binary64 x] is the
    float nearest to the rational [x], ties going to the even significand:
    53 significant bits, exponents down to the subnormal range. It is the
    result of a float operation whose exact result is [x]. *)
Definition round_half_even (num den : Z) : Z :=
  let q := num `div` den in
  match Z.compare (2 * (num `mod` den)) den with
  | Lt => q
  | Gt => q + 1
  | Eq => if Z.even q then q else q + 1
  end.

Definition pow2 (e : Z) : Z := 2 ^ Z.max 0 e.

Definition binary64 (x : Q) : Q :=
  let a := Z.abs (Qnum x) in
  let n := Z.pos (Qden x) in
  if decide (a = 0) then inject_Z 0
  else
    let e0 := Z.log2 a - Z.log2 n in
    let e1 := if decide (n * pow2 e0 ≤ a * pow2 (- e0)) then e0 else e0 - 1 in
    let e := Z.max (e1 - 52) (-1074) in
    let m := round_half_even (a * pow2 (- e)) (n * pow2 e) in
    Qred (Qmake (Z.sgn (Qnum x) * m * pow2 e) (Z.to_pos (pow2 (- e)))).

(** The float is too large in magnitude to be finite. *)
Definition overflows (x : Q) : bool :=
  bool_decide (2 ^ 1024 * Z.pos (Qden x) ≤ Z.abs (Qnum x)).

(** [int(a // w)] for an int [a] and a float [w]: floor division by [0.0]
    raises, otherwise the result is the floor of the exact quotient of the
    two numbers. The float operation first takes the exact remainder and
    then snaps the quotient to the nearest integer, which gives that floor
    as long as [a] and the quotient stay below 2^51 in magnitude. *)
Definition floordiv (a : Z) (w : Q) : outcome Z :=
  if Qeq_bool w (inject_Z 0) then Raise ZeroDivisionError
  else Ret (Qfloor (Qdiv (inject_Z a) w)).

(** [a / n] for two ints (true division): the float nearest to the
    quotient. *)
Definition truediv (a n : Z) : outcome Q :=
  if decide (n = 0) then Raise ZeroDivisionError
  else
    let q := binary64 (Qdiv (inject_Z a) (inject_Z n)) in
    if overflows q then Raise OverflowError else Ret q.

(** A [dict] whose iteration order is observed: insertion order, an update
    of an existing key keeps its place. *)
Module OrderedDict.
Section ordered_dict.
Context {V : Type}.

Definition t := list (string * V).

Fixpoint get (d : t) (k : string) : option V :=
  match d with
  | [] => None
  | (k', v) :: d' => if decide (k' = k) then Some v else get d' k
  end.

Fixpoint set (d : t) (k : string) (v : V) : t :=
  match d with
  | [] => [(k, v)]
  | (k', v') :: d' =>
      if decide (k' = k) then (k, v) :: d' else (k', v') :: set d' k v
  end.

Definition keys (d : t) : list string := d.*1.

End ordered_dict.
Arguments t : clear implicits.
End OrderedDict.

(** ** config.py *)

Module Linear_Poti.
Record t := mk {
  uid : option string;
  upper_threshold : Z;
  lower_threshold : Z }.
End Linear_Poti.

Module RGB_Button.
Record t := mk {
  uid : string;
  color_off : list Z;
  color_on : list Z }.
End RGB_Button.

Module Tinkerforge_Settings.
Record t := mk { linear_poti : Linear_Poti.t }.
End Tinkerforge_Settings.

(** ** tinkerforge_control.py: data *)

(** The [server] field (the transport handle) is never read or written by
    the routers and is left out. *)
Record InputServerData := mkServer {
  index : Z;
  active : bool;
  rgb_button : RGB_Button.t }.

(** A [BrickletRGBLEDButton(uid, ipcon)] device object. *)
Record BrickletRGBLEDButton := mkBricklet { bricklet_uid : string }.

(** The class attributes of [TinkerforgeControl] that the routers use. *)
Record TinkerforgeControl := mkControl {
  uid : option string;
  upper_threshold : Z;
  lower_threshold : Z;
  old_position : Z;
  old_section : Z;
  uid_dict : OrderedDict.t BrickletRGBLEDButton;
  button_state_dict : gmap string bool;
  index_dict : gmap string (list Z) }.

(** The attributes as the class body initialises them. *)
Definition TinkerforgeControl_init : TinkerforgeControl :=
  {| uid := None; upper_threshold := 95; lower_threshold := 5;
     old_position := -100; old_section := -100;
     uid_dict := []; button_state_dict := ∅; index_dict := ∅ |}.

(** ** keys.py: data *)

Record HotkeyManager := mkHotkeys {
  hotkey_list : list string;
  currently_pressed : gmap string bool }.

(** ** Calls to the outside, in the order they are made *)

Inductive Event :=
| Printed_state (line : list (Z * bool))
| Printed_no_gamepads
| Printed_all_gamepads
| Printed_gamepad (i : Z)
| Printed_steps (lower : Z) (rows : list (Z * Z * Z)) (upper : Z)
| Printed_invalid_hotkey (hotkey : string)
| Set_color (button : BrickletRGBLEDButton) (args : list Z)
| Is_pressed (hotkey : string)
| Parse_hotkey (hotkey : string)
| Connect
| Disconnect
| Callback_position
| Callback_button (button : BrickletRGBLEDButton).

(** ** The shared world *)

Record World := mkWorld {
  cls : TinkerforgeControl;
  server_list : list InputServerData;
  hkm : HotkeyManager;
  out : list Event }.

Definition with_cls (f : TinkerforgeControl → TinkerforgeControl) (w : World) : World :=
  {| cls := f (cls w); server_list := server_list w; hkm := hkm w; out := out w |}.

Definition with_server_list (f : list InputServerData → list InputServerData)
    (w : World) : World :=
  {| cls := cls w; server_list := f (server_list w); hkm := hkm w; out := out w |}.

Definition with_hkm (f : HotkeyManager → HotkeyManager) (w : World) : World :=
  {| cls := cls w; server_list := server_list w; hkm := f (hkm w); out := out w |}.

Definition with_out (f : list Event → list Event) (w : World) : World :=
  {| cls := cls w; server_list := server_list w; hkm := hkm w; out := f (out w) |}.

Definition set_active_flag (v : bool) (s : InputServerData) : InputServerData :=
  {| index := index s; active := v; rgb_button := rgb_button s |}.

Definition set_button_state (u : string) (v : bool) (c : TinkerforgeControl)
    : TinkerforgeControl :=
  {| uid := uid c; upper_threshold := upper_threshold c;
     lower_threshold := lower_threshold c; old_position := old_position c;
     old_section := old_section c; uid_dict := uid_dict c;
     button_state_dict := <[u := v]> (button_state_dict c);
     index_dict := index_dict c |}.

Definition set_old (section position : Z) (c : TinkerforgeControl)
    : TinkerforgeControl :=
  {| uid := uid c; upper_threshold := upper_threshold c;
     lower_threshold := lower_threshold c; old_position := position;
     old_section := section; uid_dict := uid_dict c;
     button_state_dict := button_state_dict c;
     index_dict := index_dict c |}.

Definition set_poti (p : Linear_Poti.t) (c : TinkerforgeControl)
    : TinkerforgeControl :=
  {| uid := Linear_Poti.uid p;
     upper_threshold := Linear_Poti.upper_threshold p;
     lower_threshold := Linear_Poti.lower_threshold p;
     old_position := old_position c; old_section := old_section c;
     uid_dict := uid_dict c; button_state_dict := button_state_dict c;
     index_dict := index_dict c |}.

Definition set_uid_dict (d : OrderedDict.t BrickletRGBLEDButton)
    (c : TinkerforgeControl) : TinkerforgeControl :=
  {| uid := uid c; upper_threshold := upper_threshold c;
     lower_threshold := lower_threshold c; old_position := old_position c;
     old_section := old_section c; uid_dict := d;
     button_state_dict := button_state_dict c;
     index_dict := index_dict c |}.

Definition set_index_dict (d : gmap string (list Z))
    (c : TinkerforgeControl) : TinkerforgeControl :=
  {| uid := uid c; upper_threshold := upper_threshold c;
     lower_threshold := lower_threshold c; old_position := old_position c;
     old_section := old_section c; uid_dict := uid_dict c;
     button_state_dict := button_state_dict c;
     index_dict := d |}.

Definition set_pressed (h : string) (v : bool) (m : HotkeyManager) : HotkeyManager :=
  {| hotkey_list := hotkey_list m;
     currently_pressed := <[h := v]> (currently_pressed m) |}.

(** ** The state-and-exception monad of the routines *)

Definition M (A : Type) : Type := World → outcome A * World.

#[global] Instance M_ret : MRet M := λ A a w, (Ret a, w).

#[global] Instance M_bind : MBind M := λ A B f m w,
  match m w with
  | (Ret a, w') => f a w'
  | (Raise e, w') => (Raise e, w')
  end.

Definition raise {A} (e : exn) : M A := λ w, (Raise e, w).
Definition get_world : M World := λ w, (Ret w, w).
Definition modify (f : World → World) : M unit := λ w, (Ret tt, f w).
Definition emit (e : Event) : M unit := modify (with_out (λ o, o ++ [e])).
Definition lift {A} (o : outcome A) : M A := λ w, (o, w).
Definition py_assert (b : bool) : M unit := if b then mret tt else raise AssertionError.

(** [try: m  except e: pass] *)
Definition try_except_pass (e : exn) (m : M unit) : M unit := λ w,
  match m w with
  | (Raise e', w') =>
      match e, e' with
      | IndexError, IndexError | KeyError, KeyError
      | ZeroDivisionError, ZeroDivisionError | AssertionError, AssertionError
      | ValueError, ValueError | SystemExit, SystemExit
      | TypeError, TypeError | OverflowError, OverflowError => (Ret tt, w')
      | _, _ => (Raise e', w')
      end
  | r => r
  end.

(** [try: m  finally: h] *)
Definition try_finally (m h : M unit) : M unit := λ w,
  match m w with
  | (Ret _, w') => h w'
  | (Raise e, w') =>
      match h w' with
      | (Ret _, w'') => (Raise e, w'')
      | r => r
      end
  end.

(** [for x in l: body(x)] *)
Fixpoint for_each {A} (l : list A) (body : A → M unit) : M unit :=
  match l with
  | [] => mret tt
  | x :: l' => body x ;; for_each l' body
  end.

(** ** tinkerforge_control.py: routines *)

(** [server_list[i].active = v] *)
Definition set_active (i : Z) (v : bool) : M unit := λ w,
  match list_index (server_list w) i with
  | Some n => (Ret tt, with_server_list (alter (set_active_flag v) n) w)
  | None => (Raise IndexError, w)
  end.

(** [for server_data in server_list: server_data.active = v] *)
Definition set_all (v : bool) : M unit :=
  modify (with_server_list (fmap (set_active_flag v))).

(** The first loop of [color_all_buttons]: one pass over the channels,
    accumulating [color_dict] and [button_dict]. [map(add, a, b)] stops at
    the shorter of its two arguments. *)
Fixpoint color_loop (uids : OrderedDict.t BrickletRGBLEDButton)
    (servers : list InputServerData)
    (color_dict : gmap string (list Z))
    (button_dict : OrderedDict.t BrickletRGBLEDButton)
    : outcome (gmap string (list Z) * OrderedDict.t BrickletRGBLEDButton) :=
  match servers with
  | [] => Ret (color_dict, button_dict)
  | server_data :: rest =>
      let u := RGB_Button.uid (rgb_button server_data) in
      let old_color := default [0; 0; 0] (color_dict !! u) in
      let add_color :=
        if active server_data
        then RGB_Button.color_on (rgb_button server_data)
        else RGB_Button.color_off (rgb_button server_data) in
      let color_dict' := <[u := zip_with Z.add add_color old_color]> color_dict in
      match OrderedDict.get uids u with
      | None => Raise KeyError
      | Some button =>
          color_loop uids rest color_dict' (OrderedDict.set button_dict u button)
      end
  end.

(** [button.set_color(...)] with the components of [args] as its
    arguments: the method takes exactly three. *)
Definition set_color (button : BrickletRGBLEDButton) (args : list Z) : M unit :=
  if decide (length args = 3%nat) then emit (Set_color button args)
  else raise TypeError.

Definition color_all_buttons : M unit := λ w,
  match color_loop (uid_dict (cls w)) (server_list w) ∅ [] with
  | Raise e => (Raise e, w)
  | Ret (color_dict, button_dict) =>
      for_each button_dict (λ '(u, button),
        match color_dict !! u with
        | Some c => set_color button c
        | None => raise KeyError
        end) w
  end.

Definition print_current_state : M unit :=
  w ← get_world;
  emit (Printed_state ((λ server, (index server, active server)) <$> server_list w));;
  color_all_buttons.

(** [state] is the truth value of the reported button state. *)
Definition cb_button (state : bool) (u : string) : M unit :=
  if state then
    try_except_pass IndexError (
      w ← get_world;
      let new_state := negb (default true (button_state_dict (cls w) !! u)) in
      modify (with_cls (set_button_state u new_state));;
      match index_dict (cls w) !! u with
      | None => raise KeyError
      | Some index_list =>
          for_each index_list (λ i, set_active i new_state);;
          print_current_state
      end)
  else mret tt.

Definition cb_position (position : Z) (section_width : Q) : M unit :=
  w ← get_world;
  if decide (Z.abs (position - old_position (cls w)) > 2) then
    section ← lift (floordiv (position - lower_threshold (cls w)) section_width);
    if decide (section = old_section (cls w)) then mret tt
    else
      (if decide (section < 0) then
         set_all false;; emit Printed_no_gamepads
       else if decide (section >= Z.of_nat (length (server_list w))) then
         set_all true;; emit Printed_all_gamepads
       else
         set_all false;;
         set_active (section - 1) true;;
         w' ← get_world;
         match list_index (server_list w') section with
         | Some n =>
             match server_list w' !! n with
             | Some server => emit (Printed_gamepad (index server))
             | None => raise IndexError
             end
         | None => raise IndexError
         end);;
      modify (with_cls (set_old section position))
  else mret tt.

(** The rows [(lower_bounds, upper_bounds, index)] of the table that
    [print_steps] prints, one per channel. The sum and the two products are
    float operations; they are taken to stay finite. *)
Definition print_steps (section_width : Q) : M unit :=
  w ← get_world;
  let lower := lower_threshold (cls w) in
  let row (i : nat) (server_data : InputServerData) :=
    (lower + Qceiling (binary64 (Qmult (inject_Z (Z.of_nat i)) section_width)),
     lower + Qfloor (binary64 (Qmult
                       (binary64 (Qplus (inject_Z (Z.of_nat i))
                                        (binary64 (Qmake 9999 10000))))
                       section_width)),
     index server_data) in
  emit (Printed_steps lower (imap row (server_list w)) (upper_threshold (cls w))).

(** [start_LinearPoti] up to and including the registration of the
    callback; [position] is what [lp.get_position()] returns. The body of
    the [with] block runs under the [finally: ipcon.disconnect()] of the
    context manager. *)
Definition start_LinearPoti (tinkerforge_settings : Tinkerforge_Settings.t)
    (position : Z) : M unit :=
  modify (with_cls (set_poti (Tinkerforge_Settings.linear_poti tinkerforge_settings)));;
  w ← get_world;
  py_assert (bool_decide (uid (cls w) ≠ None));;
  py_assert (bool_decide (upper_threshold (cls w) >= lower_threshold (cls w)));;
  let number_of_sections := Z.of_nat (length (server_list w)) in
  section_width ← lift (truediv (upper_threshold (cls w) - lower_threshold (cls w))
                                number_of_sections);
  print_steps section_width;;
  emit Connect;;
  try_finally
    (section_width ← lift (truediv (upper_threshold (cls w) - lower_threshold (cls w))
                                   number_of_sections);
     cb_position position section_width;;
     emit Callback_position)
    (emit Disconnect).

(** One round of the registration loop of [start_RGB_Buttons]:
    [index_list.append(i)] on the list stored under the button's uid. *)
Definition register_button (i : nat) (button : RGB_Button.t) : M unit :=
  w ← get_world;
  let u := RGB_Button.uid button in
  match OrderedDict.get (uid_dict (cls w)) u with
  | None =>
      modify (with_cls (λ c,
        set_uid_dict (OrderedDict.set (uid_dict c) u (mkBricklet u)) c))
  | Some _ => mret tt
  end;;
  modify (with_cls (λ c,
    set_index_dict
      (<[u := default [] (index_dict c !! u) ++ [Z.of_nat i]]> (index_dict c)) c)).

(** [start_RGB_Buttons] from call to return: registration, the initial
    [cb_button(True, ...)] per button inside the [with] block, then the
    [finally] clause of the context manager. The idle loop between them has
    no effect of its own. *)
Definition start_RGB_Buttons : M unit :=
  w ← get_world;
  let button_settings := rgb_button <$> server_list w in
  py_assert (bool_decide (0 < length button_settings)%nat);;
  for_each (imap pair button_settings) (λ '(i, button), register_button i button);;
  emit Connect;;
  try_finally
    (w' ← get_world;
     for_each (uid_dict (cls w')) (λ '(u, button),
       cb_button true u;; emit (Callback_button button)))
    (w' ← get_world;
     for_each (uid_dict (cls w')) (λ '(_, button), set_color button [0; 0; 0]);;
     emit Disconnect).

(** ** keys.py: routines *)

(** The key-combination checker of the [keyboard] package is external:
    [parse_hotkey] says whether a string parses, [is_pressed] answers for
    one poll, [None] standing for the [ValueError] it raises. *)
Definition verify_hotkeys (parse_hotkey : string → bool) : M unit :=
  w ← get_world;
  for_each (hotkey_list (hkm w)) (λ hotkey,
    if bool_decide (hotkey ≠ "") then
      emit (Parse_hotkey hotkey);;
      if parse_hotkey hotkey then mret tt
      else emit (Printed_invalid_hotkey hotkey);; raise SystemExit
    else mret tt).

(** [server = self.server_list[i]; server.active = not server.active] *)
Definition toggle_active (i : nat) : M unit := λ w,
  match server_list w !! i with
  | Some _ =>
      (Ret tt,
       with_server_list (alter (λ s, set_active_flag (negb (active s)) s) i) w)
  | None => (Raise IndexError, w)
  end.

(** The body of the [for i, hotkey in enumerate(self.hotkey_list)] loop. *)
Definition scan_hotkey (is_pressed : string → option bool)
    (i : nat) (hotkey : string) : M unit :=
  emit (Is_pressed hotkey);;
  match is_pressed hotkey with
  | None => raise ValueError
  | Some true =>
      w ← get_world;
      if negb (default false (currently_pressed (hkm w) !! hotkey)) then
        toggle_active i;;
        modify (with_hkm (set_pressed hotkey true));;
        print_current_state
      else mret tt
  | Some false => modify (with_hkm (set_pressed hotkey false))
  end.

(** One iteration of the [while self.keep_running] loop. *)
Definition scan_tick (is_pressed : string → option bool) : M unit :=
  w ← get_world;
  for_each (imap pair (hotkey_list (hkm w))) (λ '(i, hotkey),
    scan_hotkey is_pressed i hotkey).

(** [scan_loop] for as many iterations as [polls] has answers of the
    key checker, one per iteration. *)
Definition scan_loop (polls : list (string → option bool)) : M unit :=
  for_each polls scan_tick.

(** ** What the specification asks of the indicator reflector *)

(** The colour a channel contributes: its on-colour when active, its
    off-colour when inactive. *)
Definition channel_color (s : InputServerData) : list Z :=
  if active s then RGB_Button.color_on (rgb_button s)
  else RGB_Button.color_off (rgb_button s).

Definition Zsum (l : list Z) : Z := foldr Z.add 0 l.

(** The channels bound to indicator [u]. *)
Definition bound_channels (u : string) (servers : list InputServerData)
    : list InputServerData :=
  filter (λ s, RGB_Button.uid (rgb_button s) = u) servers.

(** Component-wise, unclamped sum of the contributions of the channels
    bound to [u]. *)
Definition spec_indicator_color (u : string) (servers : list InputServerData)
    : list Z :=
  (λ k, Zsum ((λ s, default 0 (channel_color s !! k)) <$> bound_channels u servers))
    <$> [0; 1; 2]%nat.

(** ** Sample data *)

(** [RGB_Button(uid=u)] with the default colours of config.py. *)
Definition default_rgb_button (u : string) : RGB_Button.t :=
  {| RGB_Button.uid := u; RGB_Button.color_off := [1; 1; 1];
     RGB_Button.color_on := [15; 15; 15] |}.

Definition channel (i : Z) (a : bool) (u : string) : InputServerData :=
  {| index := i; active := a; rgb_button := default_rgb_button u |}.

Definition world0 (servers : list InputServerData) (hotkeys : list string) : World :=
  {| cls := TinkerforgeControl_init; server_list := servers;
     hkm := {| hotkey_list := hotkeys; currently_pressed := ∅ |}; out := [] |}.

(** ** Notions used in the statements *)

(** What a processed sample does, branch by branch. *)
Definition section_flags (section : Z) (servers : list InputServerData)
    : list InputServerData :=
  if decide (section < 0) then set_active_flag false <$> servers
  else if decide (section >= Z.of_nat (length servers)) then set_active_flag true <$> servers
  else alter (set_active_flag true)
         (Z.to_nat ((section - 1) `mod` Z.of_nat (length servers)))
         (set_active_flag false <$> servers).

(** The message the branch prints. *)
Definition section_message (section : Z) (servers : list InputServerData) : Event :=
  if decide (section < 0) then Printed_no_gamepads
  else if decide (section >= Z.of_nat (length servers)) then Printed_all_gamepads
  else Printed_gamepad (default 0 (index <$> servers !! Z.to_nat section)).

(** The console messages of [cb_position]. *)
Definition console_message (e : Event) : bool :=
  match e with
  | Printed_no_gamepads | Printed_all_gamepads | Printed_gamepad _ => true
  | _ => false
  end.

(** The indicator identity a channel is bound to. *)
Definition server_uid (s : InputServerData) : string := RGB_Button.uid (rgb_button s).

(** The [set_color] call for one entry of [button_dict], with the colour
    stored under its uid. *)
Definition push_event (color_dict : gmap string (list Z))
    (entry : string * BrickletRGBLEDButton) : Event :=
  Set_color entry.2 (default [] (color_dict !! entry.1)).

(** The registry after [for index in index_list: server_list[index].active = v],
    as far as the loop gets. *)
Definition flags_after (v : bool) (idxs : list Z) (l : list InputServerData)
    : list InputServerData :=
  foldl (λ acc i,
    match list_index acc i with
    | Some n => alter (set_active_flag v) n acc
    | None => acc
    end) l idxs.

Arguments flags_after : simpl never.

(** [i] is an index Python accepts for [l]. *)
Definition valid_index (l : list InputServerData) (i : Z) : Prop :=
  is_Some (list_index l i).

(** Both colours of the channel's button have three components. *)
Definition colors_ok (s : InputServerData) : Prop :=
  length (RGB_Button.color_on (rgb_button s)) = 3%nat ∧
  length (RGB_Button.color_off (rgb_button s)) = 3%nat.

(** The channel's button has a device object in [uid_dict]. *)
Definition registered (uids : OrderedDict.t BrickletRGBLEDButton)
    (s : InputServerData) : Prop :=
  is_Some (OrderedDict.get uids (server_uid s)).

(** What holds of [color_dict] and [button_dict] once the channels [pre]
    have been visited. *)
Record color_loop_inv (uids : OrderedDict.t BrickletRGBLEDButton)
    (pre : list InputServerData) (cd : gmap string (list Z))
    (bd : OrderedDict.t BrickletRGBLEDButton) : Prop := {
  inv_colors_dom : ∀ u, is_Some (cd !! u) ↔ u ∈ server_uid <$> pre;
  inv_buttons_nodup : NoDup (OrderedDict.keys bd);
  inv_buttons_dom : ∀ u, u ∈ OrderedDict.keys bd ↔ u ∈ server_uid <$> pre;
  inv_buttons_val : ∀ u b, (u, b) ∈ bd → OrderedDict.get uids u = Some b;
  inv_colors_val : Forall colors_ok pre →
    ∀ u, default [0; 0; 0] (cd !! u) = spec_indicator_color u pre }.

(** The ways the reflector can end. *)
Definition reflector_outcome (o : outcome unit) : Prop :=
  o = Ret tt ∨ o = Raise KeyError ∨ o = Raise TypeError.

(** The colour the channel contributes at present has at least three
    components, which is what [set_color] needs of every channel bound to
    the button. *)
Definition color_fits (s : InputServerData) : Prop :=
  (3 ≤ length (channel_color s))%nat.

(** What holds of the lengths in [color_dict] once the channels [pre] have
    been visited: [map(add, a, b)] stops at the shorter argument. *)
Definition lengths_inv (pre : list InputServerData) (cd : gmap string (list Z))
    : Prop :=
  ∀ u, (length (default [0; 0; 0]%Z (cd !! u)) ≤ 3)%nat ∧
       (length (default [0; 0; 0] (cd !! u)) = 3%nat
        ↔ Forall (λ s, server_uid s = u → color_fits s) pre).

(** [server.active = not server.active] *)
Definition toggle (s : InputServerData) : InputServerData :=
  set_active_flag (negb (active s)) s.

(** [self.currently_pressed.get(hotkey)], as a truth value. *)
Definition pressed (w : World) (h : string) : bool :=
  default false (currently_pressed (hkm w) !! h).

(** What one round of the scan loop does to the registry and to
    [currently_pressed], the output trace apart. *)
Definition key_step (is_pressed : string → option bool) (w : World)
    (p : nat * string) : World :=
  match is_pressed p.2 with
  | Some true =>
      if negb (pressed w p.2)
      then with_hkm (set_pressed p.2 true) (with_server_list (alter toggle p.1) w)
      else w
  | Some false => with_hkm (set_pressed p.2 false) w
  | None => w
  end.

(** The configuration [main] sets up: no more key combinations than
    channels, and every channel's button registered. *)
Record hotkeys_ok (w : World) : Prop := {
  ok_length : (length (hotkey_list (hkm w)) ≤ length (server_list w))%nat;
  ok_registered : Forall (registered (uid_dict (cls w))) (server_list w) }.

(** The key combination [h] is configured for the channel at index [i]
    and for no other channel. *)
Definition bound_only_to (hotkeys : list string) (h : string) (i : nat) : Prop :=
  hotkeys !! i = Some h ∧ ∀ j, hotkeys !! j = Some h → j = i.

(** The key checker answers, without raising, for every configured key
    combination. *)
Definition answers (is_pressed : string → option bool) (hotkeys : list string) : Prop :=
  ∀ h, h ∈ hotkeys → is_Some (is_pressed h).

(** Worlds used in the examples. *)
Definition three_channels : list InputServerData :=
  [channel 10 false "a"; channel 11 false "b"; channel 12 false "c"].

(** The section width [start_LinearPoti] computes for thresholds 5 and 95
    and three channels: [(95 - 5) / 3]. *)
Definition width_5_95_3 : Q := Qdiv (inject_Z (95 - 5)) (inject_Z 3).

(** One registered button "a" with the given index list, nothing pressed
    yet. *)
Definition one_button_world (servers : list InputServerData) (idxs : list Z) : World :=
  with_cls (λ c, set_index_dict {["a" := idxs]}
                   (set_uid_dict [("a", mkBricklet "a")] c))
    (world0 servers []).

(** ** Notions used in the further properties *)

(** What a router may not change in the registry: the number of channels
    and, per channel, its remote index and its button. *)
Definition static_view (servers : list InputServerData) : list (Z * RGB_Button.t) :=
  (λ s, (index s, rgb_button s)) <$> servers.

(** ** keys.py: construction *)

(** [HotkeyManager.__init__]: the registry is the shared [server_list]
    already in the world. *)
Definition HotkeyManager_init (hotkeys : list string)
    (parse_hotkey : string → bool) : M unit :=
  modify (with_hkm (λ _, {| hotkey_list := hotkeys; currently_pressed := ∅ |}));;
  verify_hotkeys parse_hotkey.

(** The [parse_hotkey] calls for the hotkeys that are not empty, in
    order. *)
Definition parse_events (hotkeys : list string) : list Event :=
  Parse_hotkey <$> filter (λ h, h ≠ "") hotkeys.

(** ** Notions for the start-up of the button router *)

(** The registry positions of the channels bound to indicator [u], in
    increasing order. *)
Definition positions_of (u : string) (servers : list InputServerData) : list Z :=
  omap (λ p, if decide (server_uid p.2 = u) then Some (Z.of_nat p.1) else None)
       (imap pair servers).

(** What one round of the registration loop does to the class
    attributes. *)
Definition register_class (i : nat) (button : RGB_Button.t)
    (c : TinkerforgeControl) : TinkerforgeControl :=
  let u := RGB_Button.uid button in
  let c' :=
    match OrderedDict.get (uid_dict c) u with
    | None => set_uid_dict (OrderedDict.set (uid_dict c) u (mkBricklet u)) c
    | Some _ => c
    end in
  set_index_dict
    (<[u := default [] (index_dict c' !! u) ++ [Z.of_nat i]]> (index_dict c')) c'.

(** What holds of the class attributes once the channels [pre] have been
    registered, starting from empty dicts. *)
Record registration_inv (pre : list InputServerData) (c : TinkerforgeControl)
    : Prop := {
  ri_nodup : NoDup (OrderedDict.keys (uid_dict c));
  ri_dom : ∀ u, u ∈ OrderedDict.keys (uid_dict c) ↔ u ∈ server_uid <$> pre;
  ri_get : ∀ u, u ∈ server_uid <$> pre →
             OrderedDict.get (uid_dict c) u = Some (mkBricklet u);
  ri_index : ∀ u, index_dict c !! u =
               if decide (u ∈ server_uid <$> pre) then Some (positions_of u pre)
               else None;
  ri_state : button_state_dict c = ∅ }.

(** What holds while [start_RGB_Buttons] sends every registered button its
    initial event: [done_] are the buttons served so far, [c0] the class
    attributes after registration. *)
Record initial_press_inv (servers0 : list InputServerData)
    (c0 : TinkerforgeControl) (done_ : OrderedDict.t BrickletRGBLEDButton)
    (w : World) : Prop := {
  ii_uid : uid_dict (cls w) = uid_dict c0;
  ii_index : index_dict (cls w) = index_dict c0;
  ii_state : ∀ u, button_state_dict (cls w) !! u =
               if decide (u ∈ OrderedDict.keys done_) then Some false else None;
  ii_static : static_view (server_list w) = static_view servers0;
  ii_off : ∀ n s, server_list w !! n = Some s →
             server_uid s ∈ OrderedDict.keys done_ → active s = false }.

(** ** main.py *)

(** The names of [XUSB_BUTTON] that the button table uses. *)
Inductive XUSB_BUTTON :=
| XUSB_GAMEPAD_A
| XUSB_GAMEPAD_B
| XUSB_GAMEPAD_X
| XUSB_GAMEPAD_Y
| XUSB_GAMEPAD_BACK
| XUSB_GAMEPAD_GUIDE
| XUSB_GAMEPAD_START
| XUSB_GAMEPAD_LEFT_THUMB
| XUSB_GAMEPAD_RIGHT_THUMB
| XUSB_GAMEPAD_LEFT_SHOULDER
| XUSB_GAMEPAD_RIGHT_SHOULDER
| XUSB_GAMEPAD_DPAD_UP
| XUSB_GAMEPAD_DPAD_DOWN
| XUSB_GAMEPAD_DPAD_LEFT
| XUSB_GAMEPAD_DPAD_RIGHT.

(** The dict [pygame_button_to_XUSB_Button]; [None] is a missing key. *)
Definition pygame_button_to_XUSB_Button (i : Z) : option XUSB_BUTTON :=
  match i with
  | 0 => Some XUSB_GAMEPAD_A
  | 1 => Some XUSB_GAMEPAD_B
  | 2 => Some XUSB_GAMEPAD_X
  | 3 => Some XUSB_GAMEPAD_Y
  | 4 => Some XUSB_GAMEPAD_BACK
  | 5 => Some XUSB_GAMEPAD_GUIDE
  | 6 => Some XUSB_GAMEPAD_START
  | 7 => Some XUSB_GAMEPAD_LEFT_THUMB
  | 8 => Some XUSB_GAMEPAD_RIGHT_THUMB
  | 9 => Some XUSB_GAMEPAD_LEFT_SHOULDER
  | 10 => Some XUSB_GAMEPAD_RIGHT_SHOULDER
  | 11 => Some XUSB_GAMEPAD_DPAD_UP
  | 12 => Some XUSB_GAMEPAD_DPAD_DOWN
  | 13 => Some XUSB_GAMEPAD_DPAD_LEFT
  | 14 => Some XUSB_GAMEPAD_DPAD_RIGHT
  | 15 => Some XUSB_GAMEPAD_BACK
  | _ => None
  end.

(** The dicts of the local controller, keyed by pygame's integer ids, in
    insertion order. *)
Module PadDict.
Section pad_dict.
Context {V : Type}.

Definition t := list (Z * V).

Fixpoint get (d : t) (k : Z) : option V :=
  match d with
  | [] => None
  | (k', v) :: d' => if decide (k' = k) then Some v else get d' k
  end.

Fixpoint set (d : t) (k : Z) (v : V) : t :=
  match d with
  | [] => [(k, v)]
  | (k', v') :: d' =>
      if decide (k' = k) then (k, v) :: d' else (k', v') :: set d' k v
  end.

Definition keys (d : t) : list Z := d.*1.

End pad_dict.
Arguments t : clear implicits.
End PadDict.

(** What [XInput_Gamepad], the report type and float arithmetic provide;
    they are not part of this repository. [A] stands for the floats of the
    axes, [R] for the report. *)
Record Gamepad (A R : Type) := mkGamepad {
  get_default_report : R;
  xusb_value : XUSB_BUTTON → Z;
  add_wButtons : Z → R → R;
  left_joystick_float : A → A → R → R;
  right_joystick_float : A → A → R → R;
  left_trigger_float : A → R → R;
  right_trigger_float : A → R → R;
  float_zero : A;
  minus_one_times : A → A;
  plus_one_halved : A → A;
  round_4 : A → A }.
Arguments get_default_report {A R} _.
Arguments xusb_value {A R} _ _.
Arguments add_wButtons {A R} _ _ _.
Arguments left_joystick_float {A R} _ _ _ _.
Arguments right_joystick_float {A R} _ _ _ _.
Arguments left_trigger_float {A R} _ _ _.
Arguments right_trigger_float {A R} _ _ _.
Arguments float_zero {A R} _.
Arguments minus_one_times {A R} _ _.
Arguments plus_one_halved {A R} _ _.
Arguments round_4 {A R} _ _.

(** [for i in button_data: report.wButtons += table[i].value * button_data[i]] *)
Fixpoint button_loop {A R} (pad : Gamepad A R) (entries : PadDict.t bool)
    (report : R) : outcome R :=
  match entries with
  | [] => Ret report
  | (i, down) :: rest =>
      match pygame_button_to_XUSB_Button i with
      | None => Raise KeyError
      | Some b =>
          button_loop pad rest
            (add_wButtons pad (xusb_value pad b * (if down then 1 else 0)) report)
      end
  end.

Definition build_XInput_REPORT {A R} (pad : Gamepad A R)
    (button_data : PadDict.t bool) (axis_data : PadDict.t A) : outcome R :=
  match button_loop pad button_data (get_default_report pad) with
  | Raise e => Raise e
  | Ret report =>
      let axis i := default (float_zero pad) (PadDict.get axis_data i) in
      let report := left_joystick_float pad (axis 0) (minus_one_times pad (axis 1)) report in
      let report := right_joystick_float pad (axis 2) (minus_one_times pad (axis 3)) report in
      let report := left_trigger_float pad (plus_one_halved pad (axis 4)) report in
      let report := right_trigger_float pad (plus_one_halved pad (axis 5)) report in
      Ret report
  end.

Record LocalController (A : Type) := mkController {
  axis_data : PadDict.t A;
  button_data : PadDict.t bool;
  hat_data : PadDict.t (Z * Z) }.
Arguments mkController {A} _ _ _.
Arguments axis_data {A} _.
Arguments button_data {A} _.
Arguments hat_data {A} _.

(** The pygame events [listen] tells apart; everything else is [OTHER]. *)
Inductive pygame_event (A : Type) :=
| JOYAXISMOTION (axis : Z) (value : A)
| JOYBUTTONDOWN (button : Z)
| JOYBUTTONUP (button : Z)
| JOYHATMOTION (hat : Z) (value : Z * Z)
| OTHER.
Arguments JOYAXISMOTION {A} _ _.
Arguments JOYBUTTONDOWN {A} _.
Arguments JOYBUTTONUP {A} _.
Arguments JOYHATMOTION {A} _ _.
Arguments OTHER {A}.

(** [server_data.server.execute(partial(set_REPORT, server_data.index,
    report))] for the channel at position [list_position] of the
    registry. *)
Record Submission (R : Type) := mkSubmission {
  list_position : nat;
  remote_index : Z;
  report : R }.
Arguments mkSubmission {R} _ _ _.
Arguments list_position {R} _.
Arguments remote_index {R} _.
Arguments report {R} _.

(** The part of [listen] before its loop: dicts that are still empty are
    filled, [numbuttons] and [numhats] being what the joystick reports. *)
Definition listen_start {A} (numbuttons numhats : nat) (c : LocalController A)
    : LocalController A :=
  {| axis_data := axis_data c;
     button_data :=
       match button_data c with
       | [] => foldl (λ d i, PadDict.set d (Z.of_nat i) false) [] (seq 0 numbuttons)
       | _ => button_data c
       end;
     hat_data :=
       match hat_data c with
       | [] => foldl (λ d i, PadDict.set d (Z.of_nat i) (0, 0)) [] (seq 0 numhats)
       | _ => hat_data c
       end |}.

(** The [if]/[elif] chain on the event type. *)
Definition record_event {A R} (pad : Gamepad A R) (c : LocalController A)
    (event : pygame_event A) : LocalController A :=
  match event with
  | JOYAXISMOTION axis value =>
      {| axis_data := PadDict.set (axis_data c) axis (round_4 pad value);
         button_data := button_data c; hat_data := hat_data c |}
  | JOYBUTTONDOWN button =>
      {| axis_data := axis_data c;
         button_data := PadDict.set (button_data c) button true;
         hat_data := hat_data c |}
  | JOYBUTTONUP button =>
      {| axis_data := axis_data c;
         button_data := PadDict.set (button_data c) button false;
         hat_data := hat_data c |}
  | JOYHATMOTION hat value =>
      {| axis_data := axis_data c; button_data := button_data c;
         hat_data := PadDict.set (hat_data c) hat value |}
  | OTHER => c
  end.

(** [for server_data in self.server_list: if server_data.active: ...] *)
Fixpoint send_loop {R} (position : nat) (servers : list InputServerData)
    (r : R) : list (Submission R) :=
  match servers with
  | [] => []
  | server_data :: rest =>
      (if active server_data
       then [mkSubmission position (index server_data) r] else [])
      ++ send_loop (S position) rest r
  end.

(** The loop of [listen] over the events it receives, each with the
    registry as it is when the event is handled. The result holds the
    submissions made, whether the loop is still running or has raised, and
    the controller state. *)
Fixpoint listen_loop {A R} (pad : Gamepad A R)
    (events : list (pygame_event A * list InputServerData))
    (c : LocalController A)
    : list (Submission R) * outcome unit * LocalController A :=
  match events with
  | [] => ([], Ret tt, c)
  | (event, servers) :: rest =>
      let c := record_event pad c event in
      match build_XInput_REPORT pad (button_data c) (axis_data c) with
      | Raise e => ([], Raise e, c)
      | Ret r =>
          let '(more, o, c') := listen_loop pad rest c in
          (send_loop 0 servers r ++ more, o, c')
      end
  end.

Definition listen {A R} (pad : Gamepad A R) (numbuttons numhats : nat)
    (events : list (pygame_event A * list InputServerData))
    (c : LocalController A)
    : list (Submission R) * outcome unit * LocalController A :=
  listen_loop pad events (listen_start numbuttons numhats c).

(** The fields of [Remote_Gamepad] that reach the registry and the hotkey
    list; the others only parametrise the transport. *)
Module Remote_Gamepad.
Record t := mk {
  index : Z;
  hotkey : string;
  rgb_button : RGB_Button.t }.
End Remote_Gamepad.

(** The loop of [main] that builds [server_list] and [hotkey_list]. *)
Definition main_lists (remote_gamepads : list Remote_Gamepad.t)
    : list InputServerData * list string :=
  foldl (λ lists g,
    (lists.1 ++ [mkServer (Remote_Gamepad.index g) false (Remote_Gamepad.rgb_button g)],
     lists.2 ++ [Remote_Gamepad.hotkey g]))
    ([], []) remote_gamepads.

(** [main] up to the construction of the hotkey manager; the zero-channel
    check ends the program with [exit(1)]. The transports
    ([RemoteInputServer]) and the two console banners are left out: the
    registry does not hold the transport and nothing reads the banners. *)
Definition main_setup (remote_gamepads : list Remote_Gamepad.t)
    (parse_hotkey : string → bool) : M unit :=
  let lists := main_lists remote_gamepads in
  if decide (length lists.1 = 0%nat) then raise SystemExit
  else
    modify (with_server_list (λ _, lists.1));;
    HotkeyManager_init lists.2 parse_hotkey.

(** The last button event for [button] among [events], if any: [true] for
    down, [false] for up. *)
Fixpoint last_button_event {A} (button : Z) (events : list (pygame_event A))
    : option bool :=
  match events with
  | [] => None
  | event :: rest =>
      match last_button_event button rest with
      | Some b => Some b
      | None =>
          match event with
          | JOYBUTTONDOWN b => if decide (b = button) then Some true else None
          | JOYBUTTONUP b => if decide (b = button) then Some false else None
          | _ => None
          end
      end
  end.

(** The event names only buttons that the button table knows. *)
Definition known_button {A} (event : pygame_event A) : Prop :=
  match event with
  | JOYBUTTONDOWN b | JOYBUTTONUP b => 0 ≤ b < 16
  | _ => True
  end.

(** The controller state once the first [k] of the events have been
    recorded. *)
Definition controller_after {A R} (pad : Gamepad A R) (c : LocalController A)
    (events : list (pygame_event A * list InputServerData)) (k : nat)
    : LocalController A :=
  foldl (record_event pad) c (take k events).*1.

(** One submission per active channel, in registry order. *)
Definition active_submissions {R} (servers : list InputServerData) (r : R)
    : list (Submission R) :=
  omap (λ p, if active p.2 then Some (mkSubmission p.1 (index p.2) r) else None)
       (imap pair servers).

(** [round(x, 4)] for a float [x]: the nearest multiple of 1/10000, ties
    going to the even one, then the float nearest to that. *)
Definition round_4_float (x : Q) : Q :=
  let y := Qmult x (inject_Z 10000) in
  binary64 (Qmake (Z.sgn (Qnum y) * round_half_even (Z.abs (Qnum y)) (Z.pos (Qden y)))
                  10000).

(** The gamepad of the examples: the float arithmetic of the report
    builder ([-1 * x], [(x + 1.0) / 2], [round(x, 4)]) on floats, the
    values of [XUSB_BUTTON], and a report that is its [wButtons] and the
    list of the float calls made on it. *)
Definition sample_pad : Gamepad Q (Z * list Q) :=
  {| get_default_report := (0, []);
     xusb_value := λ b,
       match b with
       | XUSB_GAMEPAD_DPAD_UP => 1 | XUSB_GAMEPAD_DPAD_DOWN => 2
       | XUSB_GAMEPAD_DPAD_LEFT => 4 | XUSB_GAMEPAD_DPAD_RIGHT => 8
       | XUSB_GAMEPAD_START => 16 | XUSB_GAMEPAD_BACK => 32
       | XUSB_GAMEPAD_LEFT_THUMB => 64 | XUSB_GAMEPAD_RIGHT_THUMB => 128
       | XUSB_GAMEPAD_LEFT_SHOULDER => 256 | XUSB_GAMEPAD_RIGHT_SHOULDER => 512
       | XUSB_GAMEPAD_GUIDE => 1024 | XUSB_GAMEPAD_A => 4096
       | XUSB_GAMEPAD_B => 8192 | XUSB_GAMEPAD_X => 16384
       | XUSB_GAMEPAD_Y => 32768
       end;
     add_wButtons := λ n r, (r.1 + n, r.2);
     left_joystick_float := λ x y r, (r.1, r.2 ++ [x; y]);
     right_joystick_float := λ x y r, (r.1, r.2 ++ [x; y]);
     left_trigger_float := λ x r, (r.1, r.2 ++ [x]);
     right_trigger_float := λ x r, (r.1, r.2 ++ [x]);
     float_zero := inject_Z 0;
     minus_one_times := λ x, binary64 (Qmult (inject_Z (-1)) x);
     plus_one_halved := λ x,
       binary64 (Qdiv (binary64 (Qplus x (inject_Z 1))) (inject_Z 2));
     round_4 := round_4_float |}.

(** A controller whose dicts are still empty, as [__init__] leaves it. *)
Definition fresh_controller {A} : LocalController A :=
  {| axis_data := []; button_data := []; hat_data := [] |}.

(** The class attributes that no router writes: the slider's uid and
    thresholds, [uid_dict] and [index_dict]. *)
Definition same_settings (c c' : TinkerforgeControl) : Prop :=
  uid c' = uid c ∧
  upper_threshold c' = upper_threshold c ∧
  lower_threshold c' = lower_threshold c ∧
  uid_dict c' = uid_dict c ∧
  index_dict c' = index_dict c.

(** * Properties *)

(** ** The monad *)

Lemma bind_ret {A B} (m : M A) (f : A → M B) w a w' :
  m w = (Ret a, w') → (m ≫= f) w = f a w'.
Proof. intros H. unfold mbind, M_bind. by rewrite H. Qed.

Lemma bind_raise {A B} (m : M A) (f : A → M B) w e w' :
  m w = (Raise e, w') → (m ≫= f) w = (Raise e, w').
Proof. intros H. unfold mbind, M_bind. by rewrite H. Qed.

Ltac run :=
  unfold mbind, M_bind, mret, M_ret, get_world, modify, emit, lift, raise; simpl.

(** ** List indexing *)

Lemma list_index_nonneg {A} (l : list A) (i : Z) :
  0 ≤ i < Z.of_nat (length l) → list_index l i = Some (Z.to_nat i).
Proof. intros H. unfold list_index. by rewrite decide_True. Qed.

Lemma list_index_neg {A} (l : list A) (i : Z) :
  - Z.of_nat (length l) ≤ i < 0 →
  list_index l i = Some (Z.to_nat (Z.of_nat (length l) + i)).
Proof.
  intros H. unfold list_index.
  rewrite decide_False by lia. by rewrite decide_True.
Qed.

Lemma list_index_lt {A} (l : list A) (i : Z) n :
  list_index l i = Some n → (n < length l)%nat.
Proof.
  unfold list_index. repeat case_decide; intros; simplify_eq; lia.
Qed.

(** ** The position router *)

Lemma cb_position_debounced position sw w :
  Z.abs (position - old_position (cls w)) ≤ 2 →
  cb_position position sw w = (Ret tt, w).
Proof.
  intros H. unfold cb_position. run. by rewrite decide_False by lia.
Qed.

Lemma cb_position_same_section position sw w :
  Z.abs (position - old_position (cls w)) > 2 →
  floordiv (position - lower_threshold (cls w)) sw = Ret (old_section (cls w)) →
  cb_position position sw w = (Ret tt, w).
Proof.
  intros H Hs. unfold cb_position. run. rewrite decide_True by done.
  rewrite Hs. by rewrite decide_True.
Qed.

Lemma cb_position_zero_width position sw w :
  Z.abs (position - old_position (cls w)) > 2 →
  Qeq_bool sw (inject_Z 0) = true →
  cb_position position sw w = (Raise ZeroDivisionError, w).
Proof.
  intros H Hs. unfold cb_position. run. rewrite decide_True by done.
  unfold floordiv. by rewrite Hs.
Qed.

Lemma index_set_active_flag v s : index (set_active_flag v s) = index s.
Proof. done. Qed.

Lemma lookup_index_alter v n (l : list InputServerData) k :
  index <$> alter (set_active_flag v) n l !! k = index <$> l !! k.
Proof.
  destruct (decide (n = k)) as [->|Hne].
  - rewrite list_lookup_alter_eq. by destruct (l !! k).
  - by rewrite list_lookup_alter_ne.
Qed.

Lemma lookup_index_fmap v (l : list InputServerData) k :
  index <$> (set_active_flag v <$> l) !! k = index <$> l !! k.
Proof. rewrite list_lookup_fmap. by destruct (l !! k). Qed.

Lemma cb_position_processed position sw section w :
  Z.abs (position - old_position (cls w)) > 2 →
  floordiv (position - lower_threshold (cls w)) sw = Ret section →
  section ≠ old_section (cls w) →
  cb_position position sw w =
    (Ret tt,
     with_cls (set_old section position)
       (with_out (λ o, o ++ [section_message section (server_list w)])
          (with_server_list (section_flags section) w))).
Proof.
  intros Hd Hs Hne. unfold cb_position. run.
  rewrite decide_True by done. rewrite Hs.
  rewrite decide_False by done.
  unfold section_flags, section_message.
  unfold set_active, set_all. run.
  unfold with_cls, with_out, with_server_list; simpl.
  destruct (decide (section < 0)) as [Hneg|Hneg]; [done|].
  destruct (decide (section >= Z.of_nat (length (server_list w)))) as [Hall|Hone]; [done|].
  set (n := Z.of_nat (length (server_list w))) in *.
  assert (Hlen : Z.of_nat (length (set_active_flag false <$> server_list w)) = n)
    by (by rewrite length_fmap).
  assert (Hidx : list_index (set_active_flag false <$> server_list w) (section - 1)
                 = Some (Z.to_nat ((section - 1) `mod` n))).
  { destruct (decide (section = 0)) as [->|].
    - rewrite list_index_neg by lia. f_equal. rewrite Hlen. f_equal.
      rewrite <- (Z.mod_add (0 - 1) 1 n) by lia.
      rewrite Z.mod_small; lia.
    - rewrite list_index_nonneg by lia. f_equal.
      rewrite Z.mod_small; lia. }
  rewrite Hidx. simpl.
  rewrite list_index_nonneg by (rewrite length_alter; lia).
  assert (Hk : (Z.to_nat section < length (server_list w))%nat) by lia.
  apply lookup_lt_is_Some in Hk as [srv Hsrv].
  pose proof (lookup_index_alter true (Z.to_nat ((section - 1) `mod` n))
                (set_active_flag false <$> server_list w) (Z.to_nat section)) as Hi.
  rewrite lookup_index_fmap, Hsrv in Hi. simpl in Hi.
  destruct (alter _ _ _ !! Z.to_nat section) as [srv'|] eqn:E; [|done].
  simpl in Hi. simplify_eq. rewrite Hsrv. simpl. by rewrite Hi.
Qed.

Lemma active_set_all v (l : list InputServerData) :
  active <$> (set_active_flag v <$> l) = replicate (length l) v.
Proof. induction l as [|s l IH]; [done|]. rewrite !fmap_cons. simpl. by f_equal. Qed.

Lemma active_alter_set_all n (l : list InputServerData) j s :
  (n < length l)%nat →
  alter (set_active_flag true) n (set_active_flag false <$> l) !! j = Some s →
  active s = true ↔ j = n.
Proof.
  intros Hn Hj. destruct (decide (n = j)) as [->|Hne].
  - rewrite list_lookup_alter_eq, list_lookup_fmap in Hj.
    destruct (l !! j); simplify_eq/=. done.
  - rewrite list_lookup_alter_ne, list_lookup_fmap in Hj by done.
    destruct (l !! j); simplify_eq/=. split; [done|]. by intros ->.
Qed.

(** The single-section branch: the channel that ends up active is the one
    before the section, counted cyclically, and the message names the
    channel at the section. *)
Lemma cb_position_one position sw k w :
  Z.abs (position - old_position (cls w)) > 2 →
  floordiv (position - lower_threshold (cls w)) sw = Ret k →
  k ≠ old_section (cls w) →
  0 ≤ k < Z.of_nat (length (server_list w)) →
  let r := cb_position position sw w in
  let prev := Z.to_nat ((k - 1) `mod` Z.of_nat (length (server_list w))) in
  r.1 = Ret tt ∧
  (prev < length (server_list w))%nat ∧
  (∀ j s, server_list r.2 !! j = Some s → active s = true ↔ j = prev) ∧
  out r.2 = out w ++ [Printed_gamepad (default 0 (index <$> server_list w !! Z.to_nat k))].
Proof.
  intros Hd Hs Hne Hk r prev. subst r.
  rewrite (cb_position_processed _ _ _ _ Hd Hs Hne). simpl.
  unfold section_flags, section_message.
  rewrite !decide_False by lia.
  assert (prev < length (server_list w))%nat.
  { pose proof (Z.mod_pos_bound (k - 1) (Z.of_nat (length (server_list w)))). lia. }
  split; [done|]. split; [done|]. split; [|done].
  intros j s. by apply active_alter_set_all.
Qed.

Lemma cb_position_events position sw w :
  ∃ evs, out (cb_position position sw w).2 = out w ++ evs ∧
         Forall (λ e, console_message e = true) evs.
Proof.
  destruct (decide (Z.abs (position - old_position (cls w)) > 2)) as [Hd|Hd].
  - destruct (floordiv (position - lower_threshold (cls w)) sw) as [section|e] eqn:Hs.
    + destruct (decide (section = old_section (cls w))) as [->|Hne].
      * rewrite cb_position_same_section by done.
        exists []. by rewrite app_nil_r.
      * rewrite (cb_position_processed _ _ _ _ Hd Hs Hne). simpl.
        eexists. split; [done|]. apply Forall_singleton.
        unfold section_message. by repeat case_decide.
    + exists []. rewrite app_nil_r. split; [|done].
      unfold cb_position. run. rewrite decide_True by done. by rewrite Hs.
  - rewrite cb_position_debounced by lia.
    exists []. by rewrite app_nil_r.
Qed.

(** ** Loops and the output trace *)

Lemma for_each_app {A} (l1 l2 : list A) (body : A → M unit) w :
  for_each (l1 ++ l2) body w = (for_each l1 body ;; for_each l2 body) w.
Proof.
  revert w. induction l1 as [|x l1 IH]; intros w; simpl; [done|].
  run. destruct (body x w) as [[[]|e] w1]; [|done]. apply IH.
Qed.

Lemma with_out_nil w : with_out (λ o, o ++ []) w = w.
Proof. destruct w. unfold with_out. simpl. by rewrite app_nil_r. Qed.

Lemma with_out_app evs1 evs2 w :
  with_out (λ o, o ++ evs2) (with_out (λ o, o ++ evs1) w)
  = with_out (λ o, o ++ (evs1 ++ evs2)) w.
Proof. destruct w. unfold with_out. simpl. by rewrite app_assoc. Qed.

Lemma emit_bind {B} e (k : M B) w :
  (emit e ;; k) w = k (with_out (λ o, o ++ [e]) w).
Proof. done. Qed.

Lemma raise_bind {A B} e (k : A → M B) w : (raise e ≫= k) w = (Raise e, w).
Proof. done. Qed.

(** ** The indicator reflector *)

Lemma set_color_three button c w :
  length c = 3%nat →
  set_color button c w = (Ret tt, with_out (λ o, o ++ [Set_color button c]) w).
Proof. intros Hc. unfold set_color. by rewrite decide_True. Qed.

Lemma set_color_wrong button c w :
  length c ≠ 3%nat → set_color button c w = (Raise TypeError, w).
Proof. intros Hc. unfold set_color. by rewrite decide_False. Qed.

(** The second loop of [color_all_buttons], when every colour it finds has
    three components. *)
Lemma push_loop (color_dict : gmap string (list Z))
    (button_dict : OrderedDict.t BrickletRGBLEDButton) w :
  (∀ u b, (u, b) ∈ button_dict →
     ∃ c, color_dict !! u = Some c ∧ length c = 3%nat) →
  for_each button_dict (λ '(u, button),
    match color_dict !! u with
    | Some c => set_color button c
    | None => raise KeyError
    end) w
  = (Ret tt, with_out (λ o, o ++ (push_event color_dict <$> button_dict)) w).
Proof.
  revert w. induction button_dict as [|[u b] bd IH]; intros w Hall.
  - simpl. by rewrite with_out_nil.
  - simpl. destruct (Hall u b) as (c & Hc & Hlen); [by left|].
    rewrite Hc. erewrite bind_ret by (by apply set_color_three).
    rewrite IH.
    + rewrite with_out_app. unfold push_event at 2. simpl. by rewrite Hc.
    + intros u' b' Hin. apply (Hall u' b'). by right.
Qed.

Lemma push_loop_frame (color_dict : gmap string (list Z))
    (button_dict : OrderedDict.t BrickletRGBLEDButton) w :
  ∃ o evs,
    for_each button_dict (λ '(u, button),
      match color_dict !! u with
      | Some c => set_color button c
      | None => raise KeyError
      end) w
    = (o, with_out (λ o, o ++ evs) w) ∧ reflector_outcome o.
Proof.
  revert w. induction button_dict as [|[u b] bd IH]; intros w.
  - exists (Ret tt), []. simpl. rewrite with_out_nil. by split; [|left].
  - simpl. destruct (color_dict !! u) as [c|].
    + destruct (decide (length c = 3%nat)) as [Hc|Hc].
      * erewrite bind_ret by (by apply set_color_three).
        destruct (IH (with_out (λ o, o ++ [Set_color b c]) w)) as (o & evs & -> & Ho).
        exists o, (Set_color b c :: evs). by rewrite with_out_app.
      * erewrite bind_raise by (by apply set_color_wrong).
        exists (Raise TypeError), []. rewrite with_out_nil.
        split; [done|]. right. by right.
    + rewrite raise_bind.
      exists (Raise KeyError), []. rewrite with_out_nil.
      split; [done|]. right. by left.
Qed.

Lemma color_loop_raises uids servers cd bd e :
  color_loop uids servers cd bd = Raise e → e = KeyError.
Proof.
  revert cd bd. induction servers as [|s rest IH]; intros cd bd; simpl; [done|].
  destruct (OrderedDict.get uids _); [apply IH|]. by intros [= <-].
Qed.

(** The reflector changes nothing but the output trace, and the only
    exceptions it can raise are [KeyError] and [TypeError]. *)
Lemma color_all_buttons_frame w :
  ∃ o evs, color_all_buttons w = (o, with_out (λ o, o ++ evs) w)
           ∧ reflector_outcome o.
Proof.
  unfold color_all_buttons.
  destruct (color_loop _ _ _ _) as [[cd bd]|e] eqn:E.
  - apply push_loop_frame.
  - apply color_loop_raises in E as ->.
    exists (Raise KeyError), []. rewrite with_out_nil.
    split; [done|]. right. by left.
Qed.

Lemma print_current_state_frame w :
  ∃ o evs, print_current_state w = (o, with_out (λ o, o ++ evs) w)
           ∧ reflector_outcome o.
Proof.
  unfold print_current_state. run.
  match goal with |- context [color_all_buttons ?w1] =>
    destruct (color_all_buttons_frame w1) as (o & evs & -> & Ho) end.
  exists o. eexists. by rewrite with_out_app.
Qed.

(** ** The button router *)

Lemma list_index_length {A} (l l' : list A) i :
  length l = length l' → list_index l i = list_index l' i.
Proof. intros H. unfold list_index. by rewrite H. Qed.

Lemma flags_after_length v idxs l : length (flags_after v idxs l) = length l.
Proof.
  revert l. induction idxs as [|i idxs IH]; intros l; [done|].
  unfold flags_after in *. simpl. rewrite IH.
  destruct (list_index l i); [apply length_alter|done].
Qed.

Lemma for_each_set_active v idxs w :
  Forall (valid_index (server_list w)) idxs →
  for_each idxs (λ i, set_active i v) w
  = (Ret tt, with_server_list (flags_after v idxs) w).
Proof.
  revert w. induction idxs as [|i idxs IH]; intros w Hall.
  - by destruct w.
  - apply Forall_cons in Hall as [[n Hn] Hall]. simpl.
    erewrite bind_ret; [|unfold set_active; by rewrite Hn].
    rewrite IH.
    + destruct w. unfold with_server_list, flags_after. simpl in *. by rewrite Hn.
    + simpl. eapply Forall_impl; [exact Hall|]. intros j. unfold valid_index.
      by rewrite (list_index_length (alter _ _ _) (server_list w))
        by apply length_alter.
Qed.

Lemma for_each_set_active_bad v pre bad post w :
  Forall (valid_index (server_list w)) pre →
  list_index (server_list w) bad = None →
  for_each (pre ++ bad :: post) (λ i, set_active i v) w
  = (Raise IndexError, with_server_list (flags_after v pre) w).
Proof.
  intros Hpre Hbad. rewrite for_each_app.
  erewrite bind_ret; [|by apply for_each_set_active].
  simpl. erewrite bind_raise; [done|].
  unfold set_active. simpl.
  rewrite (list_index_length _ (server_list w)) by apply flags_after_length.
  by rewrite Hbad.
Qed.

Lemma set_active_flag_idemp v (o : option InputServerData) :
  set_active_flag v <$> (set_active_flag v <$> o) = set_active_flag v <$> o.
Proof. by destruct o. Qed.

Lemma flags_after_lookup v idxs l j :
  flags_after v idxs l !! j =
    if decide (Exists (λ i, list_index l i = Some j) idxs)
    then set_active_flag v <$> l !! j else l !! j.
Proof.
  revert l. induction idxs as [|i idxs IH]; intros l.
  - rewrite decide_False; [done|]. by intros ?%Exists_nil.
  - change (flags_after v (i :: idxs) l) with
      (flags_after v idxs (match list_index l i with
                           | Some n => alter (set_active_flag v) n l | None => l end)).
    rewrite IH. clear IH.
    set (l1 := match list_index l i with
               | Some n => alter (set_active_flag v) n l | None => l end).
    assert (Hlen : length l1 = length l).
    { subst l1. destruct (list_index l i); [apply length_alter|done]. }
    assert (Hex : Exists (λ i0, list_index l1 i0 = Some j) idxs
                  ↔ Exists (λ i0, list_index l i0 = Some j) idxs).
    { apply Exists_proper; [|done]. intros k. by rewrite (list_index_length l1 l). }
    destruct (decide (list_index l i = Some j)) as [Hi|Hi].
    + rewrite (decide_True (P := Exists _ (i :: idxs))) by (by left).
      subst l1. rewrite Hi, list_lookup_alter_eq.
      case_decide; [apply set_active_flag_idemp|done].
    + assert (Hl1 : l1 !! j = l !! j).
      { subst l1. destruct (list_index l i) as [n|]; [|done].
        apply list_lookup_alter_ne. congruence. }
      rewrite Hl1.
      destruct (decide (Exists (λ i0, list_index l i0 = Some j) idxs)) as [He|He].
      * rewrite decide_True by (by apply Hex).
        by rewrite decide_True by (by right).
      * rewrite decide_False by (by rewrite Hex).
        rewrite decide_False; [done|]. by intros [?|?]%Exists_cons.
Qed.

Lemma try_except_pass_through e (m : M unit) w o w' :
  m w = (o, w') → reflector_outcome o → e = IndexError →
  try_except_pass e m w = (o, w').
Proof.
  intros Hm [-> | [-> | ->]] ->; unfold try_except_pass; by rewrite Hm.
Qed.

(** A release edge with every bound index valid: the group state is
    flipped, every bound channel receives it, and the reflector runs on the
    state reached. *)
Lemma cb_button_released u idxs w :
  index_dict (cls w) !! u = Some idxs →
  Forall (valid_index (server_list w)) idxs →
  let v := negb (default true (button_state_dict (cls w) !! u)) in
  cb_button true u w
  = print_current_state
      (with_server_list (flags_after v idxs) (with_cls (set_button_state u v) w)).
Proof.
  intros Hidx Hall v. unfold cb_button.
  set (w1 := with_server_list _ _).
  destruct (print_current_state_frame w1) as (o & evs & Hp & Ho).
  rewrite Hp. apply try_except_pass_through; [|done|done].
  unfold mbind, M_bind, get_world, modify. simpl. rewrite Hidx.
  by rewrite for_each_set_active.
Qed.

(** A release edge that meets an out-of-range index: the [IndexError] is
    swallowed, the channels before the offending index keep the new value,
    the reflector is not reached. *)
Lemma cb_button_out_of_range u pre bad post w :
  index_dict (cls w) !! u = Some (pre ++ bad :: post) →
  Forall (valid_index (server_list w)) pre →
  list_index (server_list w) bad = None →
  let v := negb (default true (button_state_dict (cls w) !! u)) in
  cb_button true u w
  = (Ret tt,
     with_server_list (flags_after v pre) (with_cls (set_button_state u v) w)).
Proof.
  intros Hidx Hpre Hbad v. unfold cb_button, try_except_pass.
  unfold mbind, M_bind, get_world, modify. simpl. rewrite Hidx.
  by rewrite for_each_set_active_bad.
Qed.

Lemma cb_button_released_world u idxs w :
  index_dict (cls w) !! u = Some idxs →
  Forall (valid_index (server_list w)) idxs →
  let v := negb (default true (button_state_dict (cls w) !! u)) in
  let w' := (cb_button true u w).2 in
  cls w' = set_button_state u v (cls w) ∧
  server_list w' = flags_after v idxs (server_list w) ∧
  hkm w' = hkm w.
Proof.
  intros Hidx Hall v w'. subst w'.
  rewrite (cb_button_released u idxs w Hidx Hall).
  match goal with |- context [print_current_state ?w1] =>
    destruct (print_current_state_frame w1) as (o & evs & -> & _) end.
  done.
Qed.

Lemma cb_button_pressed u w : cb_button false u w = (Ret tt, w).
Proof. done. Qed.

(** ** Ordered dicts *)

Lemma OrderedDict_get_set_eq {V} (d : OrderedDict.t V) k v :
  OrderedDict.get (OrderedDict.set d k v) k = Some v.
Proof.
  induction d as [|[k' v'] d IH]; cbn [OrderedDict.get OrderedDict.set].
  - by rewrite decide_True.
  - destruct (decide (k' = k)) as [->|Hne]; cbn [OrderedDict.get].
    + by rewrite decide_True.
    + by rewrite decide_False.
Qed.

Lemma OrderedDict_keys_set {V} (d : OrderedDict.t V) k v :
  OrderedDict.keys (OrderedDict.set d k v) =
    if decide (k ∈ OrderedDict.keys d) then OrderedDict.keys d
    else OrderedDict.keys d ++ [k].
Proof.
  unfold OrderedDict.keys.
  induction d as [|[k' v'] d IH]; cbn [OrderedDict.set].
  - rewrite decide_False; [done|]. apply not_elem_of_nil.
  - destruct (decide (k' = k)) as [->|Hne]; rewrite !fmap_cons.
    + rewrite decide_True; [done|]. by left.
    + rewrite IH. cbn [fst]. destruct (decide (k ∈ d.*1)) as [Hin|Hin].
      * rewrite decide_True; [done|]. by right.
      * rewrite decide_False; [done|].
        intros [?|?]%elem_of_cons; [congruence|done].
Qed.

Lemma OrderedDict_elem_of_set {V} (d : OrderedDict.t V) k v k' v' :
  (k', v') ∈ OrderedDict.set d k v → (k' = k ∧ v' = v) ∨ (k', v') ∈ d.
Proof.
  induction d as [|[k0 v0] d IH]; cbn [OrderedDict.set].
  - intros ?%list_elem_of_singleton. simplify_eq. by left.
  - destruct (decide (k0 = k)) as [->|Hne].
    + intros [?|?]%elem_of_cons; [simplify_eq; by left|].
      right. by right.
    + intros [?|?]%elem_of_cons; [simplify_eq; right; by left|].
      destruct IH as [?|?]; [done|by left|]. right. by right.
Qed.

(** ** The first loop of the reflector *)

Lemma Zsum_snoc l x : Zsum (l ++ [x]) = Zsum l + x.
Proof. unfold Zsum. induction l as [|y l IH]; simpl; lia. Qed.

Lemma bound_channels_snoc u pre s :
  bound_channels u (pre ++ [s]) =
    if decide (server_uid s = u) then bound_channels u pre ++ [s]
    else bound_channels u pre.
Proof.
  unfold bound_channels. rewrite filter_app.
  change (filter _ [s]) with
    (if decide (server_uid s = u) then [s] else @nil InputServerData).
  case_decide; [done|]. by rewrite app_nil_r.
Qed.

Lemma spec_indicator_color_snoc u pre s :
  server_uid s = u → length (channel_color s) = 3%nat →
  zip_with Z.add (channel_color s) (spec_indicator_color u pre)
  = spec_indicator_color u (pre ++ [s]).
Proof.
  intros Hu Hlen. unfold spec_indicator_color.
  rewrite bound_channels_snoc, decide_True by done.
  rewrite !fmap_cons, !fmap_nil. cbv beta.
  rewrite !fmap_app, !fmap_cons, !fmap_nil, !Zsum_snoc.
  destruct (channel_color s) as [|c0 [|c1 [|c2 [|]]]] eqn:Hc; try done.
  cbn [zip_with lookup list_lookup default from_option]. unfold id.
  f_equal; [lia|]. f_equal; [lia|]. f_equal. lia.
Qed.

Lemma spec_indicator_color_other u pre s :
  server_uid s ≠ u →
  spec_indicator_color u (pre ++ [s]) = spec_indicator_color u pre.
Proof.
  intros Hu. unfold spec_indicator_color.
  by rewrite bound_channels_snoc, decide_False.
Qed.

Lemma elem_of_uids_snoc u pre s :
  u ∈ server_uid <$> (pre ++ [s]) ↔ u ∈ server_uid <$> pre ∨ u = server_uid s.
Proof.
  by rewrite fmap_app, fmap_cons, fmap_nil, elem_of_app, list_elem_of_singleton.
Qed.

Lemma color_loop_inv_init uids : color_loop_inv uids [] ∅ [].
Proof.
  split.
  - intros u. rewrite lookup_empty. split; [by intros []|by intros ?%elem_of_nil].
  - constructor.
  - intros u. done.
  - intros u b ?%elem_of_nil. done.
  - intros _ u. by rewrite lookup_empty.
Qed.

Lemma color_loop_inv_step uids pre cd bd s b :
  color_loop_inv uids pre cd bd →
  OrderedDict.get uids (server_uid s) = Some b →
  color_loop_inv uids (pre ++ [s])
    (<[server_uid s :=
        zip_with Z.add (channel_color s) (default [0; 0; 0] (cd !! server_uid s))]> cd)
    (OrderedDict.set bd (server_uid s) b).
Proof.
  intros [Hcd Hnd Hbd Hval Hcol] Hb. split.
  - intros u. rewrite elem_of_uids_snoc.
    destruct (decide (server_uid s = u)) as [<-|Hne].
    + rewrite lookup_insert_eq. split; [by right|by eexists].
    + rewrite lookup_insert_ne by done. rewrite Hcd.
      split; [by left|]. intros [?|?]; [done|congruence].
  - rewrite OrderedDict_keys_set. case_decide; [done|].
    apply NoDup_app. split; [done|]. split; [|apply NoDup_singleton].
    intros u Hu ->%list_elem_of_singleton. done.
  - intros u. rewrite OrderedDict_keys_set, elem_of_uids_snoc.
    case_decide as Hin.
    + rewrite Hbd. split; [by left|]. intros [?| ->]; [done|]. by apply Hbd.
    + rewrite elem_of_app, list_elem_of_singleton, Hbd. done.
  - intros u b' [[-> ->]|Hin]%OrderedDict_elem_of_set; [done|]. by apply Hval.
  - intros Hok u. apply Forall_app in Hok as [Hpre Hs].
    pose proof (Forall_inv Hs) as [Hon Hoff].
    destruct (decide (server_uid s = u)) as [<-|Hne].
    + rewrite lookup_insert_eq. simpl. rewrite (Hcol Hpre).
      apply spec_indicator_color_snoc; [done|].
      unfold channel_color. by destruct (active s).
    + rewrite lookup_insert_ne by done.
      rewrite spec_indicator_color_other by done. by apply Hcol.
Qed.

Lemma color_loop_run uids rest :
  ∀ pre cd bd,
    color_loop_inv uids pre cd bd →
    Forall (registered uids) rest →
    ∃ cd' bd', color_loop uids rest cd bd = Ret (cd', bd') ∧
               color_loop_inv uids (pre ++ rest) cd' bd'.
Proof.
  induction rest as [|s rest IH]; intros pre cd bd Hinv Hreg.
  - exists cd, bd. by rewrite app_nil_r.
  - apply Forall_cons in Hreg as [[b Hb] Hreg]. simpl.
    fold (server_uid s). rewrite Hb.
    destruct (IH (pre ++ [s]) _ _ (color_loop_inv_step _ _ _ _ _ _ Hinv Hb) Hreg)
      as (cd' & bd' & Hrun & Hinv').
    exists cd', bd'. rewrite <- app_assoc in Hinv'. split; [|done].
    exact Hrun.
Qed.

Lemma spec_indicator_color_length u servers :
  length (spec_indicator_color u servers) = 3%nat.
Proof. done. Qed.

(** With every channel's button registered in [uid_dict] and every colour
    made of three components the reflector returns normally, and pushes
    one colour per entry of [button_dict]. *)
Lemma color_all_buttons_run w :
  Forall (registered (uid_dict (cls w))) (server_list w) →
  Forall colors_ok (server_list w) →
  ∃ cd bd,
    color_loop_inv (uid_dict (cls w)) (server_list w) cd bd ∧
    color_all_buttons w
    = (Ret tt, with_out (λ o, o ++ (push_event cd <$> bd)) w).
Proof.
  intros Hreg Hok.
  destruct (color_loop_run _ _ [] ∅ [] (color_loop_inv_init _) Hreg)
    as (cd & bd & Hrun & Hinv).
  exists cd, bd. split; [done|].
  unfold color_all_buttons. simpl in Hrun. rewrite Hrun.
  apply push_loop. intros u b Hin.
  assert (Hd : is_Some (cd !! u)).
  { apply (inv_colors_dom _ _ _ _ Hinv), (inv_buttons_dom _ _ _ _ Hinv).
    unfold OrderedDict.keys. apply list_elem_of_fmap. by exists (u, b). }
  destruct Hd as [c Hc]. exists c. split; [done|].
  pose proof (inv_colors_val _ _ _ _ Hinv Hok u) as Hval.
  rewrite Hc in Hval. simpl in Hval. rewrite Hval.
  apply spec_indicator_color_length.
Qed.

Lemma print_current_state_run w :
  Forall (registered (uid_dict (cls w))) (server_list w) →
  Forall colors_ok (server_list w) →
  ∃ evs, print_current_state w = (Ret tt, with_out (λ o, o ++ evs) w).
Proof.
  intros Hreg Hok. unfold print_current_state.
  unfold mbind at 1, M_bind at 1, get_world. rewrite emit_bind.
  match goal with |- context [color_all_buttons ?w1] =>
    destruct (color_all_buttons_run w1) as (cd & bd & _ & ->); [done|done|] end.
  eexists. by rewrite with_out_app.
Qed.

(** The lengths of the accumulated colours. *)
Lemma lengths_inv_init : lengths_inv [] ∅.
Proof. intros u. rewrite lookup_empty. simpl. split; [lia|]. by split. Qed.

Lemma lengths_inv_step pre cd s :
  lengths_inv pre cd →
  lengths_inv (pre ++ [s])
    (<[server_uid s :=
        zip_with Z.add (channel_color s) (default [0; 0; 0] (cd !! server_uid s))]> cd).
Proof.
  intros Hinv u. destruct (Hinv u) as [Hle Hiff].
  rewrite Forall_app, Forall_singleton.
  destruct (decide (server_uid s = u)) as [<-|Hne].
  - rewrite lookup_insert_eq. simpl. rewrite length_zip_with.
    unfold color_fits. split; [lia|]. rewrite <- Hiff. split.
    + intros Hl. split; [lia|]. intros _. lia.
    + intros [Hold Hs]. specialize (Hs eq_refl). lia.
  - rewrite lookup_insert_ne by done. split; [done|]. rewrite Hiff.
    split; [by intros Hpre; split|by intros [Hpre _]].
Qed.

Lemma color_loop_lengths uids rest :
  ∀ pre cd bd cd' bd',
    lengths_inv pre cd →
    color_loop uids rest cd bd = Ret (cd', bd') →
    lengths_inv (pre ++ rest) cd'.
Proof.
  induction rest as [|s rest IH]; intros pre cd bd cd' bd' Hinv Hrun.
  - simpl in Hrun. simplify_eq. by rewrite app_nil_r.
  - simpl in Hrun. fold (server_uid s) in Hrun.
    destruct (OrderedDict.get uids (server_uid s)) as [b|]; [|done].
    apply (IH (pre ++ [s])) in Hrun.
    + by rewrite <- app_assoc in Hrun.
    + by apply lengths_inv_step.
Qed.

(** The second loop, whatever the lengths: it returns normally when every
    colour has three components and raises [TypeError] at the first one
    that has not. *)
Lemma push_loop_outcome (color_dict : gmap string (list Z))
    (button_dict : OrderedDict.t BrickletRGBLEDButton) :
  ∀ w,
    (∀ u b, (u, b) ∈ button_dict → is_Some (color_dict !! u)) →
    let r := for_each button_dict (λ '(u, button),
               match color_dict !! u with
               | Some c => set_color button c
               | None => raise KeyError
               end) w in
    let three (p : string * BrickletRGBLEDButton) :=
      length (default [0; 0; 0] (color_dict !! p.1)) = 3%nat in
    (r.1 = Ret tt ∧ Forall three button_dict) ∨
    (r.1 = Raise TypeError ∧ ¬ Forall three button_dict).
Proof.
  induction button_dict as [|[u b] bd IH]; intros w Hall r three.
  - left. by split.
  - subst r. simpl. destruct (Hall u b) as [c Hc]; [by left|]. rewrite Hc.
    destruct (decide (length c = 3%nat)) as [Hlen|Hlen].
    + erewrite bind_ret by (by apply set_color_three).
      destruct (IH (with_out (λ o, o ++ [Set_color b c]) w)) as [[Hr Hf]|[Hr Hf]].
      * intros u' b' Hin. apply (Hall u' b'). by right.
      * left. split; [done|]. constructor; [|done].
        subst three. simpl. by rewrite Hc.
      * right. split; [done|]. intros Hn. apply Hf.
        by apply Forall_cons in Hn as [_ Hn].
    + erewrite bind_raise by (by apply set_color_wrong).
      right. split; [done|]. intros Hn. apply Forall_cons in Hn as [Hn _].
      subst three. simpl in Hn. by rewrite Hc in Hn.
Qed.

(** With every channel's button registered, the reflector returns normally
    when the current colour of every channel has at least three
    components, and raises [TypeError] otherwise. *)
Lemma color_all_buttons_outcome w :
  Forall (registered (uid_dict (cls w))) (server_list w) →
  ((color_all_buttons w).1 = Ret tt ∧ Forall color_fits (server_list w)) ∨
  ((color_all_buttons w).1 = Raise TypeError ∧ ¬ Forall color_fits (server_list w)).
Proof.
  intros Hreg.
  destruct (color_loop_run _ _ [] ∅ [] (color_loop_inv_init _) Hreg)
    as (cd & bd & Hrun & Hinv).
  simpl in Hrun, Hinv.
  pose proof (color_loop_lengths _ _ [] ∅ [] cd bd lengths_inv_init Hrun) as Hlen.
  simpl in Hlen.
  assert (Hdom : ∀ u b, (u, b) ∈ bd → is_Some (cd !! u)).
  { intros u b Hin.
    apply (inv_colors_dom _ _ _ _ Hinv), (inv_buttons_dom _ _ _ _ Hinv).
    unfold OrderedDict.keys. apply list_elem_of_fmap. by exists (u, b). }
  assert (Hiff : Forall (λ p : string * BrickletRGBLEDButton,
                    length (default [0; 0; 0] (cd !! p.1)) = 3%nat) bd
                 ↔ Forall color_fits (server_list w)).
  { rewrite !Forall_forall. split.
    - intros Hbd s Hs.
      assert (Hk : server_uid s ∈ OrderedDict.keys bd).
      { apply (inv_buttons_dom _ _ _ _ Hinv). apply list_elem_of_fmap. by exists s. }
      unfold OrderedDict.keys in Hk.
      apply list_elem_of_fmap in Hk as ([u b] & Hu & Hin). simpl in Hu. subst u.
      specialize (Hbd _ Hin). simpl in Hbd.
      apply (Hlen (server_uid s)) in Hbd.
      rewrite Forall_forall in Hbd. by apply (Hbd s Hs).
    - intros Hfit [u b] Hin. simpl. apply (Hlen u).
      apply Forall_forall. intros s Hs _. by apply Hfit. }
  unfold color_all_buttons. rewrite Hrun.
  destruct (push_loop_outcome cd bd w Hdom) as [[Hr Hf]|[Hr Hf]].
  - left. split; [done|]. by apply Hiff.
  - right. split; [done|]. by rewrite <- Hiff.
Qed.

Lemma colors_ok_fits s : colors_ok s → color_fits s.
Proof.
  intros [Hon Hoff]. unfold color_fits, channel_color.
  destruct (active s); lia.
Qed.

Lemma print_current_state_outcome w :
  Forall (registered (uid_dict (cls w))) (server_list w) →
  ((print_current_state w).1 = Ret tt ∧ Forall color_fits (server_list w)) ∨
  ((print_current_state w).1 = Raise TypeError ∧ ¬ Forall color_fits (server_list w)).
Proof.
  intros Hreg. unfold print_current_state.
  unfold mbind at 1, M_bind at 1, get_world. rewrite emit_bind.
  match goal with |- context [color_all_buttons ?w1] =>
    apply (color_all_buttons_outcome w1) end.
  done.
Qed.

(** ** The hotkey router *)

Lemma key_step_with_out f ip w p :
  key_step ip (with_out f w) p = with_out f (key_step ip w p).
Proof.
  unfold key_step, pressed. simpl.
  destruct (ip p.2) as [[|]|]; try done. by destruct (negb _).
Qed.

Lemma foldl_key_step_with_out f ip ps w :
  foldl (key_step ip) (with_out f w) ps = with_out f (foldl (key_step ip) w ps).
Proof.
  revert w. induction ps as [|p ps IH]; intros w; simpl; [done|].
  by rewrite key_step_with_out, IH.
Qed.

Lemma key_step_cls ip w p : cls (key_step ip w p) = cls w.
Proof.
  unfold key_step. destruct (ip p.2) as [[|]|]; try done. by destruct (negb _).
Qed.

Lemma key_step_hotkey_list ip w p :
  hotkey_list (hkm (key_step ip w p)) = hotkey_list (hkm w).
Proof.
  unfold key_step. destruct (ip p.2) as [[|]|]; try done. by destruct (negb _).
Qed.

Lemma key_step_length ip w p :
  length (server_list (key_step ip w p)) = length (server_list w).
Proof.
  unfold key_step. destruct (ip p.2) as [[|]|]; try done.
  destruct (negb _); [|done]. simpl. apply length_alter.
Qed.

Lemma key_step_registered uids ip w p :
  Forall (registered uids) (server_list w) →
  Forall (registered uids) (server_list (key_step ip w p)).
Proof.
  intros H. unfold key_step. destruct (ip p.2) as [[|]|]; try done.
  destruct (negb _); [|done]. simpl. by apply Forall_alter.
Qed.

Lemma key_step_colors_ok ip w p :
  Forall colors_ok (server_list w) →
  Forall colors_ok (server_list (key_step ip w p)).
Proof.
  intros H. unfold key_step. destruct (ip p.2) as [[|]|]; try done.
  destruct (negb _); [|done]. simpl. by apply Forall_alter.
Qed.

Lemma foldl_key_step_colors_ok ip ps :
  ∀ w, Forall colors_ok (server_list w) →
       Forall colors_ok (server_list (foldl (key_step ip) w ps)).
Proof.
  induction ps as [|p ps IH]; intros w H; [done|].
  simpl. by apply IH, key_step_colors_ok.
Qed.

Lemma scan_hotkey_run ip j h w :
  (j < length (server_list w))%nat →
  Forall (registered (uid_dict (cls w))) (server_list w) →
  Forall colors_ok (server_list w) →
  is_Some (ip h) →
  ∃ evs, scan_hotkey ip j h w
         = (Ret tt, with_out (λ o, o ++ evs) (key_step ip w (j, h))).
Proof.
  intros Hj Hreg Hcol [b Hb]. unfold scan_hotkey, key_step, pressed.
  rewrite emit_bind. simpl. rewrite Hb. destruct b.
  - unfold mbind at 1, M_bind at 1, get_world. simpl.
    destruct (negb _).
    + apply lookup_lt_is_Some_2 in Hj as [s Hs].
      unfold mbind at 1, M_bind at 1, toggle_active. simpl. rewrite Hs.
      unfold mbind at 1, M_bind at 1, modify.
      match goal with |- context [print_current_state ?w1] =>
        destruct (print_current_state_run w1) as [evs ->] end.
      { simpl. by apply Forall_alter. }
      { simpl. by apply Forall_alter. }
      exists (Is_pressed h :: evs). destruct w. unfold with_out. simpl.
      by rewrite <- app_assoc.
    + by exists [Is_pressed h].
  - by exists [Is_pressed h].
Qed.

Lemma scan_pairs_run ip ps :
  ∀ w,
    (∀ j h, (j, h) ∈ ps → (j < length (server_list w))%nat ∧ is_Some (ip h)) →
    Forall (registered (uid_dict (cls w))) (server_list w) →
    Forall colors_ok (server_list w) →
    ∃ evs, for_each ps (λ '(j, h), scan_hotkey ip j h) w
           = (Ret tt, with_out (λ o, o ++ evs) (foldl (key_step ip) w ps)).
Proof.
  induction ps as [|[j h] ps IH]; intros w Hps Hreg Hcol.
  - exists []. simpl. by rewrite with_out_nil.
  - destruct (Hps j h) as [Hj Hh]; [by left|].
    destruct (scan_hotkey_run ip j h w Hj Hreg Hcol Hh) as [evs1 H1].
    simpl. erewrite bind_ret by exact H1.
    destruct (IH (with_out (λ o, o ++ evs1) (key_step ip w (j, h)))) as [evs2 H2].
    + intros j' h' Hin. simpl. rewrite key_step_length. apply Hps. by right.
    + simpl. rewrite key_step_cls. by apply key_step_registered.
    + simpl. by apply key_step_colors_ok.
    + rewrite H2. exists (evs1 ++ evs2).
      by rewrite foldl_key_step_with_out, with_out_app.
Qed.

(** Rounds for other channels and other key combinations leave a channel
    and a key combination alone. *)
Lemma foldl_key_step_other_channel ip ps i :
  ∀ w, i ∉ ps.*1 →
    server_list (foldl (key_step ip) w ps) !! i = server_list w !! i.
Proof.
  induction ps as [|[j h] ps IH]; intros w Hi; [done|].
  rewrite fmap_cons in Hi. apply not_elem_of_cons in Hi as [Hne Hi].
  simpl. rewrite IH by done.
  unfold key_step. simpl. destruct (ip h) as [[|]|]; try done.
  destruct (negb _); [|done]. simpl. by apply list_lookup_alter_ne.
Qed.

Lemma foldl_key_step_other_key ip ps h :
  ∀ w, h ∉ ps.*2 →
    currently_pressed (hkm (foldl (key_step ip) w ps)) !! h
    = currently_pressed (hkm w) !! h.
Proof.
  induction ps as [|[j h'] ps IH]; intros w Hh; [done|].
  rewrite fmap_cons in Hh. apply not_elem_of_cons in Hh as [Hne Hh].
  simpl. rewrite IH by done.
  unfold key_step. simpl. destruct (ip h') as [[|]|]; try done.
  - destruct (negb _); [|done]. simpl. by apply lookup_insert_ne.
  - simpl. by apply lookup_insert_ne.
Qed.

(** The round of a channel's own key combination decides what happens to
    the channel. *)
Lemma foldl_key_step_own ip ps i h b :
  ∀ w, NoDup ps.*1 → (∀ j, (j, h) ∈ ps → j = i) → (i, h) ∈ ps → ip h = Some b →
    currently_pressed (hkm (foldl (key_step ip) w ps)) !! h = Some b ∧
    server_list (foldl (key_step ip) w ps) !! i
    = (if b && negb (pressed w h) then toggle else id) <$> server_list w !! i.
Proof.
  induction ps as [|[j h'] ps IH]; intros w Hnd1 Huniq Hin Hb;
    [by apply elem_of_nil in Hin|].
  rewrite fmap_cons in Hnd1.
  apply NoDup_cons in Hnd1 as [Hj Hnd1]. simpl in Hj.
  apply elem_of_cons in Hin as [Heq|Hin].
  - simplify_eq. simpl.
    assert (Hh : h' ∉ ps.*2).
    { intros ([j' h''] & -> & Hin)%list_elem_of_fmap. simpl in *.
      assert (j' = j) as -> by (apply Huniq; by right).
      apply Hj, list_elem_of_fmap. by exists (j, h''). }
    rewrite foldl_key_step_other_channel, foldl_key_step_other_key by done.
    unfold key_step. simpl. rewrite Hb. destruct b; simpl.
    + destruct (pressed w h') eqn:Hp; simpl.
      * split; [|by destruct (server_list w !! j)].
        unfold pressed in Hp.
        by destruct (currently_pressed (hkm w) !! h') as [[|]|].
      * by rewrite lookup_insert_eq, list_lookup_alter_eq.
    + rewrite lookup_insert_eq. split; [done|]. by destruct (server_list w !! j).
  - assert (j ≠ i).
    { intros ->. apply Hj. apply list_elem_of_fmap. by exists (i, h). }
    assert (h' ≠ h).
    { intros ->. by assert (j = i) by (apply Huniq; by left). }
    simpl. destruct (IH (key_step ip w (j, h')) Hnd1) as [-> ->]; [|done|done|].
    { intros j' Hj'. apply Huniq. by right. }
    split; [done|].
    unfold key_step, pressed. simpl. destruct (ip h') as [[|]|]; try done.
    + destruct (negb (default false (currently_pressed (hkm w) !! h'))); [|done].
      simpl. rewrite lookup_insert_ne by done.
      by rewrite list_lookup_alter_ne.
    + simpl. by rewrite lookup_insert_ne.
Qed.

Lemma foldl_key_step_frame ip ps :
  ∀ w,
    cls (foldl (key_step ip) w ps) = cls w ∧
    hotkey_list (hkm (foldl (key_step ip) w ps)) = hotkey_list (hkm w) ∧
    length (server_list (foldl (key_step ip) w ps)) = length (server_list w) ∧
    (∀ uids, Forall (registered uids) (server_list w) →
             Forall (registered uids) (server_list (foldl (key_step ip) w ps))).
Proof.
  induction ps as [|p ps IH]; intros w; simpl; [done|].
  destruct (IH (key_step ip w p)) as (-> & -> & -> & Hreg).
  rewrite key_step_cls, key_step_hotkey_list, key_step_length.
  repeat split. intros uids H. by apply Hreg, key_step_registered.
Qed.

Lemma enumerate_fst {A} (l : list A) : (imap pair l).*1 = seq 0 (length l).
Proof.
  rewrite fmap_imap.
  rewrite (imap_ext _ (λ j _, id j)) by done.
  by rewrite imap_seq_0, list_fmap_id.
Qed.

Lemma enumerate_snd {A} (l : list A) : (imap pair l).*2 = l.
Proof.
  rewrite fmap_imap.
  rewrite (imap_ext _ (const id)) by done.
  by rewrite imap_const, list_fmap_id.
Qed.

(** One iteration of the scan loop, seen from the channel at index [i] and
    its key combination [h]. *)
Lemma scan_tick_run ip w i h b :
  hotkeys_ok w →
  Forall colors_ok (server_list w) →
  answers ip (hotkey_list (hkm w)) →
  bound_only_to (hotkey_list (hkm w)) h i →
  ip h = Some b →
  ∃ w', scan_tick ip w = (Ret tt, w') ∧
        (hotkeys_ok w' ∧ Forall colors_ok (server_list w')) ∧
        hotkey_list (hkm w') = hotkey_list (hkm w) ∧
        currently_pressed (hkm w') !! h = Some b ∧
        server_list w' !! i
        = (if b && negb (pressed w h) then toggle else id) <$> server_list w !! i.
Proof.
  intros [Hlen Hreg] Hcol Hans [Hi Huniq] Hb. unfold scan_tick.
  unfold mbind, M_bind, get_world.
  set (ps := imap pair (hotkey_list (hkm w))).
  destruct (scan_pairs_run ip ps w) as [evs Hrun]; [|done|done|].
  { intros j h' (j' & h'' & [= -> ->] & Hj)%elem_of_lookup_imap. split.
    - apply lookup_lt_Some in Hj. lia.
    - apply Hans. by eapply list_elem_of_lookup_2. }
  rewrite Hrun. eexists. split; [done|].
  destruct (foldl_key_step_frame ip ps w) as (Hcls & Hhk & Hl & Hr).
  destruct (foldl_key_step_own ip ps i h b w) as [Hcp Hsl]; [| | |done|].
  { subst ps. rewrite enumerate_fst. apply NoDup_seq. }
  { subst ps. intros j (j' & h' & [= -> ->] & Hj)%elem_of_lookup_imap.
    by apply Huniq. }
  { subst ps. by apply (elem_of_lookup_imap_2 pair). }
  simpl. split; [|done].
  split; [|by apply foldl_key_step_colors_ok].
  split; simpl.
  - by rewrite Hhk, Hl.
  - rewrite Hcls. by apply Hr.
Qed.

Lemma scan_loop_cons ip polls w :
  scan_loop (ip :: polls) w = (scan_tick ip ;; scan_loop polls) w.
Proof. done. Qed.

(** While the key checker keeps reporting a combination that is already
    marked as pressed, its channel is left alone. *)
Lemma scan_loop_held i h polls :
  ∀ w,
    hotkeys_ok w →
    Forall colors_ok (server_list w) →
    bound_only_to (hotkey_list (hkm w)) h i →
    Forall (λ ip, answers ip (hotkey_list (hkm w)) ∧ ip h = Some true) polls →
    currently_pressed (hkm w) !! h = Some true →
    ∃ w', scan_loop polls w = (Ret tt, w') ∧
          (hotkeys_ok w' ∧ Forall colors_ok (server_list w')) ∧
          hotkey_list (hkm w') = hotkey_list (hkm w) ∧
          currently_pressed (hkm w') !! h = Some true ∧
          server_list w' !! i = server_list w !! i.
Proof.
  induction polls as [|ip polls IH]; intros w Hok Hcol Hi Hpolls Hcp.
  - by exists w.
  - apply Forall_cons in Hpolls as [[Hans Hb] Hpolls].
    destruct (scan_tick_run ip w i h true Hok Hcol Hans Hi Hb)
      as (w1 & Hrun & [Hok1 Hcol1] & Hhk1 & Hcp1 & Hsl1).
    rewrite scan_loop_cons. erewrite bind_ret by exact Hrun.
    destruct (IH w1) as (w' & Hrun' & Hok' & Hhk' & Hcp' & Hsl');
      [done|done|by rewrite Hhk1|by rewrite Hhk1|done|].
    exists w'. split; [done|]. split; [done|]. split; [congruence|].
    split; [done|]. rewrite Hsl', Hsl1.
    unfold pressed. rewrite Hcp. simpl. by destruct (server_list w !! i).
Qed.

(** ** Start-up of the position router *)

Lemma truediv_zero n : n ≠ 0 → ∃ q, truediv 0 n = Ret q ∧ Qeq_bool q (inject_Z 0) = true.
Proof.
  intros Hn. unfold truediv. rewrite decide_False by done.
  eexists. split; [done|].
  apply Qeq_bool_iff. unfold Qdiv. apply Qmult_0_l.
Qed.

(** A lower threshold above the upper one fails the assertion, before
    anything is printed or connected. *)
Lemma start_LinearPoti_inverted settings position w :
  let poti := Tinkerforge_Settings.linear_poti settings in
  Linear_Poti.uid poti ≠ None →
  Linear_Poti.upper_threshold poti < Linear_Poti.lower_threshold poti →
  start_LinearPoti settings position w
  = (Raise AssertionError, with_cls (set_poti poti) w).
Proof.
  intros poti Huid Hlt. subst poti. unfold start_LinearPoti. run.
  rewrite bool_decide_true by done. simpl.
  by rewrite bool_decide_false by lia.
Qed.

(** Equal thresholds pass the assertion: the steps are printed, the
    connection is opened, and the first sample divides by a zero width. *)
Lemma start_LinearPoti_equal settings position w :
  let poti := Tinkerforge_Settings.linear_poti settings in
  Linear_Poti.uid poti ≠ None →
  Linear_Poti.upper_threshold poti = Linear_Poti.lower_threshold poti →
  server_list w ≠ [] →
  Z.abs (position - old_position (cls w)) > 2 →
  ∃ steps,
    start_LinearPoti settings position w
    = (Raise ZeroDivisionError,
       with_out (λ o, o ++ [steps; Connect; Disconnect])
         (with_cls (set_poti poti) w)).
Proof.
  intros poti Huid Heq Hne Hd. subst poti. unfold start_LinearPoti.
  unfold mbind at 1, M_bind at 1, modify.
  unfold mbind at 1, M_bind at 1, get_world.
  set (w1 := with_cls (set_poti (Tinkerforge_Settings.linear_poti settings)) w).
  assert (Hu : upper_threshold (cls w1) - lower_threshold (cls w1) = 0)
    by (simpl; lia).
  rewrite Hu.
  destruct (truediv_zero (Z.of_nat (length (server_list w1)))) as (q & Hq & Hq0).
  { simpl. destruct (server_list w); [done|]. simpl. lia. }
  rewrite Hq. unfold py_assert.
  rewrite !bool_decide_true by first [exact Huid | simpl; lia].
  unfold print_steps, try_finally. run.
  rewrite cb_position_zero_width; [|done|done].
  eexists. by rewrite !with_out_app.
Qed.

(** The section width is a float: with thresholds 5 and 95 and seven
    channels it is the float nearest to 90/7, slightly above it, so that a
    slider at the upper threshold lies in section 6 and not in section 7:
    start-up returns with one channel active. *)
Example start_LinearPoti_seven_channels :
  let servers := (λ i, channel (Z.of_nat i) false "a") <$> seq 0 7 in
  let settings := Tinkerforge_Settings.mk (Linear_Poti.mk (Some "poti") 95 5) in
  let r := start_LinearPoti settings 95 (world0 servers []) in
  truediv (95 - 5) 7 = Ret (Qmake 3618963986279863 281474976710656) ∧
  r.1 = Ret tt ∧
  old_section (cls r.2) = 6 ∧
  active <$> server_list r.2 = [false; false; false; false; false; true; false].
Proof. vm_compute. done. Qed.

(** * The claims *)

(** ** Position router *)

(** C1 (the code departs from the claim). With thresholds 5 and 95 and
    three channels, position 50 lies in section 1. [cb_position] takes the
    single-section branch, announces the channel at index 1 (remote index
    11) and activates the channel at index 0: the channel whose index
    matches the section stays inactive. *)
Theorem cb_position_section_1_activates_channel_0 :
  let w := world0 three_channels [] in
  let r := cb_position 50 width_5_95_3 w in
  floordiv (50 - lower_threshold (cls w)) width_5_95_3 = Ret 1 ∧
  r.1 = Ret tt ∧
  active <$> server_list r.2 = [true; false; false] ∧
  out r.2 = [Printed_gamepad 11] ∧
  old_section (cls r.2) = 1.
Proof. vm_compute. done. Qed.

(** C2 (the code departs from the claim). Whatever the sample and the
    state, [cb_position] calls neither [print_current_state] nor
    [color_all_buttons]: all it sends out is at most one of its three
    console messages, never a [set_color]. At position 95 the two channels
    of a shared button go from inactive to active and the button is not
    recoloured, whereas [print_current_state] in the state reached would
    push the new colour. *)
Theorem cb_position_skips_reflector :
  (∀ position section_width w,
     ∃ evs, out (cb_position position section_width w).2 = out w ++ evs ∧
            Forall (λ e, console_message e = true) evs) ∧
  let w := with_cls (set_uid_dict [("a", mkBricklet "a")])
             (world0 [channel 0 false "a"; channel 1 false "a"] []) in
  let r := cb_position 95 (Qdiv (inject_Z (95 - 5)) (inject_Z 2)) w in
  r.1 = Ret tt ∧
  active <$> server_list r.2 = [true; true] ∧
  out r.2 = [Printed_all_gamepads] ∧
  out (print_current_state r.2).2 =
    [Printed_all_gamepads; Printed_state [(0, true); (1, true)];
     Set_color (mkBricklet "a") [30; 30; 30]].
Proof.
  split; [apply cb_position_events|]. vm_compute. done.
Qed.

(** C6 (the code departs from the claim). [start_LinearPoti] asserts
    [upper_threshold >= lower_threshold], so equal thresholds pass the
    check: the steps are printed with a section width of zero, the
    connection is opened, and the first [cb_position] call then raises
    [ZeroDivisionError]. Only a lower threshold strictly above the upper
    one is rejected by the assertion, before anything else happens. *)
Theorem start_LinearPoti_accepts_equal_thresholds :
  let w := world0 three_channels [] in
  let settings lower upper :=
    Tinkerforge_Settings.mk (Linear_Poti.mk (Some "poti") upper lower) in
  let equal := start_LinearPoti (settings 50 50) 50 w in
  let inverted := start_LinearPoti (settings 50 40) 50 w in
  equal.1 = Raise ZeroDivisionError ∧
  out equal.2 =
    [Printed_steps 50 [(50, 50, 10); (50, 50, 11); (50, 50, 12)] 50;
     Connect; Disconnect] ∧
  inverted.1 = Raise AssertionError ∧
  out inverted.2 = [].
Proof. vm_compute. done. Qed.

(** C8. Thresholds 5 and 95, three channels, section width 30. A sample
    is processed when it is more than two units away from the last
    processed position and its section is not the one applied last; the
    call then returns and records the sample as the last processed
    position. A processed sample at position 0 leaves every channel
    inactive, one at position 95 leaves every channel active, one at
    position 50 leaves exactly one channel active (the first one). Once a
    sample has been processed, a sample one unit away from it changes
    nothing at all: the second call returns the world the first one left,
    whatever the other routers did to the flags in between (debounce over
    two calls). The same holds for a sample one unit away from the
    position the world already records. *)
Theorem cb_position_three_channels (w : World) :
  lower_threshold (cls w) = 5 →
  length (server_list w) = 3%nat →
  let run position := cb_position position width_5_95_3 w in
  let processed position section :=
    Z.abs (position - old_position (cls w)) > 2 ∧ old_section (cls w) ≠ section in
  let recorded position section :=
    (run position).1 = Ret tt ∧
    old_position (cls (run position).2) = position ∧
    old_section (cls (run position).2) = section in
  (processed 0 (-1) →
     recorded 0 (-1) ∧
     active <$> server_list (run 0).2 = [false; false; false]) ∧
  (processed 95 3 →
     recorded 95 3 ∧
     active <$> server_list (run 95).2 = [true; true; true]) ∧
  (processed 50 1 →
     recorded 50 1 ∧
     active <$> server_list (run 50).2 = [true; false; false]) ∧
  (∀ position section,
     floordiv (position - 5) width_5_95_3 = Ret section →
     processed position section →
     recorded position section ∧
     ∀ next flags,
       Z.abs (next - position) = 1 →
       let w' := with_server_list flags (run position).2 in
       cb_position next width_5_95_3 w' = (Ret tt, w')) ∧
  (∀ position, Z.abs (position - old_position (cls w)) = 1 →
     cb_position position width_5_95_3 w = (Ret tt, w)).
Proof.
  intros Hlow Hlen run processed recorded. subst run processed recorded. simpl.
  assert (Hrec : ∀ position section,
            floordiv (position - 5) width_5_95_3 = Ret section →
            Z.abs (position - old_position (cls w)) > 2 ∧
            old_section (cls w) ≠ section →
            cb_position position width_5_95_3 w =
              (Ret tt,
               with_cls (set_old section position)
                 (with_out (λ o, o ++ [section_message section (server_list w)])
                    (with_server_list (section_flags section) w)))).
  { intros position section Hs [Hd Hne].
    apply cb_position_processed; [done|by rewrite Hlow|done]. }
  split; [|split; [|split; [|split]]].
  - intros Hp. rewrite (Hrec 0 (-1) eq_refl Hp). simpl.
    split; [done|]. unfold section_flags. rewrite decide_True by lia.
    by rewrite active_set_all, Hlen.
  - intros Hp. rewrite (Hrec 95 3 eq_refl Hp). simpl.
    split; [done|]. unfold section_flags. rewrite decide_False by lia.
    rewrite decide_True by lia. by rewrite active_set_all, Hlen.
  - intros Hp. rewrite (Hrec 50 1 eq_refl Hp). simpl.
    split; [done|]. destruct (server_list w) as [|a [|b [|c [|]]]]; done.
  - intros position section Hs Hp. rewrite (Hrec position section Hs Hp). simpl.
    split; [done|]. intros next flags Hnext.
    apply cb_position_debounced. simpl. lia.
  - intros position Hd. apply cb_position_debounced. lia.
Qed.

Lemma cb_position_three_channels_witness :
  let w := world0 three_channels [] in
  let w50 := (cb_position 50 width_5_95_3 w).2 in
  active <$> server_list (cb_position 0 width_5_95_3 w).2 = [false; false; false] ∧
  active <$> server_list (cb_position 95 width_5_95_3 w).2 = [true; true; true] ∧
  active <$> server_list w50 = [true; false; false] ∧
  old_position (cls w50) = 50 ∧
  cb_position 51 width_5_95_3 w50 = (Ret tt, w50) ∧
  cb_position 49 width_5_95_3 (with_server_list (alter toggle 2%nat) w50)
  = (Ret tt, with_server_list (alter toggle 2%nat) w50) ∧
  cb_position (-99) width_5_95_3 w = (Ret tt, w).
Proof.
  intros w w50. subst w50.
  destruct (cb_position_three_channels w) as (H0 & H95 & H50 & Hany & Hd);
    [reflexivity | reflexivity |].
  assert (Hp : ∀ position section,
            Z.abs (position - -100) > 2 → -100 ≠ section →
            Z.abs (position - old_position (cls w)) > 2 ∧ old_section (cls w) ≠ section)
    by (intros; by split).
  destruct (Hany 50 1 eq_refl (Hp 50 1 eq_refl ltac:(discriminate))) as [Hrec Hnext].
  split; [apply H0, Hp; [reflexivity | discriminate]|].
  split; [apply H95, Hp; [reflexivity | discriminate]|].
  split; [apply H50, Hp; [reflexivity | discriminate]|].
  split; [apply Hrec|].
  split; [exact (Hnext 51 id eq_refl)|].
  split; [exact (Hnext 49 (alter toggle 2%nat) eq_refl)|].
  apply Hd. reflexivity.
Defined.

(** ** Button router *)

(** C3, as stated, fails: with no group state recorded for button "a" and
    channel 0 (active) bound to it, the first release edge records "off" and
    deactivates the channel. *)
Lemma cb_button_first_release_counterexample :
  let w := one_button_world [channel 0 true "a"] [0] in
  let w' := (cb_button true "a" w).2 in
  button_state_dict (cls w) !! "a" = None ∧
  button_state_dict (cls w') !! "a" ≠ Some true ∧
  active <$> server_list w' = [false].
Proof. vm_compute. done. Qed.

(** C3, amended. For a button identity with no group state recorded, the
    first release edge sets the group state to "off" and deactivates every
    channel bound to the identity (the bound indices being valid). *)
Theorem cb_button_first_release_turns_off u idxs w :
  button_state_dict (cls w) !! u = None →
  index_dict (cls w) !! u = Some idxs →
  Forall (valid_index (server_list w)) idxs →
  let w' := (cb_button true u w).2 in
  button_state_dict (cls w') !! u = Some false ∧
  ∀ i n, i ∈ idxs → list_index (server_list w) i = Some n →
    active <$> server_list w' !! n = Some false.
Proof.
  intros Hnone Hidx Hall w'.
  destruct (cb_button_released_world u idxs w Hidx Hall) as (Hcls & Hsl & _).
  fold w' in Hcls, Hsl. rewrite Hnone in Hcls, Hsl. simpl in Hcls, Hsl.
  split.
  - rewrite Hcls. simpl. apply lookup_insert_eq.
  - intros i n Hi Hn. rewrite Hsl, flags_after_lookup.
    rewrite decide_True by (apply Exists_exists; eauto).
    apply list_index_lt, lookup_lt_is_Some in Hn as [s ->]. done.
Qed.

Lemma cb_button_first_release_turns_off_witness :
  let w := one_button_world [channel 0 true "a"; channel 1 false "a"] [0; 1] in
  let w' := (cb_button true "a" w).2 in
  button_state_dict (cls w') !! "a" = Some false ∧
  ∀ i n, i ∈ [0; 1] → list_index (server_list w) i = Some n →
    active <$> server_list w' !! n = Some false.
Proof.
  intros w.
  apply (cb_button_first_release_turns_off "a" [0; 1] w).
  - reflexivity.
  - reflexivity.
  - repeat constructor; by eexists.
Defined.

(** C4, as stated, fails: with index 5 bound to button "a" and a single
    channel, the release edge meets an out-of-range index and the handler
    returns normally. *)
Lemma cb_button_out_of_range_counterexample :
  let w := one_button_world [channel 0 false "a"] [5] in
  list_index (server_list w) 5 = None ∧
  (cb_button true "a" w).1 = Ret tt ∧
  (cb_button true "a" w).1 ≠ Raise IndexError.
Proof. vm_compute. done. Qed.

(** C4, amended. When the index list of a button identity holds an
    out-of-range index, the press handler catches the [IndexError] and
    returns normally: the group state has been flipped, the channels bound
    before the offending index have received the new value, the later ones
    have not been touched and the indicator reflector has not run. *)
Theorem cb_button_swallows_index_error u pre bad post w :
  index_dict (cls w) !! u = Some (pre ++ bad :: post) →
  Forall (valid_index (server_list w)) pre →
  list_index (server_list w) bad = None →
  let v := negb (default true (button_state_dict (cls w) !! u)) in
  let r := cb_button true u w in
  r.1 = Ret tt ∧
  button_state_dict (cls r.2) !! u = Some v ∧
  server_list r.2 = flags_after v pre (server_list w) ∧
  out r.2 = out w.
Proof.
  intros Hidx Hpre Hbad v r. subst r.
  rewrite (cb_button_out_of_range u pre bad post w Hidx Hpre Hbad). simpl.
  repeat split. apply lookup_insert_eq.
Qed.

Lemma cb_button_swallows_index_error_witness :
  let w := one_button_world [channel 0 false "a"; channel 1 true "a"] [0; 7; 1] in
  let r := cb_button true "a" w in
  r.1 = Ret tt ∧
  button_state_dict (cls r.2) !! "a" = Some false ∧
  server_list r.2 = flags_after false [0] (server_list w) ∧
  out r.2 = out w.
Proof.
  intros w.
  apply (cb_button_swallows_index_error "a" [0] 7 [1] w).
  - reflexivity.
  - repeat constructor; by eexists.
  - reflexivity.
Defined.

(** C7. One button identity bound to channels 0 and 1: a release edge flips
    the group state (an unset state counting as "on") and gives the new
    value to both channels, whatever their flags were; the next release edge
    gives both the opposite value; the other channels are not touched; an
    event without a release edge changes nothing. *)
Theorem cb_button_pair_moves_together u w :
  index_dict (cls w) !! u = Some [0; 1] →
  (2 ≤ length (server_list w))%nat →
  let v := negb (default true (button_state_dict (cls w) !! u)) in
  let w1 := (cb_button true u w).2 in
  let w2 := (cb_button true u w1).2 in
  let pair w' :=
    (active <$> server_list w' !! 0%nat, active <$> server_list w' !! 1%nat) in
  button_state_dict (cls w1) !! u = Some v ∧
  pair w1 = (Some v, Some v) ∧
  button_state_dict (cls w2) !! u = Some (negb v) ∧
  pair w2 = (Some (negb v), Some (negb v)) ∧
  (∀ j, (2 ≤ j)%nat →
     server_list w1 !! j = server_list w !! j ∧
     server_list w2 !! j = server_list w !! j) ∧
  cb_button false u w = (Ret tt, w).
Proof.
  intros Hidx Hlen v w1 w2 pair.
  assert (Hvalid : ∀ l : list InputServerData,
             (2 ≤ length l)%nat → Forall (valid_index l) [0; 1]).
  { intros l Hl. repeat constructor; unfold valid_index;
      rewrite list_index_nonneg by lia; by eexists. }
  assert (Hflags : ∀ b (l : list InputServerData), (2 ≤ length l)%nat →
             active <$> flags_after b [0; 1] l !! 0%nat = Some b ∧
             active <$> flags_after b [0; 1] l !! 1%nat = Some b ∧
             ∀ j, (2 ≤ j)%nat → flags_after b [0; 1] l !! j = l !! j).
  { intros b l Hl. rewrite !flags_after_lookup. repeat split.
    - rewrite decide_True by (left; by apply list_index_nonneg; lia).
      destruct (lookup_lt_is_Some_2 l 0%nat) as [s ->]; [lia|done].
    - rewrite decide_True by (right; left; by apply list_index_nonneg; lia).
      destruct (lookup_lt_is_Some_2 l 1%nat) as [s ->]; [lia|done].
    - intros j Hj. rewrite flags_after_lookup. rewrite decide_False; [done|].
      rewrite !Exists_cons, Exists_nil.
      rewrite !list_index_nonneg by lia.
      intros [?|[?|[]]]; simplify_eq; lia. }
  destruct (cb_button_released_world u [0; 1] w Hidx (Hvalid _ Hlen))
    as (Hcls1 & Hsl1 & _).
  fold v in Hcls1, Hsl1. fold w1 in Hcls1, Hsl1.
  assert (Hidx1 : index_dict (cls w1) !! u = Some [0; 1]) by (by rewrite Hcls1).
  assert (Hlen1 : (2 ≤ length (server_list w1))%nat)
    by (by rewrite Hsl1, flags_after_length).
  assert (Hst1 : button_state_dict (cls w1) !! u = Some v)
    by (rewrite Hcls1; apply lookup_insert_eq).
  destruct (cb_button_released_world u [0; 1] w1 Hidx1 (Hvalid _ Hlen1))
    as (Hcls2 & Hsl2 & _).
  fold w2 in Hcls2, Hsl2. rewrite Hst1 in Hcls2, Hsl2. simpl in Hcls2, Hsl2.
  destruct (Hflags v _ Hlen) as (H0 & H1 & Hrest).
  destruct (Hflags (negb v) _ Hlen1) as (H0' & H1' & Hrest').
  rewrite <- Hsl1 in H0, H1, Hrest. rewrite <- Hsl2 in H0', H1', Hrest'.
  clearbody w2 w1. subst pair. simpl.
  rewrite H0, H1, H0', H1'.
  split; [done|]. split; [done|]. split; [rewrite Hcls2; apply lookup_insert_eq|].
  split; [done|]. split; [|done].
  intros j Hj. by rewrite Hrest', Hrest.
Qed.

Lemma cb_button_pair_moves_together_witness :
  let w := one_button_world
             [channel 0 true "a"; channel 1 false "a"; channel 2 true "b"] [0; 1] in
  let w1 := (cb_button true "a" w).2 in
  let w2 := (cb_button true "a" w1).2 in
  active <$> server_list w1 = [false; false; true] ∧
  active <$> server_list w2 = [true; true; true] ∧
  cb_button false "a" w = (Ret tt, w).
Proof.
  intros w w1 w2.
  pose proof (cb_button_pair_moves_together "a" w eq_refl) as H.
  split; [|split]; [reflexivity | reflexivity |].
  apply H. simpl. lia.
Defined.

(** ** Indicator reflector *)

(** C9. With every channel's button registered and every colour made of
    three components, one invocation of the reflector returns normally and
    sends exactly one [set_color] per indicator identity that has a channel
    bound to it, carrying the component-wise, unclamped sum of the on-colours
    of its active channels and the off-colours of its inactive ones (the
    two-channel case with (15,15,15) and (1,1,1) giving (16,16,16) is the
    witness below). *)
Theorem color_all_buttons_pushes_mixed_colors w :
  Forall colors_ok (server_list w) →
  Forall (registered (uid_dict (cls w))) (server_list w) →
  ∃ pushes : list (string * BrickletRGBLEDButton),
    color_all_buttons w
    = (Ret tt,
       with_out (λ o, o ++
         ((λ p, Set_color p.2 (spec_indicator_color p.1 (server_list w))) <$> pushes))
         w) ∧
    NoDup pushes.*1 ∧
    (∀ u, u ∈ pushes.*1 ↔ u ∈ server_uid <$> server_list w) ∧
    (∀ u b, (u, b) ∈ pushes → OrderedDict.get (uid_dict (cls w)) u = Some b).
Proof.
  intros Hok Hreg.
  destruct (color_all_buttons_run w Hreg Hok) as (cd & bd & Hinv & Hrun).
  exists bd. split; [|split; [|split]].
  - rewrite Hrun.
    assert (push_event cd <$> bd
            = (λ p, Set_color p.2 (spec_indicator_color p.1 (server_list w))) <$> bd)
      as ->; [|done].
    apply list_fmap_ext. intros i [u b] Hin. unfold push_event. simpl.
    f_equal. rewrite <- (inv_colors_val _ _ _ _ Hinv Hok u).
    apply list_elem_of_lookup_2 in Hin.
    assert (Hd : is_Some (cd !! u)).
    { apply (inv_colors_dom _ _ _ _ Hinv), (inv_buttons_dom _ _ _ _ Hinv).
      unfold OrderedDict.keys. apply list_elem_of_fmap. by exists (u, b). }
    by destruct Hd as [c ->].
  - apply (inv_buttons_nodup _ _ _ _ Hinv).
  - apply (inv_buttons_dom _ _ _ _ Hinv).
  - apply (inv_buttons_val _ _ _ _ Hinv).
Qed.

Lemma color_all_buttons_pushes_mixed_colors_witness :
  let w := one_button_world [channel 0 true "a"; channel 1 false "a"] [0; 1] in
  (∃ pushes : list (string * BrickletRGBLEDButton),
     color_all_buttons w
     = (Ret tt,
        with_out (λ o, o ++
          ((λ p, Set_color p.2 (spec_indicator_color p.1 (server_list w))) <$> pushes))
          w) ∧
     NoDup pushes.*1 ∧
     (∀ u, u ∈ pushes.*1 ↔ u ∈ server_uid <$> server_list w) ∧
     (∀ u b, (u, b) ∈ pushes → OrderedDict.get (uid_dict (cls w)) u = Some b)) ∧
  spec_indicator_color "a" (server_list w) = [16; 16; 16] ∧
  out (color_all_buttons w).2 = [Set_color (mkBricklet "a") [16; 16; 16]].
Proof.
  intros w. split; [|split; reflexivity].
  apply (color_all_buttons_pushes_mixed_colors w).
  - repeat constructor.
  - repeat constructor; by eexists.
Defined.

(** ** Hotkey router *)

(** C5 (the code departs from the claim). [verify_hotkeys] skips an empty
    hotkey string, [scan_loop] does not: with a single channel whose hotkey
    is empty, every iteration asks the key checker about the empty string.
    When the checker reports it pressed the channel is toggled; when the
    checker raises, the loop ends with that exception. *)
Theorem scan_loop_queries_empty_hotkey :
  let w := with_cls (set_uid_dict [("a", mkBricklet "a")])
             (world0 [channel 0 false "a"] [""]) in
  let verified := verify_hotkeys (λ _, false) w in
  let reported := scan_loop [λ _, Some true] w in
  let failed := scan_loop [λ _, None] w in
  verified = (Ret tt, w) ∧
  reported.1 = Ret tt ∧
  out reported.2 =
    [Is_pressed ""; Printed_state [(0, true)];
     Set_color (mkBricklet "a") [15; 15; 15]] ∧
  active <$> server_list reported.2 = [true] ∧
  failed.1 = Raise ValueError ∧
  out failed.2 = [Is_pressed ""].
Proof. vm_compute. done. Qed.

(** C10. A key combination configured for channel [i] and for no other
    channel, every button registered with colours of three components (so
    that the reflector, which runs at every toggle, returns), and a key
    checker that answers for all configured combinations: however many
    consecutive polls (at least one) report the combination as pressed, the
    scan loop returns from all of them and the channel's flag is flipped
    exactly once if the combination was not marked as pressed before, and
    not at all if it was; afterwards it is marked as pressed. A later poll
    that reports it released leaves the flag alone and clears the mark,
    which re-arms the toggle. *)
Theorem scan_loop_hold_toggles_once w i h s ip polls :
  hotkeys_ok w →
  Forall colors_ok (server_list w) →
  bound_only_to (hotkey_list (hkm w)) h i →
  server_list w !! i = Some s →
  Forall (λ ip, answers ip (hotkey_list (hkm w)) ∧ ip h = Some true) (ip :: polls) →
  let r := scan_loop (ip :: polls) w in
  r.1 = Ret tt ∧
  currently_pressed (hkm r.2) !! h = Some true ∧
  active <$> server_list r.2 !! i
  = Some (if pressed w h then active s else negb (active s)) ∧
  ∀ released,
    answers released (hotkey_list (hkm w)) → released h = Some false →
    let r' := scan_tick released r.2 in
    r'.1 = Ret tt ∧
    currently_pressed (hkm r'.2) !! h = Some false ∧
    server_list r'.2 !! i = server_list r.2 !! i.
Proof.
  intros Hok Hcol Hi Hs Hpolls r.
  apply Forall_cons in Hpolls as [[Hans Hb] Hpolls].
  destruct (scan_tick_run ip w i h true Hok Hcol Hans Hi Hb)
    as (w1 & Hrun & [Hok1 Hcol1] & Hhk1 & Hcp1 & Hsl1).
  destruct (scan_loop_held i h polls w1)
    as (w2 & Hrun2 & [Hok2 Hcol2] & Hhk2 & Hcp2 & Hsl2);
    [done|done|by rewrite Hhk1|by rewrite Hhk1|done|].
  assert (Hr : r = (Ret tt, w2)).
  { subst r. rewrite scan_loop_cons. by erewrite bind_ret by exact Hrun. }
  rewrite Hr. simpl. split; [done|]. split; [done|]. split.
  - rewrite Hsl2, Hsl1, Hs. simpl. by destruct (pressed w h).
  - intros released Hrel Hfalse.
    destruct (scan_tick_run released w2 i h false Hok2 Hcol2)
      as (w3 & -> & _ & _ & Hcp3 & Hsl3);
      [by rewrite Hhk2, Hhk1|by rewrite Hhk2, Hhk1|done|].
    simpl. split; [done|]. split; [done|].
    rewrite Hsl3. simpl. by destruct (server_list w2 !! i).
Qed.

Lemma scan_loop_hold_toggles_once_witness :
  let w := with_cls (set_uid_dict [("a", mkBricklet "a")])
             (world0 [channel 0 false "a"; channel 1 false "a"; channel 2 false "a"]
                     ["f1"; "f2"; "f1"]) in
  let held h := Some (bool_decide (h = "f2")) in
  let r := scan_loop [held; held; held] w in
  r.1 = Ret tt ∧
  currently_pressed (hkm r.2) !! "f2" = Some true ∧
  active <$> server_list r.2 !! 1%nat = Some true ∧
  active <$> server_list r.2 = [false; true; false].
Proof.
  intros w held r.
  assert (Hok : hotkeys_ok w).
  { split.
    - simpl. lia.
    - repeat constructor; by eexists. }
  assert (Hbound : bound_only_to (hotkey_list (hkm w)) "f2" 1).
  { split; [reflexivity|].
    intros [|[|[|j]]] Hj; simpl in Hj; [discriminate|reflexivity|discriminate|discriminate]. }
  assert (Hcol : Forall colors_ok (server_list w)) by repeat constructor.
  assert (Hpolls : Forall (λ ip, answers ip (hotkey_list (hkm w)) ∧ ip "f2" = Some true)
                     [held; held; held]).
  { repeat constructor; intros h _; by eexists. }
  destruct (scan_loop_hold_toggles_once w 1 "f2" (channel 1 false "a") held
              [held; held] Hok Hcol Hbound eq_refl Hpolls) as (H1 & H2 & H3 & _).
  split; [exact H1|]. split; [exact H2|]. split; [exact H3|]. reflexivity.
Defined.

(** * Further properties *)

(** ** Indicator reflector: failure and repetition *)

Lemma color_loop_unregistered uids servers :
  ∀ cd bd,
    Exists (λ s, ¬ registered uids s) servers →
    color_loop uids servers cd bd = Raise KeyError.
Proof.
  induction servers as [|s rest IH]; intros cd bd Hex; [by apply Exists_nil in Hex|].
  simpl. fold (server_uid s).
  destruct (OrderedDict.get uids (server_uid s)) as [b|] eqn:Hb; [|done].
  apply Exists_cons in Hex as [Hs|Hrest]; [|by apply IH].
  exfalso. apply Hs. by exists b.
Qed.

(** X1. When the button of some channel has no device object in
    [uid_dict], the reflector raises [KeyError] and sends no colour at all,
    not even to the buttons that are registered. *)
Theorem color_all_buttons_unregistered w :
  Exists (λ s, ¬ registered (uid_dict (cls w)) s) (server_list w) →
  color_all_buttons w = (Raise KeyError, w).
Proof.
  intros Hex. unfold color_all_buttons.
  by rewrite color_loop_unregistered.
Qed.

Lemma color_all_buttons_unregistered_witness :
  let w := one_button_world [channel 0 true "a"; channel 1 true "b"] [0] in
  color_all_buttons w = (Raise KeyError, w).
Proof.
  intros w. apply (color_all_buttons_unregistered w).
  right. left. by intros [b Hb].
Defined.

Lemma push_loop_uniform (color_dict : gmap string (list Z))
    (button_dict : OrderedDict.t BrickletRGBLEDButton) :
  ∃ o evs, ∀ w,
    for_each button_dict (λ '(u, button),
      match color_dict !! u with
      | Some c => set_color button c
      | None => raise KeyError
      end) w
    = (o, with_out (λ o, o ++ evs) w).
Proof.
  induction button_dict as [|[u b] bd (o & evs & IH)].
  - exists (Ret tt), []. intros w. simpl. by rewrite with_out_nil.
  - destruct (color_dict !! u) as [c|] eqn:Hc.
    + destruct (decide (length c = 3%nat)) as [Hlen|Hlen].
      * exists o, (Set_color b c :: evs). intros w. simpl. rewrite Hc.
        erewrite bind_ret by (by apply set_color_three).
        by rewrite IH, with_out_app.
      * exists (Raise TypeError), []. intros w. simpl. rewrite Hc.
        erewrite bind_raise by (by apply set_color_wrong).
        by rewrite with_out_nil.
    + exists (Raise KeyError), []. intros w. simpl.
      by rewrite Hc, raise_bind, with_out_nil.
Qed.

(** What the reflector does is decided by [uid_dict] and the registry
    alone. *)
Lemma color_all_buttons_uniform uids servers :
  ∃ o evs, ∀ w,
    uid_dict (cls w) = uids → server_list w = servers →
    color_all_buttons w = (o, with_out (λ o, o ++ evs) w).
Proof.
  destruct (color_loop uids servers ∅ []) as [[cd bd]|e] eqn:E.
  - destruct (push_loop_uniform cd bd) as (o & evs & H).
    exists o, evs. intros w <- <-. unfold color_all_buttons. by rewrite E.
  - exists (Raise e), []. intros w <- <-. unfold color_all_buttons.
    by rewrite E, with_out_nil.
Qed.

(** X2. Invoking the reflector twice in a row gives the same outcome and
    sends the same colours both times; neither call changes anything but
    the output trace. *)
Theorem color_all_buttons_twice w :
  let r1 := color_all_buttons w in
  let r2 := color_all_buttons r1.2 in
  ∃ evs,
    r1.2 = with_out (λ o, o ++ evs) w ∧
    r2 = (r1.1, with_out (λ o, o ++ evs) r1.2).
Proof.
  intros r1 r2.
  destruct (color_all_buttons_uniform (uid_dict (cls w)) (server_list w))
    as (o & evs & H).
  exists evs. subst r2 r1. rewrite (H w) by done. simpl.
  by rewrite (H (with_out _ w)).
Qed.

(** ** What the routers leave alone *)

Lemma static_view_alter (f : InputServerData → InputServerData) n l :
  (∀ s, index (f s) = index s ∧ rgb_button (f s) = rgb_button s) →
  static_view (alter f n l) = static_view l.
Proof.
  intros Hf. unfold static_view. apply list_eq. intros j.
  rewrite !list_lookup_fmap.
  destruct (decide (n = j)) as [->|Hne].
  - rewrite list_lookup_alter_eq.
    destruct (l !! j) as [s|]; simpl; [|done]. by destruct (Hf s) as [-> ->].
  - by rewrite list_lookup_alter_ne.
Qed.

Lemma static_view_fmap (f : InputServerData → InputServerData) l :
  (∀ s, index (f s) = index s ∧ rgb_button (f s) = rgb_button s) →
  static_view (f <$> l) = static_view l.
Proof.
  intros Hf. unfold static_view. rewrite <- list_fmap_compose.
  apply list_fmap_ext. intros i s _. simpl. by destruct (Hf s) as [-> ->].
Qed.

Lemma static_view_flags_after v idxs l :
  static_view (flags_after v idxs l) = static_view l.
Proof.
  revert l. induction idxs as [|i idxs IH]; intros l; [done|].
  unfold flags_after in *. simpl. rewrite IH.
  destruct (list_index l i); [|done]. by apply static_view_alter.
Qed.

Lemma static_view_section_flags section l :
  static_view (section_flags section l) = static_view l.
Proof.
  unfold section_flags. repeat case_decide.
  - by apply static_view_fmap.
  - by apply static_view_fmap.
  - rewrite static_view_alter by done. by apply static_view_fmap.
Qed.

Lemma static_view_length l l' :
  static_view l = static_view l' → length l = length l'.
Proof.
  intros H. apply (f_equal length) in H. unfold static_view in H.
  by rewrite !length_fmap in H.
Qed.

Lemma registered_static_view uids l l' :
  static_view l = static_view l' →
  Forall (registered uids) l → Forall (registered uids) l'.
Proof.
  intros Hv Hl.
  assert (Hf : ∀ l0, Forall (registered uids) l0 ↔
                 Forall (λ p, is_Some (OrderedDict.get uids (RGB_Button.uid p.2)))
                        (static_view l0)).
  { intros l0. unfold static_view. by rewrite Forall_fmap. }
  apply Hf. rewrite <- Hv. by apply Hf.
Qed.

Lemma for_each_invariant {A} (P : World → Prop) (l : list A) (body : A → M unit) :
  (∀ x w, P w → P (body x w).2) →
  ∀ w, P w → P (for_each l body w).2.
Proof.
  intros Hbody. induction l as [|x l IH]; intros w Hw; [done|].
  simpl. unfold mbind, M_bind.
  specialize (Hbody x w Hw).
  destruct (body x w) as [[[]|e] w1]; simpl in *; [by apply IH|done].
Qed.

Lemma bind_invariant {A B} (P : World → Prop) (m : M A) (f : A → M B) w :
  P (m w).2 → (∀ a w', P w' → P (f a w').2) → P ((m ≫= f) w).2.
Proof.
  intros Hm Hf. unfold mbind, M_bind.
  destruct (m w) as [[a|e] w1]; simpl in *; [by apply Hf|done].
Qed.

Lemma print_current_state_static w :
  static_view (server_list (print_current_state w).2) = static_view (server_list w).
Proof.
  by destruct (print_current_state_frame w) as (o & evs & -> & _).
Qed.

Lemma set_active_static i v w :
  static_view (server_list (set_active i v w).2) = static_view (server_list w).
Proof.
  unfold set_active. destruct (list_index _ _); [|done].
  simpl. by apply static_view_alter.
Qed.

Lemma cb_button_static state u w :
  static_view (server_list (cb_button state u w).2) = static_view (server_list w).
Proof.
  destruct state; [|done]. unfold cb_button, try_except_pass.
  match goal with |- context [match ?m w with _ => _ end] =>
    assert (H : static_view (server_list (m w).2) = static_view (server_list w));
    [|destruct (m w) as [[[]|[]] w1]; exact H] end.
  unfold mbind at 1, M_bind at 1, get_world.
  unfold mbind at 1, M_bind at 1, modify.
  destruct (index_dict (cls w) !! u) as [idxs|]; [|done].
  apply (bind_invariant (λ w', static_view (server_list w') = static_view (server_list w))).
  - apply (for_each_invariant
             (λ w', static_view (server_list w') = static_view (server_list w))); [|done].
    intros i w' Hw'. by rewrite set_active_static.
  - intros _ w' Hw'. by rewrite print_current_state_static.
Qed.

Lemma cb_position_static position sw w :
  static_view (server_list (cb_position position sw w).2) = static_view (server_list w).
Proof.
  destruct (decide (Z.abs (position - old_position (cls w)) > 2)) as [Hd|Hd].
  - destruct (floordiv (position - lower_threshold (cls w)) sw) as [section|e] eqn:Hs.
    + destruct (decide (section = old_section (cls w))) as [->|Hne].
      * by rewrite cb_position_same_section.
      * rewrite (cb_position_processed _ _ _ _ Hd Hs Hne). simpl.
        apply static_view_section_flags.
    + unfold cb_position. run. rewrite decide_True by done. by rewrite Hs.
  - by rewrite cb_position_debounced by lia.
Qed.

Lemma toggle_active_static i w :
  static_view (server_list (toggle_active i w).2) = static_view (server_list w).
Proof.
  unfold toggle_active. destruct (server_list w !! i); [|done].
  simpl. by apply static_view_alter.
Qed.

Lemma scan_hotkey_static ip i h w :
  static_view (server_list (scan_hotkey ip i h w).2) = static_view (server_list w).
Proof.
  unfold scan_hotkey. rewrite emit_bind.
  destruct (ip h) as [[|]|]; [|done|done].
  unfold mbind at 1, M_bind at 1, get_world.
  destruct (negb _); [|done].
  apply (bind_invariant (λ w', static_view (server_list w') = static_view (server_list w))).
  - by rewrite toggle_active_static.
  - intros _ w1 H1.
    apply (bind_invariant (λ w', static_view (server_list w') = static_view (server_list w)));
      [done|].
    intros _ w2 H2. by rewrite print_current_state_static.
Qed.

Lemma scan_tick_static ip w :
  static_view (server_list (scan_tick ip w).2) = static_view (server_list w).
Proof.
  unfold scan_tick. unfold mbind, M_bind, get_world.
  apply (for_each_invariant
           (λ w', static_view (server_list w') = static_view (server_list w))); [|done].
  intros [i h] w' Hw'. by rewrite scan_hotkey_static.
Qed.

(** X3. The three routers change nothing in the registry but the active
    flags: whatever the event and the state, and whether the router
    returns normally or raises, the number of channels and the remote
    index and button of every channel are as before. *)
Theorem routers_keep_channels w :
  (∀ state u,
     static_view (server_list (cb_button state u w).2) = static_view (server_list w)) ∧
  (∀ position section_width,
     static_view (server_list (cb_position position section_width w).2)
     = static_view (server_list w)) ∧
  (∀ polls,
     static_view (server_list (scan_loop polls w).2) = static_view (server_list w)).
Proof.
  split; [|split].
  - intros. apply cb_button_static.
  - intros. apply cb_position_static.
  - intros polls. unfold scan_loop.
    apply (for_each_invariant
             (λ w', static_view (server_list w') = static_view (server_list w))); [|done].
    intros ip w' Hw'. by rewrite scan_tick_static.
Qed.

(** ** Button router: every way an event can end *)

Lemma first_failure {A} (P : A → Prop) `{∀ x, Decision (P x)} (l : list A) :
  ¬ Forall P l →
  ∃ pre bad post, l = pre ++ bad :: post ∧ Forall P pre ∧ ¬ P bad.
Proof.
  induction l as [|x l IH]; intros Hn; [by destruct Hn|].
  destruct (decide (P x)) as [Hx|Hx].
  - destruct IH as (pre & bad & post & -> & Hpre & Hbad).
    { intros Hl. apply Hn. by constructor. }
    exists (x :: pre), bad, post. split; [done|]. split; [by constructor|done].
  - exists [], x, l. done.
Qed.

Lemma print_current_state_unregistered w :
  Exists (λ s, ¬ registered (uid_dict (cls w)) s) (server_list w) →
  (print_current_state w).1 = Raise KeyError.
Proof.
  intros Hex. unfold print_current_state.
  unfold mbind at 1, M_bind at 1, get_world. rewrite emit_bind.
  unfold color_all_buttons. simpl. by rewrite color_loop_unregistered.
Qed.

(** X4. A release edge always records the flipped group state, and ends in
    one of three ways only: it returns normally, it raises [KeyError], or
    it raises [TypeError]. It raises [KeyError] exactly when the identity
    has no index list, or when all its indices are valid and the reflector
    then meets a channel whose button is not registered. It raises
    [TypeError] exactly when the indices are valid, every button is
    registered, and some channel, with the flag the event leaves it,
    contributes a colour of fewer than three components, so that
    [set_color] is called with too few arguments. An invalid index ends
    the event silently. *)
Theorem cb_button_outcome u w :
  let v := negb (default true (button_state_dict (cls w) !! u)) in
  let r := cb_button true u w in
  button_state_dict (cls r.2) !! u = Some v ∧
  (r.1 = Ret tt ∨ r.1 = Raise KeyError ∨ r.1 = Raise TypeError) ∧
  (r.1 = Raise KeyError ↔
     index_dict (cls w) !! u = None ∨
     ∃ idxs, index_dict (cls w) !! u = Some idxs ∧
             Forall (valid_index (server_list w)) idxs ∧
             ¬ Forall (registered (uid_dict (cls w))) (server_list w)) ∧
  (r.1 = Raise TypeError ↔
     ∃ idxs, index_dict (cls w) !! u = Some idxs ∧
             Forall (valid_index (server_list w)) idxs ∧
             Forall (registered (uid_dict (cls w))) (server_list w) ∧
             ¬ Forall color_fits (server_list r.2)).
Proof.
  intros v r. subst r.
  destruct (index_dict (cls w) !! u) as [idxs|] eqn:Hidx.
  - destruct (decide (Forall (valid_index (server_list w)) idxs)) as [Hall|Hbad].
    + rewrite (cb_button_released u idxs w Hidx Hall). fold v.
      set (w1 := with_server_list _ _).
      assert (Hreg : Forall (registered (uid_dict (cls w))) (server_list w)
                     ↔ Forall (registered (uid_dict (cls w1))) (server_list w1)).
      { subst w1. simpl.
        split; apply registered_static_view; by rewrite static_view_flags_after. }
      destruct (print_current_state_frame w1) as (o & evs & Hp & Ho).
      split; [rewrite Hp; simpl; apply lookup_insert_eq|].
      assert (Hsl : server_list (print_current_state w1).2 = server_list w1)
        by (by rewrite Hp).
      rewrite Hsl. clear Hp Ho Hsl o evs.
      destruct (decide (Forall (registered (uid_dict (cls w))) (server_list w)))
        as [Hr|Hr].
      * destruct (print_current_state_outcome w1) as [[Ho Hfit]|[Ho Hfit]];
          [by apply Hreg| |]; rewrite Ho.
        -- split; [by left|]. split.
           ++ split; [done|]. intros [?|(idxs' & _ & _ & Hn)]; [done|]. by destruct Hn.
           ++ split; [done|]. by intros (idxs' & _ & _ & _ & Hn).
        -- split; [right; by right|]. split.
           ++ split; [done|]. intros [?|(idxs' & _ & _ & Hn)]; [done|]. by destruct Hn.
           ++ split; [|done]. intros _. by exists idxs.
      * rewrite print_current_state_unregistered.
        2:{ apply not_Forall_Exists; [apply _|]. by rewrite <- Hreg. }
        split; [right; by left|]. split.
        -- split; [|done]. intros _. right. by exists idxs.
        -- split; [done|]. by intros (idxs' & _ & _ & Hn & _).
    + destruct (first_failure _ idxs Hbad) as (pre & bad & post & -> & Hpre & Hb).
      rewrite (cb_button_out_of_range u pre bad post w Hidx Hpre).
      2:{ unfold valid_index in Hb. by destruct (list_index _ bad); [destruct Hb|]. }
      simpl. split; [apply lookup_insert_eq|]. split; [by left|]. split.
      * split; [done|]. intros [?|(idxs' & [= <-] & Hall & _)]; [done|]. by destruct Hbad.
      * split; [done|]. intros (idxs' & [= <-] & Hall & _). by destruct Hbad.
  - assert (Hr : cb_button true u w
                 = (Raise KeyError, with_cls (set_button_state u v) w)).
    { unfold cb_button, try_except_pass.
      unfold mbind, M_bind, get_world, modify. simpl. by rewrite Hidx. }
    rewrite Hr. simpl. split; [apply lookup_insert_eq|].
    split; [right; by left|]. split.
    + split; [by left|done].
    + split; [done|]. by intros (idxs' & ? & _).
Qed.

Lemma cb_button_outcome_witness :
  let w := one_button_world [channel 0 true "a"; channel 1 true "b"] [0] in
  let short := mkServer 0 true (RGB_Button.mk "a" [1; 1; 1] [15; 15]) in
  let w1 := (cb_button true "a" (one_button_world [short] [0])).2 in
  (cb_button true "a" w).1 = Raise KeyError ∧
  (cb_button true "zz" w).1 = Raise KeyError ∧
  button_state_dict (cls (cb_button true "zz" w).2) !! "zz" = Some false ∧
  (cb_button true "a" (one_button_world [short] [0])).1 = Ret tt ∧
  (cb_button true "a" w1).1 = Raise TypeError.
Proof.
  intros w short w1.
  destruct (cb_button_outcome "a" w) as (_ & _ & Ha & _).
  destruct (cb_button_outcome "zz" w) as (Hs & _ & Hz & _).
  destruct (cb_button_outcome "a" w1) as (_ & _ & _ & Ht).
  split; [|split; [|split; [exact Hs|split; [reflexivity|]]]].
  - apply Ha. right. exists [0]. split; [reflexivity|]. split.
    + repeat constructor. by eexists.
    + intros H. apply Forall_cons in H as [_ H]. apply Forall_cons in H as [[b Hb] _].
      discriminate.
  - apply Hz. by left.
  - apply Ht. exists [0]. split; [reflexivity|]. split; [|split].
    + repeat constructor. by eexists.
    + repeat constructor. by eexists.
    + intros H.
      assert (Hl : server_list (cb_button true "a" w1).2 = [short]) by reflexivity.
      rewrite Hl in H. apply Forall_cons in H as [H _].
      unfold color_fits in H. simpl in H. lia.
Defined.

(** ** Position router: a repeated sample *)

(** X5. Handing the position router the same sample a second time changes
    nothing: the second call ends as the first did (normally, or with the
    division by a zero width) and leaves the world the first call
    produced. *)
Theorem cb_position_repeated position section_width w :
  let r := cb_position position section_width w in
  cb_position position section_width r.2 = (r.1, r.2).
Proof.
  intros r. subst r.
  destruct (decide (Z.abs (position - old_position (cls w)) > 2)) as [Hd|Hd].
  - destruct (floordiv (position - lower_threshold (cls w)) section_width)
      as [section|e] eqn:Hs.
    + destruct (decide (section = old_section (cls w))) as [->|Hne].
      * rewrite (cb_position_same_section position section_width w) by done.
        simpl. by rewrite cb_position_same_section.
      * rewrite (cb_position_processed _ _ _ _ Hd Hs Hne). simpl.
        apply cb_position_debounced. simpl. lia.
    + assert (Hr : cb_position position section_width w = (Raise e, w)).
      { unfold cb_position. run. rewrite decide_True by done. by rewrite Hs. }
      by rewrite Hr.
  - rewrite (cb_position_debounced position section_width w) by lia. simpl.
    apply cb_position_debounced. lia.
Qed.

(** ** Hotkey manager: construction *)

Lemma verify_loop_accepts parse hotkeys :
  ∀ w,
    (∀ h, h ∈ hotkeys → h ≠ "" → parse h = true) →
    for_each hotkeys (λ hotkey,
      if bool_decide (hotkey ≠ "") then
        emit (Parse_hotkey hotkey);;
        if parse hotkey then mret tt
        else emit (Printed_invalid_hotkey hotkey);; raise SystemExit
      else mret tt) w
    = (Ret tt, with_out (λ o, o ++ parse_events hotkeys) w).
Proof.
  induction hotkeys as [|h l IH]; intros w Hall.
  - simpl. by rewrite with_out_nil.
  - cbn [for_each]. unfold parse_events. rewrite filter_cons.
    destruct (decide (h ≠ "")) as [Hh|Hh].
    + rewrite bool_decide_true by done.
      rewrite (Hall h) by (done || by left).
      unfold mbind at 1, M_bind at 1. rewrite emit_bind.
      cbn [mret M_ret]. rewrite IH by (intros; apply Hall; [by right|done]).
      by rewrite with_out_app.
    + rewrite bool_decide_false by done.
      unfold mbind at 1, M_bind at 1. cbn [mret M_ret].
      apply IH. intros; apply Hall; [by right|done].
Qed.

Lemma hotkey_manager_accepts hotkeys parse w :
  (∀ h, h ∈ hotkeys → h ≠ "" → parse h = true) →
  HotkeyManager_init hotkeys parse w
  = (Ret tt,
     with_out (λ o, o ++ parse_events hotkeys)
       (with_hkm (λ _, {| hotkey_list := hotkeys; currently_pressed := ∅ |}) w)).
Proof.
  intros Hall. unfold HotkeyManager_init, verify_hotkeys.
  unfold mbind at 1, M_bind at 1, modify.
  unfold mbind at 1, M_bind at 1, get_world. simpl.
  by apply verify_loop_accepts.
Qed.

Lemma hotkey_manager_exits pre bad post parse w :
  (∀ h, h ∈ pre → h ≠ "" → parse h = true) →
  bad ≠ "" →
  parse bad = false →
  HotkeyManager_init (pre ++ bad :: post) parse w
  = (Raise SystemExit,
     with_out (λ o, o ++ (parse_events pre
                          ++ [Parse_hotkey bad; Printed_invalid_hotkey bad]))
       (with_hkm (λ _, {| hotkey_list := pre ++ bad :: post;
                          currently_pressed := ∅ |}) w)).
Proof.
  intros Hpre Hbad Hparse. unfold HotkeyManager_init, verify_hotkeys.
  unfold mbind at 1, M_bind at 1, modify.
  unfold mbind at 1, M_bind at 1, get_world. simpl.
  rewrite for_each_app.
  erewrite bind_ret by (by apply verify_loop_accepts).
  cbn [for_each]. rewrite bool_decide_true by done. rewrite Hparse.
  erewrite bind_raise by reflexivity.
  by rewrite !with_out_app.
Qed.

(** X6. Constructing the hotkey manager when every non-empty hotkey
    parses: it returns normally with nothing marked as pressed, having
    asked the parser about each non-empty hotkey once, in order, and about
    no empty one. *)
Theorem HotkeyManager_init_accepts hotkeys parse w :
  (∀ h, h ∈ hotkeys → h ≠ "" → parse h = true) →
  HotkeyManager_init hotkeys parse w
  = (Ret tt,
     with_out (λ o, o ++ parse_events hotkeys)
       (with_hkm (λ _, {| hotkey_list := hotkeys; currently_pressed := ∅ |}) w)).
Proof. apply hotkey_manager_accepts. Qed.

Lemma HotkeyManager_init_accepts_witness :
  let w := world0 three_channels [] in
  let r := HotkeyManager_init ["f1"; ""; "ctrl+2"] (λ _, true) w in
  r.1 = Ret tt ∧ out r.2 = [Parse_hotkey "f1"; Parse_hotkey "ctrl+2"].
Proof.
  intros w r. subst r.
  rewrite (HotkeyManager_init_accepts ["f1"; ""; "ctrl+2"] (λ _, true) w).
  - split; reflexivity.
  - reflexivity.
Defined.

(** X7. Constructing the hotkey manager with a non-empty hotkey that does
    not parse: the constructor ends with [SystemExit] at the first such
    hotkey, after reporting it; the hotkeys after it are not looked at. *)
Theorem HotkeyManager_init_exits pre bad post parse w :
  (∀ h, h ∈ pre → h ≠ "" → parse h = true) →
  bad ≠ "" →
  parse bad = false →
  HotkeyManager_init (pre ++ bad :: post) parse w
  = (Raise SystemExit,
     with_out (λ o, o ++ (parse_events pre
                          ++ [Parse_hotkey bad; Printed_invalid_hotkey bad]))
       (with_hkm (λ _, {| hotkey_list := pre ++ bad :: post;
                          currently_pressed := ∅ |}) w)).
Proof. apply hotkey_manager_exits. Qed.

Lemma HotkeyManager_init_exits_witness :
  let w := world0 three_channels [] in
  let r := HotkeyManager_init ["f1"; ""; "bogus"; "f3"] (λ h, bool_decide (h ≠ "bogus")) w in
  r.1 = Raise SystemExit ∧
  out r.2 = [Parse_hotkey "f1"; Parse_hotkey "bogus"; Printed_invalid_hotkey "bogus"].
Proof.
  intros w r. subst r.
  rewrite (HotkeyManager_init_exits ["f1"; ""] "bogus" ["f3"]).
  - split; reflexivity.
  - intros h [->|[->|[]%elem_of_nil]%elem_of_cons]%elem_of_cons; done.
  - done.
  - reflexivity.
Defined.

(** ** Hotkey router: polls with nothing pressed, shared key combinations *)

Lemma release_loop ip ps :
  ∀ w,
    (∀ p, p ∈ ps → ip p.2 = Some false) →
    for_each ps (λ '(i, hotkey), scan_hotkey ip i hotkey) w
    = (Ret tt,
       with_out (λ o, o ++ (Is_pressed <$> ps.*2))
         (with_hkm (λ m, foldl (λ m p, set_pressed p.2 false m) m ps) w)).
Proof.
  induction ps as [|[i h] ps IH]; intros w Hall.
  - simpl. destruct w as [c sl [hl cp] o]. unfold with_out, with_hkm. simpl.
    by rewrite app_nil_r.
  - cbn [for_each].
    assert (Hh : scan_hotkey ip i h w
                 = (Ret tt, with_out (λ o, o ++ [Is_pressed h])
                              (with_hkm (set_pressed h false) w))).
    { pose proof (Hall (i, h) ltac:(by left)) as Hf. simpl in Hf.
      unfold scan_hotkey. rewrite emit_bind. by rewrite Hf. }
    erewrite bind_ret by exact Hh.
    rewrite IH by (intros p Hp; apply Hall; by right).
    destruct w as [c sl [hl cp] o]. unfold with_out, with_hkm. simpl.
    by rewrite <- app_assoc.
Qed.

Lemma foldl_release_lookup (ps : list (nat * string)) h :
  ∀ m, h ∈ ps.*2 →
    currently_pressed (foldl (λ m p, set_pressed p.2 false m) m ps) !! h = Some false.
Proof.
  induction ps as [|[i h'] ps IH] using rev_ind; intros m Hin;
    [by apply elem_of_nil in Hin|].
  rewrite foldl_app. simpl.
  destruct (decide (h' = h)) as [->|Hne]; [apply lookup_insert_eq|].
  rewrite lookup_insert_ne by done. apply IH.
  rewrite fmap_app in Hin. apply elem_of_app in Hin as [?|Hin]; [done|].
  apply list_elem_of_singleton in Hin. simpl in Hin. congruence.
Qed.

Lemma foldl_release_hotkey_list (ps : list (nat * string)) :
  ∀ m, hotkey_list (foldl (λ m p, set_pressed p.2 false m) m ps) = hotkey_list m.
Proof.
  induction ps as [|p ps IH]; intros m; [done|]. simpl. by rewrite IH.
Qed.

(** X8. A poll in which the key checker reports every configured
    combination as released asks about each of them once, in order, marks
    each as not pressed, and touches neither the registry nor the
    indicators. *)
Theorem scan_tick_all_released ip w :
  (∀ h, h ∈ hotkey_list (hkm w) → ip h = Some false) →
  let r := scan_tick ip w in
  r.1 = Ret tt ∧
  server_list r.2 = server_list w ∧
  cls r.2 = cls w ∧
  hotkey_list (hkm r.2) = hotkey_list (hkm w) ∧
  out r.2 = out w ++ (Is_pressed <$> hotkey_list (hkm w)) ∧
  ∀ h, h ∈ hotkey_list (hkm w) → currently_pressed (hkm r.2) !! h = Some false.
Proof.
  intros Hall r. subst r. unfold scan_tick.
  unfold mbind, M_bind, get_world.
  rewrite release_loop.
  2:{ intros [i h] (i' & h' & [= -> ->] & Hi)%elem_of_lookup_imap.
      apply Hall. by eapply list_elem_of_lookup_2. }
  simpl. rewrite enumerate_snd, foldl_release_hotkey_list.
  repeat split. intros h Hh. apply foldl_release_lookup.
  by rewrite enumerate_snd.
Qed.

Lemma scan_tick_all_released_witness :
  let w := world0 three_channels ["f1"; ""; "f3"] in
  let r := scan_tick (λ _, Some false) w in
  r.1 = Ret tt ∧ server_list r.2 = server_list w ∧
  out r.2 = [Is_pressed "f1"; Is_pressed ""; Is_pressed "f3"].
Proof.
  intros w r.
  destruct (scan_tick_all_released (λ _, Some false) w) as (H1 & H2 & _ & _ & H3 & _).
  - reflexivity.
  - split; [exact H1|]. split; [exact H2|exact H3].
Defined.









(** ** Start-up of the button router *)

Lemma OrderedDict_get_set_ne {V} (d : OrderedDict.t V) k k' v :
  k ≠ k' → OrderedDict.get (OrderedDict.set d k v) k' = OrderedDict.get d k'.
Proof.
  intros Hne. induction d as [|[k0 v0] d IH]; cbn [OrderedDict.get OrderedDict.set].
  - by rewrite decide_False.
  - destruct (decide (k0 = k)) as [->|Hk]; cbn [OrderedDict.get].
    + by rewrite !decide_False.
    + by rewrite IH.
Qed.

Lemma OrderedDict_get_keys {V} (d : OrderedDict.t V) k :
  is_Some (OrderedDict.get d k) ↔ k ∈ OrderedDict.keys d.
Proof.
  unfold OrderedDict.keys.
  induction d as [|[k0 v0] d IH]; cbn [OrderedDict.get].
  - split; [by intros []|by intros ?%elem_of_nil].
  - rewrite fmap_cons, elem_of_cons. cbn [fst].
    destruct (decide (k0 = k)) as [->|Hk].
    + split; [by left|by eexists].
    + rewrite IH. split; [by right|]. intros [?|?]; [congruence|done].
Qed.

Lemma positions_of_snoc u pre s :
  positions_of u (pre ++ [s]) =
    positions_of u pre
    ++ (if decide (server_uid s = u) then [Z.of_nat (length pre)] else []).
Proof.
  unfold positions_of. rewrite imap_app, omap_app. f_equal.
  cbn [imap omap]. rewrite Nat.add_0_r. cbn [list_omap snd fst].
  by destruct (decide (server_uid s = u)).
Qed.

Lemma positions_of_absent u l :
  u ∉ server_uid <$> l → positions_of u l = [].
Proof.
  induction l as [|s l IH] using rev_ind; intros Hu; [done|].
  rewrite positions_of_snoc. rewrite elem_of_uids_snoc in Hu.
  rewrite IH by (intros ?; apply Hu; by left).
  rewrite decide_False; [done|]. intros Heq. apply Hu. by right.
Qed.

Lemma elem_of_positions_of u l i :
  i ∈ positions_of u l ↔
    ∃ n s, i = Z.of_nat n ∧ l !! n = Some s ∧ server_uid s = u.
Proof.
  unfold positions_of. rewrite list_elem_of_omap. split.
  - intros ([n s] & (n' & s' & [= -> ->] & Hn)%elem_of_lookup_imap & Hi).
    simpl in Hi. case_decide; simplify_eq. by exists n', s'.
  - intros (n & s & -> & Hn & Hu). exists (n, s). split.
    + by apply (elem_of_lookup_imap_2 pair).
    + simpl. by rewrite decide_True.
Qed.

Lemma registration_inv_init c :
  uid_dict c = [] → index_dict c = ∅ → button_state_dict c = ∅ →
  registration_inv [] c.
Proof.
  intros Hu Hi Hs. split; rewrite ?Hu, ?Hi; try done.
  - constructor.
  - intros u ?%elem_of_nil. done.
Qed.

Lemma registration_inv_step pre s c :
  registration_inv pre c →
  registration_inv (pre ++ [s]) (register_class (length pre) (rgb_button s) c).
Proof.
  intros [Hnd Hdom Hget Hidx Hst].
  unfold register_class. fold (server_uid s).
  set (c' := match OrderedDict.get (uid_dict c) (server_uid s) with
             | None => _ | Some _ => c end).
  assert (Hc' : index_dict c' = index_dict c ∧ button_state_dict c' = ∅ ∧
                uid_dict c' = OrderedDict.set (uid_dict c) (server_uid s)
                                (mkBricklet (server_uid s))
                ∨ index_dict c' = index_dict c ∧ button_state_dict c' = ∅ ∧
                  uid_dict c' = uid_dict c ∧ server_uid s ∈ server_uid <$> pre).
  { subst c'. destruct (OrderedDict.get (uid_dict c) (server_uid s)) eqn:E.
    - right. repeat split; try done. apply Hdom, OrderedDict_get_keys. by eexists.
    - left. done. }
  assert (Hkeys : ∀ u, u ∈ OrderedDict.keys (uid_dict c') ↔
                       u ∈ server_uid <$> pre ∨ u = server_uid s).
  { intros u. destruct Hc' as [(_ & _ & ->)|(_ & _ & -> & Hin)].
    - rewrite OrderedDict_keys_set. case_decide as Hk.
      + rewrite Hdom. split; [by left|]. intros [?| ->]; [done|]. by apply Hdom.
      + rewrite elem_of_app, list_elem_of_singleton, Hdom. done.
    - rewrite Hdom. split; [by left|]. by intros [?| ->]. }
  split; simpl.
  - destruct Hc' as [(_ & _ & ->)|(_ & _ & -> & _)]; [|done].
    rewrite OrderedDict_keys_set. case_decide; [done|].
    apply NoDup_app. split; [done|]. split; [|apply NoDup_singleton].
    intros u Hu ->%list_elem_of_singleton. done.
  - intros u. by rewrite Hkeys, elem_of_uids_snoc.
  - intros u Hu. rewrite elem_of_uids_snoc in Hu.
    destruct Hc' as [(_ & _ & ->)|(_ & _ & -> & Hin)].
    + destruct (decide (server_uid s = u)) as [<-|Hne].
      * apply OrderedDict_get_set_eq.
      * rewrite OrderedDict_get_set_ne by done. apply Hget.
        by destruct Hu as [?| ->].
    + apply Hget. by destruct Hu as [?| ->].
  - intros u.
    assert (Hi : index_dict c' = index_dict c) by (by destruct Hc' as [(-> & _)|(-> & _)]).
    rewrite Hi, positions_of_snoc.
    destruct (decide (server_uid s = u)) as [<-|Hne].
    + rewrite lookup_insert_eq, decide_True by (apply elem_of_uids_snoc; by right).
      f_equal. f_equal. rewrite Hidx. case_decide; [done|].
      by rewrite positions_of_absent.
    + rewrite lookup_insert_ne by done. rewrite Hidx, app_nil_r.
      destruct (decide (u ∈ server_uid <$> pre)) as [Hin|Hin].
      * by rewrite decide_True by (apply elem_of_uids_snoc; by left).
      * rewrite decide_False; [done|].
        intros [?|?]%elem_of_uids_snoc; [done|congruence].
  - by destruct Hc' as [(_ & -> & _)|(_ & -> & _)].
Qed.

Lemma register_button_run i button w :
  register_button i button w = (Ret tt, with_cls (register_class i button) w).
Proof.
  unfold register_button, register_class.
  unfold mbind at 1, M_bind at 1, get_world.
  destruct w as [c sl m o]. unfold with_cls. simpl.
  by destruct (OrderedDict.get (uid_dict c) (RGB_Button.uid button)).
Qed.

Lemma registration_loop (bs : list (nat * RGB_Button.t)) :
  ∀ w, for_each bs (λ '(i, button), register_button i button) w
       = (Ret tt,
          with_cls (λ c, foldl (λ c p, register_class p.1 p.2 c) c bs) w).
Proof.
  induction bs as [|[i b] bs IH]; intros w.
  - by destruct w.
  - cbn [for_each]. erewrite bind_ret by apply register_button_run.
    rewrite IH. by destruct w.
Qed.

Lemma registration_run servers :
  ∀ c, registration_inv [] c →
    registration_inv servers
      (foldl (λ c p, register_class p.1 p.2 c) c (imap pair (rgb_button <$> servers))).
Proof.
  induction servers as [|s servers IH] using rev_ind; intros c Hc; [done|].
  rewrite fmap_app, imap_app, foldl_app. cbn [fmap list_fmap imap foldl fst snd].
  rewrite length_fmap, Nat.add_0_r.
  by apply registration_inv_step, IH.
Qed.

Lemma static_view_lookup_uid l l' n s :
  static_view l = static_view l' → l !! n = Some s →
  ∃ s', l' !! n = Some s' ∧ server_uid s' = server_uid s.
Proof.
  intros Hv Hs. apply (f_equal (λ x, x !! n)) in Hv.
  unfold static_view in Hv. rewrite !list_lookup_fmap, Hs in Hv.
  destruct (l' !! n) as [s'|]; simplify_eq/=.
  exists s'. split; [done|]. unfold server_uid. congruence.
Qed.

Lemma registration_inv_registered servers0 c0 :
  registration_inv servers0 c0 → Forall (registered (uid_dict c0)) servers0.
Proof.
  intros Hreg. apply Forall_forall. intros s Hs.
  unfold registered. rewrite (ri_get _ _ Hreg); [by eexists|].
  apply list_elem_of_fmap. by exists s.
Qed.

Lemma cb_button_preserves (P : World → Prop) state u w :
  (∀ w v, P w → P (with_cls (set_button_state u v) w)) →
  (∀ w f, P w → P (with_server_list f w)) →
  (∀ w f, P w → P (with_out f w)) →
  P w → P (cb_button state u w).2.
Proof.
  intros Hcls Hsl Hout Hw. destruct state; [|done].
  unfold cb_button, try_except_pass.
  match goal with |- context [match ?m w with _ => _ end] =>
    assert (H : P (m w).2); [|destruct (m w) as [[[]|[]] w1]; exact H] end.
  unfold mbind at 1, M_bind at 1, get_world.
  unfold mbind at 1, M_bind at 1, modify.
  destruct (index_dict (cls w) !! u) as [idxs|]; [|by apply Hcls].
  apply (bind_invariant P).
  - apply (for_each_invariant P); [|by apply Hcls].
    intros i w' Hw'. unfold set_active.
    destruct (list_index _ _); [by apply Hsl|done].
  - intros _ w' Hw'.
    destruct (print_current_state_frame w') as (o & evs & -> & _). by apply Hout.
Qed.

Lemma colors_ok_static_view l l' :
  static_view l = static_view l' → Forall colors_ok l → Forall colors_ok l'.
Proof.
  intros Hv Hl.
  assert (Hf : ∀ l0, Forall colors_ok l0 ↔
                 Forall (λ p, length (RGB_Button.color_on p.2) = 3%nat ∧
                              length (RGB_Button.color_off p.2) = 3%nat)
                        (static_view l0)).
  { intros l0. unfold static_view. by rewrite Forall_fmap. }
  apply Hf. rewrite <- Hv. by apply Hf.
Qed.

Lemma initial_press_step servers0 c0 P u b w :
  registration_inv servers0 c0 →
  Forall colors_ok servers0 →
  initial_press_inv servers0 c0 P w →
  u ∉ OrderedDict.keys P →
  u ∈ OrderedDict.keys (uid_dict c0) →
  ∃ w', (cb_button true u ;; emit (Callback_button b)) w = (Ret tt, w') ∧
        initial_press_inv servers0 c0 (P ++ [(u, b)]) w'.
Proof.
  intros Hreg Hcol [Huid Hidx Hst Hsv Hoff] HuP HuD.
  assert (Hu0 : u ∈ server_uid <$> servers0) by (by apply (ri_dom _ _ Hreg)).
  assert (Hlen : length (server_list w) = length servers0)
    by (by apply static_view_length).
  assert (Hi : index_dict (cls w) !! u = Some (positions_of u servers0)).
  { rewrite Hidx, (ri_index _ _ Hreg). by rewrite decide_True. }
  assert (Hpos : ∀ i, i ∈ positions_of u servers0 →
            ∃ n, i = Z.of_nat n ∧ list_index (server_list w) i = Some n).
  { intros i (n & s & -> & Hn & _)%elem_of_positions_of. exists n. split; [done|].
    apply lookup_lt_Some in Hn. rewrite list_index_nonneg by lia.
    by rewrite Nat2Z.id. }
  assert (Hvalid : Forall (valid_index (server_list w)) (positions_of u servers0)).
  { apply Forall_forall. intros i (n & _ & Hn)%Hpos. by exists n. }
  assert (Hv : negb (default true (button_state_dict (cls w) !! u)) = false).
  { rewrite Hst. by rewrite decide_False. }
  pose proof (cb_button_released u _ w Hi Hvalid) as Hrun.
  cbv zeta in Hrun. rewrite Hv in Hrun.
  set (w1 := with_server_list _ _) in Hrun.
  destruct (print_current_state_run w1) as [evs Hp].
  { subst w1. simpl. rewrite Huid.
    eapply registered_static_view; [|by apply registration_inv_registered].
    by rewrite static_view_flags_after. }
  { subst w1. simpl. eapply colors_ok_static_view; [|exact Hcol].
    by rewrite static_view_flags_after. }
  exists (with_out (λ o, o ++ [Callback_button b]) (with_out (λ o, o ++ evs) w1)).
  split.
  { assert (Hc : cb_button true u w = (Ret tt, with_out (λ o, o ++ evs) w1))
      by (etrans; [exact Hrun|exact Hp]).
    by erewrite bind_ret by exact Hc. }
  assert (Hk : ∀ u', u' ∈ OrderedDict.keys (P ++ [(u, b)])
                     ↔ u' ∈ OrderedDict.keys P ∨ u' = u).
  { intros u'. unfold OrderedDict.keys.
    by rewrite fmap_app, elem_of_app, fmap_cons, fmap_nil, list_elem_of_singleton. }
  split; simpl.
  - done.
  - done.
  - intros u'.
    destruct (decide (u = u')) as [<-|Hne].
    + rewrite lookup_insert_eq, decide_True; [done|]. apply Hk. by right.
    + rewrite lookup_insert_ne by done. rewrite Hst.
      destruct (decide (u' ∈ OrderedDict.keys P)) as [Hin|Hin].
      * rewrite decide_True; [done|]. apply Hk. by left.
      * rewrite decide_False; [done|]. intros [?|?]%Hk; [done|congruence].
  - by rewrite static_view_flags_after.
  - intros n s Hn Hs. rewrite flags_after_lookup in Hn.
    destruct (decide (Exists _ _)) as [Hex|Hex].
    + destruct (server_list w !! n); simplify_eq/=. done.
    + apply Hk in Hs as [Hs|Hs]; [by eapply Hoff|].
      exfalso. apply Hex.
      destruct (static_view_lookup_uid _ _ _ _ Hsv Hn) as (s' & Hn' & Hu').
      apply Exists_exists. exists (Z.of_nat n). split.
      * apply elem_of_positions_of. exists n, s'. split; [done|]. split; [done|].
        congruence.
      * apply lookup_lt_Some in Hn. rewrite list_index_nonneg by lia.
        by rewrite Nat2Z.id.
Qed.

Lemma initial_press_loop servers0 c0 R :
  ∀ P w,
    registration_inv servers0 c0 →
    Forall colors_ok servers0 →
    uid_dict c0 = P ++ R →
    initial_press_inv servers0 c0 P w →
    ∃ w', for_each R (λ '(u, button),
            cb_button true u;; emit (Callback_button button)) w
          = (Ret tt, w') ∧
          initial_press_inv servers0 c0 (P ++ R) w'.
Proof.
  induction R as [|[u b] R IH]; intros P w Hreg Hcol HD Hinv.
  - exists w. by rewrite app_nil_r.
  - pose proof (ri_nodup _ _ Hreg) as Hnd. rewrite HD in Hnd.
    unfold OrderedDict.keys in Hnd. rewrite fmap_app, fmap_cons in Hnd.
    apply NoDup_app in Hnd as (_ & Hdis & _).
    destruct (initial_press_step servers0 c0 P u b w Hreg Hcol Hinv)
      as (w1 & Hrun & Hinv1).
    { intros Hin. apply (Hdis u Hin). by left. }
    { rewrite HD. unfold OrderedDict.keys. rewrite fmap_app, fmap_cons.
      apply elem_of_app. right. by left. }
    destruct (IH (P ++ [(u, b)]) w1 Hreg Hcol) as (w' & Hrun' & Hinv');
      [by rewrite <- app_assoc|done|].
    exists w'. rewrite <- app_assoc in Hinv'. split; [|done].
    cbn [for_each]. by erewrite bind_ret by exact Hrun.
Qed.

Lemma reset_loop (bd : OrderedDict.t BrickletRGBLEDButton) :
  ∀ w, for_each bd (λ '(_, button), set_color button [0; 0; 0]) w
       = (Ret tt,
          with_out (λ o, o ++ ((λ p, Set_color p.2 [0; 0; 0]) <$> bd)) w).
Proof.
  induction bd as [|[u b] bd IH]; intros w.
  - simpl. by rewrite with_out_nil.
  - cbn [for_each]. erewrite bind_ret by (by apply set_color_three).
    rewrite IH. by rewrite with_out_app.
Qed.

Lemma initial_press_inv_out servers0 c0 P w f :
  initial_press_inv servers0 c0 P w →
  initial_press_inv servers0 c0 P (with_out f w).
Proof. by intros []. Qed.

(** [start_RGB_Buttons] on class attributes that are still empty, with
    colours of three components. *)
Lemma start_RGB_Buttons_run w :
  uid_dict (cls w) = [] →
  index_dict (cls w) = ∅ →
  button_state_dict (cls w) = ∅ →
  server_list w ≠ [] →
  Forall colors_ok (server_list w) →
  ∃ c0 w',
    start_RGB_Buttons w = (Ret tt, w') ∧
    registration_inv (server_list w) c0 ∧
    initial_press_inv (server_list w) c0 (uid_dict c0) w'.
Proof.
  intros Hu Hi Hs Hne Hcol.
  set (c0 := foldl (λ c p, register_class p.1 p.2 c) (cls w)
               (imap pair (rgb_button <$> server_list w))).
  assert (Hreg : registration_inv (server_list w) c0)
    by (by apply registration_run, registration_inv_init).
  set (w0 := with_out (λ o, o ++ [Connect]) (with_cls (λ _, c0) w)).
  assert (Hinv0 : initial_press_inv (server_list w) c0 [] w0).
  { split; [done|done| |done|].
    - intros u. change (cls w0) with c0.
      rewrite (ri_state _ _ Hreg), lookup_empty.
      rewrite decide_False; [done|]. by intros ?%elem_of_nil.
    - intros n s _ ?%elem_of_nil. done. }
  destruct (initial_press_loop (server_list w) c0 (uid_dict c0) [] w0 Hreg Hcol
              eq_refl Hinv0)
    as (w1 & Hrun1 & Hinv1).
  simpl in Hinv1.
  exists c0. eexists. split; [|split; [exact Hreg|]].
  - unfold start_RGB_Buttons.
    unfold mbind at 1, M_bind at 1, get_world.
    unfold py_assert. rewrite bool_decide_true.
    2:{ rewrite length_fmap. destruct (server_list w); [done|simpl; lia]. }
    unfold mbind at 1, M_bind at 1. cbn [mret M_ret].
    rewrite (bind_ret _ _ _ _ _ (registration_loop _ w)).
    rewrite emit_bind.
    assert (Hw0 : with_out (λ o, o ++ [Connect])
                    (with_cls (λ c, foldl (λ c p, register_class p.1 p.2 c) c
                                      (imap pair (rgb_button <$> server_list w))) w)
                  = w0) by (by destruct w).
    rewrite Hw0. unfold try_finally.
    unfold mbind at 1, M_bind at 1, get_world.
    change (uid_dict (cls w0)) with (uid_dict c0). rewrite Hrun1.
    unfold mbind at 1, M_bind at 1, get_world.
    rewrite (bind_ret _ _ _ _ _ (reset_loop _ w1)).
    reflexivity.
  - by do 2 apply initial_press_inv_out.
Qed.

Lemma try_finally_invariant (P : World → Prop) (m h : M unit) w :
  P (m w).2 → (∀ w', P w' → P (h w').2) → P (try_finally m h w).2.
Proof.
  intros Hm Hh. unfold try_finally.
  destruct (m w) as [[[]|e] w1]; simpl in Hm; [by apply Hh|].
  specialize (Hh w1 Hm). by destruct (h w1) as [[[]|e'] w2].
Qed.

(** Whatever the colours, and however the initial events end, the
    start-up leaves [uid_dict] and [index_dict] as the registration loop
    built them and changes nothing in the registry but the flags. *)
Lemma start_RGB_Buttons_settings w :
  server_list w ≠ [] →
  let c0 := foldl (λ c p, register_class p.1 p.2 c) (cls w)
              (imap pair (rgb_button <$> server_list w)) in
  let w' := (start_RGB_Buttons w).2 in
  uid_dict (cls w') = uid_dict c0 ∧
  index_dict (cls w') = index_dict c0 ∧
  static_view (server_list w') = static_view (server_list w).
Proof.
  intros Hne c0 w'. subst w'.
  set (P := λ w1 : World,
         uid_dict (cls w1) = uid_dict c0 ∧
         index_dict (cls w1) = index_dict c0 ∧
         static_view (server_list w1) = static_view (server_list w)).
  assert (Hout : ∀ w1 f, P w1 → P (with_out f w1)) by (by intros w1 f H).
  change (P (start_RGB_Buttons w).2).
  unfold start_RGB_Buttons.
  unfold mbind at 1, M_bind at 1, get_world.
  unfold py_assert. rewrite bool_decide_true.
  2:{ rewrite length_fmap. destruct (server_list w); [done|simpl; lia]. }
  unfold mbind at 1, M_bind at 1. cbn [mret M_ret].
  rewrite (bind_ret _ _ _ _ _ (registration_loop _ w)).
  rewrite emit_bind.
  set (w0 := with_out _ _).
  assert (H0 : P w0) by done.
  apply try_finally_invariant.
  - unfold mbind at 1, M_bind at 1, get_world.
    revert H0. generalize w0 at 1 3 as w1.
    apply (for_each_invariant P). intros [u button] w1 H1.
    apply (bind_invariant P); [|intros _ w2 H2; by apply Hout].
    destruct H1 as (Hu1 & Hi1 & Hs1).
    split; [|split].
    + rewrite <- Hu1.
      apply (cb_button_preserves (λ w2, uid_dict (cls w2) = uid_dict (cls w1))); done.
    + rewrite <- Hi1.
      apply (cb_button_preserves (λ w2, index_dict (cls w2) = index_dict (cls w1))); done.
    + by rewrite cb_button_static.
  - intros w1 H1.
    unfold mbind at 1, M_bind at 1, get_world.
    rewrite (bind_ret _ _ _ _ _ (reset_loop _ w1)).
    by apply Hout, Hout.
Qed.

(** X10. Start-up of the button router on class dicts that are still
    empty, a non-empty registry and colours of three components (so that
    the reflector returns from every initial event): it returns normally,
    every channel ends up inactive whatever its flag was, the group state
    of every button is "off", and nothing in the registry but the flags
    has changed. *)
Theorem start_RGB_Buttons_switches_all_off w :
  uid_dict (cls w) = [] →
  index_dict (cls w) = ∅ →
  button_state_dict (cls w) = ∅ →
  server_list w ≠ [] →
  Forall colors_ok (server_list w) →
  let r := start_RGB_Buttons w in
  r.1 = Ret tt ∧
  static_view (server_list r.2) = static_view (server_list w) ∧
  Forall (λ s, active s = false) (server_list r.2) ∧
  ∀ s, s ∈ server_list w →
    button_state_dict (cls r.2) !! server_uid s = Some false.
Proof.
  intros Hu Hi Hs Hne Hcol r. subst r.
  destruct (start_RGB_Buttons_run w Hu Hi Hs Hne Hcol) as (c0 & w' & -> & Hreg & Hinv).
  simpl. split; [done|]. split; [apply (ii_static _ _ _ _ Hinv)|]. split.
  - apply Forall_lookup. intros n s Hn.
    apply (ii_off _ _ _ _ Hinv n s Hn).
    destruct (static_view_lookup_uid _ _ _ _ (ii_static _ _ _ _ Hinv) Hn)
      as (s' & Hn' & <-).
    apply (ri_dom _ _ Hreg). apply list_elem_of_fmap. exists s'. split; [done|].
    by eapply list_elem_of_lookup_2.
  - intros s Hin. rewrite (ii_state _ _ _ _ Hinv).
    rewrite decide_True; [done|].
    apply (ri_dom _ _ Hreg). apply list_elem_of_fmap. by exists s.
Qed.

Lemma start_RGB_Buttons_switches_all_off_witness :
  let w := world0 [channel 0 true "a"; channel 1 false "b"; channel 2 true "a"] [] in
  let r := start_RGB_Buttons w in
  r.1 = Ret tt ∧
  active <$> server_list r.2 = [false; false; false] ∧
  Forall (λ s, active s = false) (server_list r.2).
Proof.
  intros w r.
  destruct (start_RGB_Buttons_switches_all_off w) as (H1 & _ & H3 & _);
    [reflexivity | reflexivity | reflexivity | discriminate | repeat constructor |].
  split; [exact H1|]. split; [reflexivity|exact H3].
Defined.

(** X11. After that start-up every channel's button has a device object in
    [uid_dict], each button identity is recorded once, and [index_dict]
    maps each identity to the increasing list of the registry positions of
    the channels bound to it (and holds no other key). *)
Theorem start_RGB_Buttons_registers w :
  uid_dict (cls w) = [] →
  index_dict (cls w) = ∅ →
  button_state_dict (cls w) = ∅ →
  server_list w ≠ [] →
  let c := cls (start_RGB_Buttons w).2 in
  Forall (registered (uid_dict c)) (server_list (start_RGB_Buttons w).2) ∧
  NoDup (OrderedDict.keys (uid_dict c)) ∧
  ∀ u, index_dict c !! u =
         if decide (u ∈ server_uid <$> server_list w)
         then Some (positions_of u (server_list w)) else None.
Proof.
  intros Hu Hi Hs Hne c. subst c.
  destruct (start_RGB_Buttons_settings w Hne) as (Huid & Hidx & Hsv).
  pose proof (registration_run (server_list w) (cls w)
                (registration_inv_init _ Hu Hi Hs)) as Hreg.
  rewrite Huid, Hidx.
  split; [|split].
  - eapply registered_static_view; [|by apply registration_inv_registered].
    by symmetry.
  - apply (ri_nodup _ _ Hreg).
  - apply (ri_index _ _ Hreg).
Qed.

Lemma start_RGB_Buttons_registers_witness :
  let w := world0 [channel 0 true "a"; channel 1 false "b"; channel 2 true "a"] [] in
  let c := cls (start_RGB_Buttons w).2 in
  index_dict c !! "a" = Some [0; 2] ∧ index_dict c !! "b" = Some [1] ∧
  index_dict c !! "c" = None ∧
  NoDup (OrderedDict.keys (uid_dict c)).
Proof.
  intros w c. subst c.
  destruct (start_RGB_Buttons_registers w) as (_ & H2 & H3);
    [reflexivity | reflexivity | reflexivity | discriminate |].
  split; [by rewrite (H3 "a")|]. split; [by rewrite (H3 "b")|].
  split; [by rewrite (H3 "c")|exact H2].
Defined.

(** X12. After that start-up, with colours of three components, the first
    release edge of a button that has channels bound to it returns
    normally and leaves active exactly the channels bound to that
    button. *)
Theorem first_press_after_start u w :
  uid_dict (cls w) = [] →
  index_dict (cls w) = ∅ →
  button_state_dict (cls w) = ∅ →
  Forall colors_ok (server_list w) →
  u ∈ server_uid <$> server_list w →
  let r := cb_button true u (start_RGB_Buttons w).2 in
  r.1 = Ret tt ∧
  static_view (server_list r.2) = static_view (server_list w) ∧
  ∀ n s, server_list r.2 !! n = Some s → active s = true ↔ server_uid s = u.
Proof.
  intros Hu Hi Hs Hcol Hin r. subst r.
  assert (Hne : server_list w ≠ []) by (intros E; rewrite E in Hin; by apply elem_of_nil in Hin).
  destruct (start_RGB_Buttons_run w Hu Hi Hs Hne Hcol) as (c0 & w' & -> & Hreg & Hinv).
  cbn [snd].
  destruct Hinv as [Huid Hidx Hst Hsv Hoff].
  assert (Hi' : index_dict (cls w') !! u = Some (positions_of u (server_list w))).
  { rewrite Hidx, (ri_index _ _ Hreg). by rewrite decide_True. }
  assert (Hpos : ∀ n, (n < length (server_list w'))%nat →
            list_index (server_list w') (Z.of_nat n) = Some n).
  { intros n Hn. rewrite list_index_nonneg by lia. by rewrite Nat2Z.id. }
  assert (Hlen : length (server_list w') = length (server_list w))
    by (by apply static_view_length).
  assert (Hvalid : Forall (valid_index (server_list w')) (positions_of u (server_list w))).
  { apply Forall_forall. intros i (n & s & -> & Hn & _)%elem_of_positions_of.
    exists n. apply Hpos. apply lookup_lt_Some in Hn. lia. }
  assert (Hv : negb (default true (button_state_dict (cls w') !! u)) = true).
  { rewrite Hst. rewrite decide_True; [done|]. by apply (ri_dom _ _ Hreg). }
  pose proof (cb_button_released u _ w' Hi' Hvalid) as Hrun.
  cbv zeta in Hrun. rewrite Hv in Hrun.
  set (w1 := with_server_list _ _) in Hrun.
  destruct (print_current_state_run w1) as [evs Hp].
  { subst w1. simpl. rewrite Huid.
    eapply registered_static_view; [|by apply registration_inv_registered].
    by rewrite static_view_flags_after. }
  { subst w1. simpl. eapply colors_ok_static_view; [|exact Hcol].
    rewrite static_view_flags_after. by symmetry. }
  assert (Hc : cb_button true u w' = (Ret tt, with_out (λ o, o ++ evs) w1))
    by (etrans; [exact Hrun|exact Hp]).
  rewrite Hc. simpl. split; [done|].
  split; [by rewrite static_view_flags_after|].
  intros n s Hn. rewrite flags_after_lookup in Hn.
  destruct (decide (Exists _ _)) as [Hex|Hex].
  - destruct (server_list w' !! n) as [s0|] eqn:Hn0; simplify_eq/=.
    split; [intros _|done].
    apply Exists_exists in Hex as (i & (n' & s' & -> & Hn' & Hu')%elem_of_positions_of & Hi0).
    rewrite Hpos in Hi0 by (apply lookup_lt_Some in Hn'; lia). simplify_eq.
    destruct (static_view_lookup_uid _ _ _ _ Hsv Hn0) as (s'' & Hn'' & Hu'').
    unfold server_uid in *. simpl. congruence.
  - split.
    + intros Ha. rewrite (Hoff n s Hn) in Ha; [done|].
      destruct (static_view_lookup_uid _ _ _ _ Hsv Hn) as (s' & Hn' & <-).
      apply (ri_dom _ _ Hreg). apply list_elem_of_fmap.
      exists s'. split; [done|]. by eapply list_elem_of_lookup_2.
    + intros Hus. exfalso. apply Hex.
      destruct (static_view_lookup_uid _ _ _ _ Hsv Hn) as (s' & Hn' & Hu').
      apply Exists_exists. exists (Z.of_nat n). split.
      * apply elem_of_positions_of. exists n, s'. split; [done|]. split; [done|].
        congruence.
      * apply Hpos. by apply lookup_lt_Some in Hn.
Qed.

Lemma first_press_after_start_witness :
  let w := world0 [channel 0 true "a"; channel 1 false "b"; channel 2 false "a"] [] in
  let r := cb_button true "a" (start_RGB_Buttons w).2 in
  r.1 = Ret tt ∧
  active <$> server_list r.2 = [true; false; true] ∧
  ∀ n s, server_list r.2 !! n = Some s → active s = true ↔ server_uid s = "a".
Proof.
  intros w r.
  destruct (first_press_after_start "a" w) as (H1 & _ & H3);
    [reflexivity | reflexivity | reflexivity | repeat constructor | by left |].
  split; [exact H1|]. split; [reflexivity|exact H3].
Defined.

(** ** main.py: the report builder and the broadcast loop *)

Lemma PadDict_keys_set {V} (d : PadDict.t V) k v :
  PadDict.keys (PadDict.set d k v) =
    if decide (k ∈ PadDict.keys d) then PadDict.keys d else PadDict.keys d ++ [k].
Proof.
  unfold PadDict.keys.
  induction d as [|[k' v'] d IH]; cbn [PadDict.set].
  - rewrite decide_False; [done|]. apply not_elem_of_nil.
  - destruct (decide (k' = k)) as [->|Hne]; rewrite !fmap_cons.
    + rewrite decide_True; [done|]. by left.
    + rewrite IH. cbn [fst]. destruct (decide (k ∈ d.*1)) as [Hin|Hin].
      * rewrite decide_True; [done|]. by right.
      * rewrite decide_False; [done|].
        intros [?|?]%elem_of_cons; [congruence|done].
Qed.

Lemma PadDict_elem_of_keys_set {V} (d : PadDict.t V) k v k' :
  k' ∈ PadDict.keys (PadDict.set d k v) ↔ k' ∈ PadDict.keys d ∨ k' = k.
Proof.
  rewrite PadDict_keys_set. case_decide as Hk.
  - split; [by left|]. by intros [?| ->].
  - by rewrite elem_of_app, list_elem_of_singleton.
Qed.

Lemma PadDict_get_set_eq {V} (d : PadDict.t V) k v :
  PadDict.get (PadDict.set d k v) k = Some v.
Proof.
  induction d as [|[k' v'] d IH]; cbn [PadDict.get PadDict.set].
  - by rewrite decide_True.
  - destruct (decide (k' = k)) as [->|Hne]; cbn [PadDict.get].
    + by rewrite decide_True.
    + by rewrite decide_False.
Qed.

Lemma PadDict_get_set_ne {V} (d : PadDict.t V) k k' v :
  k ≠ k' → PadDict.get (PadDict.set d k v) k' = PadDict.get d k'.
Proof.
  intros Hne. induction d as [|[k0 v0] d IH]; cbn [PadDict.get PadDict.set].
  - by rewrite decide_False.
  - destruct (decide (k0 = k)) as [->|Hk]; cbn [PadDict.get].
    + by rewrite !decide_False.
    + by rewrite IH.
Qed.

Lemma table_known i : is_Some (pygame_button_to_XUSB_Button i) ↔ 0 ≤ i < 16.
Proof.
  split.
  - intros [b Hb]. unfold pygame_button_to_XUSB_Button in Hb.
    destruct i as [|p|p]; [lia| |done].
    do 5 (destruct p as [p|p|]; try done; try lia).
  - intros Hi.
    assert (i = 0 ∨ i = 1 ∨ i = 2 ∨ i = 3 ∨ i = 4 ∨ i = 5 ∨ i = 6 ∨ i = 7 ∨
            i = 8 ∨ i = 9 ∨ i = 10 ∨ i = 11 ∨ i = 12 ∨ i = 13 ∨ i = 14 ∨ i = 15)
      as Hc by lia.
    repeat destruct Hc as [->|Hc]; try subst i; by eexists.
Qed.

Lemma button_loop_known {A R} (pad : Gamepad A R) entries :
  ∀ r, Forall (λ k, 0 ≤ k < 16) (PadDict.keys entries) →
       ∃ r', button_loop pad entries r = Ret r'.
Proof.
  induction entries as [|[i b] rest IH]; intros r Hk; [by eexists|].
  unfold PadDict.keys in Hk. rewrite fmap_cons in Hk.
  apply Forall_cons in Hk as [Hi Hk]. simpl in Hi.
  apply table_known in Hi as [x Hx]. simpl. rewrite Hx. by apply IH.
Qed.

Lemma button_loop_unknown {A R} (pad : Gamepad A R) entries :
  ∀ r, ¬ Forall (λ k, 0 ≤ k < 16) (PadDict.keys entries) →
       button_loop pad entries r = Raise KeyError.
Proof.
  induction entries as [|[i b] rest IH]; intros r Hk; [by destruct Hk|].
  simpl. destruct (pygame_button_to_XUSB_Button i) as [x|] eqn:Hx; [|done].
  apply IH. intros Hrest. apply Hk. unfold PadDict.keys. rewrite fmap_cons.
  constructor; [|done]. apply table_known. by eexists.
Qed.

Lemma build_report_known {A R} (pad : Gamepad A R)
    (buttons : PadDict.t bool) (axes : PadDict.t A) :
  Forall (λ k, 0 ≤ k < 16) (PadDict.keys buttons) →
  ∃ r, build_XInput_REPORT pad buttons axes = Ret r.
Proof.
  intros Hk. unfold build_XInput_REPORT.
  destruct (button_loop_known pad buttons (get_default_report pad) Hk) as [r ->].
  by eexists.
Qed.

Lemma build_report_unknown {A R} (pad : Gamepad A R)
    (buttons : PadDict.t bool) (axes : PadDict.t A) :
  ¬ Forall (λ k, 0 ≤ k < 16) (PadDict.keys buttons) →
  build_XInput_REPORT pad buttons axes = Raise KeyError.
Proof. intros Hk. unfold build_XInput_REPORT. by rewrite button_loop_unknown. Qed.

(** X13. The report builder looks every key of [button_data] up in the
    sixteen-entry button table, pressed or not: it returns a report when
    all keys lie in 0..15 and raises [KeyError] as soon as one key does
    not, whatever the state of that button and whatever the axes. *)
Theorem build_XInput_REPORT_keys {A R} (pad : Gamepad A R)
    (buttons : PadDict.t bool) (axes : PadDict.t A) :
  (Forall (λ k, 0 ≤ k < 16) (PadDict.keys buttons) →
     ∃ r, build_XInput_REPORT pad buttons axes = Ret r) ∧
  (¬ Forall (λ k, 0 ≤ k < 16) (PadDict.keys buttons) →
     build_XInput_REPORT pad buttons axes = Raise KeyError).
Proof. split; [apply build_report_known|apply build_report_unknown]. Qed.

Lemma build_XInput_REPORT_keys_witness :
  (∃ r, build_XInput_REPORT sample_pad [(0, true); (15, false)] [] = Ret r) ∧
  build_XInput_REPORT sample_pad [(0, true); (16, false)] [] = Raise KeyError.
Proof.
  split.
  - apply (build_XInput_REPORT_keys sample_pad [(0, true); (15, false)] []).
    repeat constructor; simpl; lia.
  - apply (build_XInput_REPORT_keys sample_pad [(0, true); (16, false)] []).
    intros H. apply Forall_cons in H as [_ H]. apply Forall_cons in H as [H _].
    simpl in H. lia.
Defined.

Lemma send_loop_offset {R} (servers : list InputServerData) (r : R) :
  ∀ n, send_loop n servers r
       = omap (λ p, if active p.2 then Some (mkSubmission p.1 (index p.2) r) else None)
              (imap (λ i s, ((n + i)%nat, s)) servers).
Proof.
  induction servers as [|s rest IH]; intros n; [done|].
  cbn [send_loop]. rewrite imap_cons. cbn [omap list_omap].
  rewrite Nat.add_0_r. cbn [fst snd].
  rewrite IH.
  rewrite (imap_ext (λ i s0, ((S n + i)%nat, s0))
                    ((λ i s0, ((n + i)%nat, s0)) ∘ S)) by (intros; simpl; f_equal; lia).
  by destruct (active s).
Qed.

Lemma send_loop_active {R} (servers : list InputServerData) (r : R) :
  send_loop 0 servers r = active_submissions servers r.
Proof. by rewrite send_loop_offset. Qed.

Lemma record_event_keys {A R} (pad : Gamepad A R) c (event : pygame_event A) k :
  k ∈ PadDict.keys (button_data c) →
  k ∈ PadDict.keys (button_data (record_event pad c event)).
Proof.
  intros Hk. destruct event; simpl; try done;
    apply PadDict_elem_of_keys_set; by left.
Qed.

Lemma record_event_known {A R} (pad : Gamepad A R) c (event : pygame_event A) :
  known_button event →
  Forall (λ k, 0 ≤ k < 16) (PadDict.keys (button_data c)) →
  Forall (λ k, 0 ≤ k < 16) (PadDict.keys (button_data (record_event pad c event))).
Proof.
  intros Hev Hk. destruct event; simpl in *; try done;
    apply Forall_forall; intros k [Hin| ->]%PadDict_elem_of_keys_set; try done;
    by eapply Forall_forall in Hk.
Qed.

Lemma range_keys {V} (v : V) (l : list nat) :
  ∀ d k, k ∈ PadDict.keys (foldl (λ d i, PadDict.set d (Z.of_nat i) v) d l)
         ↔ k ∈ PadDict.keys d ∨ k ∈ Z.of_nat <$> l.
Proof.
  induction l as [|i l IH]; intros d k.
  - simpl. split; [by left|]. by intros [?|?%elem_of_nil].
  - cbn [foldl]. rewrite IH, PadDict_elem_of_keys_set, fmap_cons, elem_of_cons.
    tauto.
Qed.

Lemma listen_start_keys {A} numbuttons numhats (c : LocalController A) k :
  button_data c = [] →
  k ∈ PadDict.keys (button_data (listen_start numbuttons numhats c))
  ↔ 0 ≤ k < Z.of_nat numbuttons.
Proof.
  intros Hc. unfold listen_start. simpl. rewrite Hc.
  rewrite range_keys. split.
  - intros [?%elem_of_nil|(i & -> & Hi)%list_elem_of_fmap]; [done|].
    apply elem_of_seq in Hi. lia.
  - intros Hk. right. apply list_elem_of_fmap. exists (Z.to_nat k).
    split; [lia|]. apply elem_of_seq. lia.
Qed.

(** X14. A local controller that reports more than sixteen buttons stops
    the broadcast loop at once: with [button_data] still empty when
    [listen] starts, the first event, whatever it is, ends in [KeyError]
    and nothing is submitted to any channel. *)
Theorem listen_too_many_buttons {A R} (pad : Gamepad A R) numbuttons numhats
    event servers events (c : LocalController A) :
  button_data c = [] →
  (16 < numbuttons)%nat →
  (listen pad numbuttons numhats ((event, servers) :: events) c).1
  = ([], Raise KeyError).
Proof.
  intros Hc Hn. unfold listen. cbn [listen_loop].
  rewrite build_report_unknown; [done|].
  intros Hall. eapply Forall_forall in Hall.
  2:{ apply record_event_keys, (listen_start_keys _ _ _ 16); [done|lia]. }
  simpl in Hall. lia.
Qed.

Lemma listen_too_many_buttons_witness :
  (listen sample_pad 17 1 [(OTHER, three_channels)] fresh_controller).1
  = ([], Raise KeyError).
Proof.
  apply (listen_too_many_buttons sample_pad 17 1 OTHER three_channels []).
  - reflexivity.
  - lia.
Defined.

Lemma listen_loop_known {A R} (pad : Gamepad A R) events :
  ∀ c : LocalController A,
    Forall (λ k, 0 ≤ k < 16) (PadDict.keys (button_data c)) →
    Forall (λ e, known_button e.1) events →
    ∃ reports,
      length reports = length events ∧
      (∀ k r, reports !! k = Some r →
         let c' := controller_after pad c events (S k) in
         build_XInput_REPORT pad (button_data c') (axis_data c') = Ret r) ∧
      listen_loop pad events c
      = (concat (zip_with (λ e r, active_submissions e.2 r) events reports),
         Ret tt, foldl (record_event pad) c events.*1).
Proof.
  induction events as [|[event servers] events IH]; intros c Hk Hev.
  - exists []. by repeat split.
  - apply Forall_cons in Hev as [Hev Hevs]. simpl in Hev.
    pose proof (record_event_known pad c event Hev Hk) as Hk1.
    destruct (build_report_known pad _ (axis_data (record_event pad c event)) Hk1)
      as [r Hr].
    destruct (IH _ Hk1 Hevs) as (reports & Hlen & Hrep & Hrun).
    exists (r :: reports). split; [simpl; by rewrite Hlen|]. split.
    + intros [|k] r' Hk'.
      * simpl in Hk'. simplify_eq. unfold controller_after.
        cbn [take fmap list_fmap foldl fst]. rewrite take_0. exact Hr.
      * simpl in Hk'. apply (Hrep k r' Hk').
    + cbn [listen_loop]. rewrite Hr, Hrun.
      cbn [zip_with concat fmap list_fmap foldl fst snd].
      by rewrite send_loop_active.
Qed.

(** X15. With at most sixteen buttons on the controller, [button_data]
    empty at the start and only button events for buttons 0..15, the
    broadcast loop never raises, and every event, whatever its type,
    results in exactly one submission per channel that is active when the
    event is handled, in registry order, all of them carrying the report
    for that event: the one [build_XInput_REPORT] returns for the button
    and axis state in which that event and the events before it have been
    recorded. *)
Theorem listen_known_buttons {A R} (pad : Gamepad A R) numbuttons numhats
    events (c : LocalController A) :
  button_data c = [] →
  (numbuttons ≤ 16)%nat →
  Forall (λ e, known_button e.1) events →
  ∃ reports,
    length reports = length events ∧
    (∀ k r, reports !! k = Some r →
       let c' := controller_after pad (listen_start numbuttons numhats c)
                   events (S k) in
       build_XInput_REPORT pad (button_data c') (axis_data c') = Ret r) ∧
    (listen pad numbuttons numhats events c).1
    = (concat (zip_with (λ e r, active_submissions e.2 r) events reports), Ret tt).
Proof.
  intros Hc Hn Hev. unfold listen.
  destruct (listen_loop_known pad events (listen_start numbuttons numhats c))
    as (reports & Hlen & Hrep & ->); [|done|by exists reports].
  apply Forall_forall. intros k Hk%listen_start_keys; [lia|done].
Qed.

Lemma listen_known_buttons_witness :
  let servers := [channel 7 true "a"; channel 8 false "a"; channel 9 true "b"] in
  let events : list (pygame_event Q * list InputServerData) :=
    [(JOYBUTTONDOWN 0, servers); (JOYAXISMOTION 4 (1 # 2), servers);
     (JOYBUTTONDOWN 15, servers)] in
  let r := listen sample_pad 16 1 events fresh_controller in
  let first := (4096, [0; 0; 0; 0; 1 # 2; 1 # 2]%Q) in
  let second := (4096, [0; 0; 0; 0; 3 # 4; 1 # 2]%Q) in
  let third := (4128, [0; 0; 0; 0; 3 # 4; 1 # 2]%Q) in
  (∃ reports,
     reports = [first; second; third] ∧
     r.1 = (concat (zip_with (λ e r, active_submissions e.2 r) events reports),
            Ret tt)) ∧
  r.1.1 = [mkSubmission 0 7 first; mkSubmission 2 9 first;
           mkSubmission 0 7 second; mkSubmission 2 9 second;
           mkSubmission 0 7 third; mkSubmission 2 9 third].
Proof.
  intros servers events r first second third. split; [|vm_compute; reflexivity].
  destruct (listen_known_buttons sample_pad 16 1 events fresh_controller)
    as (reports & Hlen & Hrep & Hrun).
  - reflexivity.
  - lia.
  - repeat constructor; simpl; lia.
  - exists reports. split; [|exact Hrun].
    destruct reports as [|r0 [|r1 [|r2 [|]]]]; try discriminate Hlen.
    pose proof (Hrep 0%nat r0 eq_refl) as H0.
    pose proof (Hrep 1%nat r1 eq_refl) as H1.
    pose proof (Hrep 2%nat r2 eq_refl) as H2.
    vm_compute in H0, H1, H2.
    injection H0 as <-. injection H1 as <-. injection H2 as <-.
    reflexivity.
Defined.

Lemma listen_loop_state {A R} (pad : Gamepad A R) events :
  ∀ (c : LocalController A) subs c',
    listen_loop pad events c = (subs, Ret tt, c') →
    c' = foldl (record_event pad) c events.*1.
Proof.
  induction events as [|[event servers] events IH]; intros c subs c' Hrun.
  - by simplify_eq/=.
  - cbn [listen_loop] in Hrun.
    destruct (build_XInput_REPORT pad _ _) as [r|e]; [|done].
    destruct (listen_loop pad events _) as [[more o] c1] eqn:E.
    simplify_eq. by apply IH in E.
Qed.

Lemma record_events_button {A R} (pad : Gamepad A R) button events :
  ∀ c : LocalController A,
    PadDict.get (button_data (foldl (record_event pad) c events)) button
    = match last_button_event button events with
      | Some b => Some b
      | None => PadDict.get (button_data c) button
      end.
Proof.
  induction events as [|event events IH]; intros c; [done|].
  cbn [foldl last_button_event]. rewrite IH.
  destruct (last_button_event button events); [done|].
  destruct event as [axis value|b|b|hat value|]; simpl; try done.
  - destruct (decide (b = button)) as [->|Hne].
    + apply PadDict_get_set_eq.
    + by apply PadDict_get_set_ne.
  - destruct (decide (b = button)) as [->|Hne].
    + apply PadDict_get_set_eq.
    + by apply PadDict_get_set_ne.
Qed.

(** X16. When the broadcast loop has handled its events without raising,
    [button_data] holds for every button the state of its last button
    event (down or up), and for a button without any event what it held
    when the loop started. *)
Theorem listen_button_state {A R} (pad : Gamepad A R) numbuttons numhats
    events (c : LocalController A) button :
  (listen pad numbuttons numhats events c).1.2 = Ret tt →
  PadDict.get (button_data (listen pad numbuttons numhats events c).2) button
  = match last_button_event button events.*1 with
    | Some b => Some b
    | None => PadDict.get (button_data (listen_start numbuttons numhats c)) button
    end.
Proof.
  unfold listen. intros Hret.
  destruct (listen_loop pad events _) as [[subs o] c'] eqn:E.
  simpl in Hret. subst o. apply listen_loop_state in E as ->. simpl.
  apply record_events_button.
Qed.

Lemma listen_button_state_witness :
  let events : list (pygame_event Q * list InputServerData) :=
    [(JOYBUTTONDOWN 3, three_channels); (JOYBUTTONDOWN 5, three_channels);
     (JOYBUTTONUP 3, three_channels)] in
  let c := (listen sample_pad 8 1 events fresh_controller).2 in
  PadDict.get (button_data c) 3 = Some false ∧
  PadDict.get (button_data c) 5 = Some true ∧
  PadDict.get (button_data c) 6 = Some false ∧
  PadDict.get (button_data c) 9 = None.
Proof.
  intros events c. subst c.
  pose proof (listen_button_state sample_pad 8 1 events fresh_controller) as H.
  split; [|split; [|split]].
  - rewrite (H 3); reflexivity.
  - rewrite (H 5); reflexivity.
  - rewrite (H 6); reflexivity.
  - rewrite (H 9); reflexivity.
Defined.

(** ** main.py: what the routers are handed *)

Lemma main_lists_from servers hotkeys gs :
  foldl (λ lists g,
    (lists.1 ++ [mkServer (Remote_Gamepad.index g) false (Remote_Gamepad.rgb_button g)],
     lists.2 ++ [Remote_Gamepad.hotkey g]))
    (servers, hotkeys) gs
  = (servers ++ ((λ g, mkServer (Remote_Gamepad.index g) false
                         (Remote_Gamepad.rgb_button g)) <$> gs),
     hotkeys ++ (Remote_Gamepad.hotkey <$> gs)).
Proof.
  revert servers hotkeys. induction gs as [|g gs IH]; intros servers hotkeys.
  - simpl. by rewrite !app_nil_r.
  - cbn [foldl]. rewrite IH. cbn [fst snd]. rewrite !fmap_cons.
    by rewrite <- !app_assoc.
Qed.

Lemma main_lists_map gs :
  main_lists gs
  = ((λ g, mkServer (Remote_Gamepad.index g) false (Remote_Gamepad.rgb_button g)) <$> gs,
     Remote_Gamepad.hotkey <$> gs).
Proof. unfold main_lists. by rewrite main_lists_from. Qed.

Lemma main_setup_nonempty gs parse w :
  gs ≠ [] →
  main_setup gs parse w
  = HotkeyManager_init (Remote_Gamepad.hotkey <$> gs) parse
      (with_server_list
         (λ _, (λ g, mkServer (Remote_Gamepad.index g) false
                       (Remote_Gamepad.rgb_button g)) <$> gs) w).
Proof.
  intros Hne. unfold main_setup. rewrite main_lists_map. cbn [fst snd].
  by rewrite decide_False by (rewrite length_fmap; destruct gs; [done|simpl; lia]).
Qed.

(** X17. With at least one remote gamepad configured and every non-empty
    hotkey parsing, [main] hands the routers a registry and a hotkey list
    of the same length as the configuration: channel [i] is inactive and
    carries the remote index and the button of gamepad [i], hotkey [i] is
    the hotkey of gamepad [i], and nothing is marked as pressed. *)
Theorem main_setup_lists gs parse w :
  gs ≠ [] →
  (∀ g, g ∈ gs → Remote_Gamepad.hotkey g ≠ "" → parse (Remote_Gamepad.hotkey g) = true) →
  let r := main_setup gs parse w in
  r.1 = Ret tt ∧
  length (server_list r.2) = length gs ∧
  length (hotkey_list (hkm r.2)) = length gs ∧
  currently_pressed (hkm r.2) = ∅ ∧
  ∀ i g, gs !! i = Some g →
    hotkey_list (hkm r.2) !! i = Some (Remote_Gamepad.hotkey g) ∧
    server_list r.2 !! i
    = Some (mkServer (Remote_Gamepad.index g) false (Remote_Gamepad.rgb_button g)).
Proof.
  intros Hne Hparse r. subst r. rewrite main_setup_nonempty by done.
  rewrite hotkey_manager_accepts.
  2:{ intros h (g & -> & Hg)%list_elem_of_fmap. by apply Hparse. }
  unfold with_out, with_hkm, with_server_list.
  cbn [fst snd server_list hkm hotkey_list currently_pressed].
  rewrite !length_fmap. repeat split.
  - by rewrite list_lookup_fmap, H.
  - by rewrite list_lookup_fmap, H.
Qed.

Lemma main_setup_lists_witness :
  let gs := [Remote_Gamepad.mk 0 "f1" (default_rgb_button "a");
             Remote_Gamepad.mk 1 "" (default_rgb_button "a")] in
  let r := main_setup gs (λ _, true) (world0 [] []) in
  r.1 = Ret tt ∧
  length (server_list r.2) = 2%nat ∧
  length (hotkey_list (hkm r.2)) = 2%nat ∧
  hotkey_list (hkm r.2) = ["f1"; ""].
Proof.
  intros gs r.
  destruct (main_setup_lists gs (λ _, true) (world0 [] [])) as (H1 & H2 & H3 & _).
  - discriminate.
  - reflexivity.
  - split; [exact H1|]. split; [exact H2|]. split; [exact H3|reflexivity].
Defined.

(** X18. With no remote gamepad configured, [main] exits before the
    hotkey manager is constructed: nothing is parsed and the world is left
    as it was. With at least one, the first non-empty hotkey that does not
    parse ends it with the same exit, after the registry has been set
    up. *)
Theorem main_setup_exits parse w :
  main_setup [] parse w = (Raise SystemExit, w) ∧
  ∀ pre bad post,
    (∀ g, g ∈ pre → Remote_Gamepad.hotkey g ≠ "" →
          parse (Remote_Gamepad.hotkey g) = true) →
    Remote_Gamepad.hotkey bad ≠ "" →
    parse (Remote_Gamepad.hotkey bad) = false →
    let r := main_setup (pre ++ bad :: post) parse w in
    r.1 = Raise SystemExit ∧
    length (server_list r.2) = length (pre ++ bad :: post) ∧
    out r.2 = out w ++ parse_events (Remote_Gamepad.hotkey <$> pre)
                    ++ [Parse_hotkey (Remote_Gamepad.hotkey bad);
                        Printed_invalid_hotkey (Remote_Gamepad.hotkey bad)].
Proof.
  split; [done|].
  intros pre bad post Hpre Hbad Hparse r. subst r.
  rewrite main_setup_nonempty by (by destruct pre).
  rewrite (fmap_app Remote_Gamepad.hotkey), fmap_cons.
  rewrite hotkey_manager_exits; [|
    intros h (g & -> & Hg)%list_elem_of_fmap; by apply Hpre | done | done].
  unfold with_out, with_hkm, with_server_list.
  cbn [fst snd server_list out].
  by rewrite length_fmap, app_assoc.
Qed.

Lemma main_setup_exits_witness :
  let gs := [Remote_Gamepad.mk 0 "f1" (default_rgb_button "a");
             Remote_Gamepad.mk 1 "bogus" (default_rgb_button "a")] in
  let parse h := bool_decide (h ≠ "bogus") in
  let r := main_setup gs parse (world0 [] []) in
  main_setup [] parse (world0 [] []) = (Raise SystemExit, world0 [] []) ∧
  r.1 = Raise SystemExit ∧
  out r.2 = [Parse_hotkey "f1"; Parse_hotkey "bogus"; Printed_invalid_hotkey "bogus"].
Proof.
  intros gs parse r.
  destruct (main_setup_exits parse (world0 [] [])) as [H0 H].
  split; [exact H0|].
  destruct (H [Remote_Gamepad.mk 0 "f1" (default_rgb_button "a")]
              (Remote_Gamepad.mk 1 "bogus" (default_rgb_button "a")) [])
    as (H1 & _ & H3).
  - intros g ->%list_elem_of_singleton _. reflexivity.
  - discriminate.
  - reflexivity.
  - split; [exact H1|exact H3].
Defined.

(** ** Which router writes which memory *)

Lemma cb_position_preserves (P : World → Prop) position sw w :
  (∀ w s p, P w → P (with_cls (set_old s p) w)) →
  (∀ w f, P w → P (with_server_list f w)) →
  (∀ w f, P w → P (with_out f w)) →
  P w → P (cb_position position sw w).2.
Proof.
  intros Hcls Hsl Hout Hw.
  destruct (decide (Z.abs (position - old_position (cls w)) > 2)) as [Hd|Hd].
  - destruct (floordiv (position - lower_threshold (cls w)) sw) as [section|e] eqn:Hs.
    + destruct (decide (section = old_section (cls w))) as [->|Hne].
      * by rewrite cb_position_same_section.
      * rewrite (cb_position_processed _ _ _ _ Hd Hs Hne). simpl.
        by apply Hcls, Hout, Hsl.
    + unfold cb_position. run. rewrite decide_True by done. by rewrite Hs.
  - by rewrite cb_position_debounced by lia.
Qed.

Lemma scan_loop_preserves (P : World → Prop) polls w :
  (∀ w h v, P w → P (with_hkm (set_pressed h v) w)) →
  (∀ w f, P w → P (with_server_list f w)) →
  (∀ w f, P w → P (with_out f w)) →
  P w → P (scan_loop polls w).2.
Proof.
  intros Hhk Hsl Hout. revert w. unfold scan_loop.
  apply (for_each_invariant P). intros ip w Hw.
  unfold scan_tick. unfold mbind, M_bind, get_world.
  revert Hw. generalize w at 1 3 as w0.
  apply (for_each_invariant P). intros [i h] w' Hw'.
  unfold scan_hotkey. rewrite emit_bind.
  destruct (ip h) as [[|]|]; [|by apply Hhk, Hout|by apply Hout].
  unfold mbind at 1, M_bind at 1, get_world.
  destruct (negb _); [|by apply Hout].
  apply (bind_invariant P).
  - unfold toggle_active. simpl. destruct (_ !! i); [by apply Hsl, Hout|by apply Hout].
  - intros _ w1 H1. apply (bind_invariant P); [by apply Hhk|].
    intros _ w2 H2.
    destruct (print_current_state_frame w2) as (o & evs & -> & _). by apply Hout.
Qed.

(** X19. Each router writes only its own memory, whatever the event and
    whether it returns or raises. The button router leaves the hotkey
    manager, the debouncing memory and the group state of every other
    button alone; the position router leaves the hotkey manager and every
    group state alone; the scan loop changes no class attribute at all and
    keeps its hotkey list. None of them touches [uid_dict], [index_dict] or
    the thresholds. In particular the group state a button press flips is
    never altered by hotkeys or by the slider. *)
Theorem routers_keep_their_memory w :
  (∀ state u,
     let w' := (cb_button state u w).2 in
     hkm w' = hkm w ∧ same_settings (cls w) (cls w') ∧
     old_position (cls w') = old_position (cls w) ∧
     old_section (cls w') = old_section (cls w) ∧
     ∀ u', u' ≠ u → button_state_dict (cls w') !! u' = button_state_dict (cls w) !! u') ∧
  (∀ position section_width,
     let w' := (cb_position position section_width w).2 in
     hkm w' = hkm w ∧ same_settings (cls w) (cls w') ∧
     button_state_dict (cls w') = button_state_dict (cls w)) ∧
  (∀ polls,
     let w' := (scan_loop polls w).2 in
     cls w' = cls w ∧ hotkey_list (hkm w') = hotkey_list (hkm w)).
Proof.
  split; [|split].
  - intros state u.
    apply (cb_button_preserves
             (λ w', hkm w' = hkm w ∧ same_settings (cls w) (cls w') ∧
                    old_position (cls w') = old_position (cls w) ∧
                    old_section (cls w') = old_section (cls w) ∧
                    ∀ u', u' ≠ u → button_state_dict (cls w') !! u'
                                   = button_state_dict (cls w) !! u')).
    + intros w0 v (H1 & H2 & H3 & H4 & H5). repeat split; try done; try apply H2.
      intros u' Hu'. simpl. rewrite lookup_insert_ne by done. by apply H5.
    + by intros w0 f H.
    + by intros w0 f H.
    + by repeat split.
  - intros position section_width.
    apply (cb_position_preserves
             (λ w', hkm w' = hkm w ∧ same_settings (cls w) (cls w') ∧
                    button_state_dict (cls w') = button_state_dict (cls w))).
    + intros w0 s p (H1 & H2 & H3). repeat split; try done; apply H2.
    + by intros w0 f H.
    + by intros w0 f H.
    + by repeat split.
  - intros polls.
    apply (scan_loop_preserves
             (λ w', cls w' = cls w ∧ hotkey_list (hkm w') = hotkey_list (hkm w)));
      [| | |done].
    + by intros w0 h v [H1 H2].
    + by intros w0 f [H1 H2].
    + by intros w0 f [H1 H2].
Qed.

Lemma routers_keep_their_memory_witness :
  let w := one_button_world [channel 0 true "a"; channel 1 true "b"] [0] in
  button_state_dict (cls (cb_button true "a" w).2) !! "b"
  = button_state_dict (cls w) !! "b" ∧
  button_state_dict (cls (cb_position 95 width_5_95_3 w).2) = button_state_dict (cls w) ∧
  cls (scan_loop [λ _, Some true] w).2 = cls w.
Proof.
  intros w.
  destruct (routers_keep_their_memory w) as (Hb & Hp & Hs).
  split; [|split].
  - apply (Hb true "a"). discriminate.
  - apply (Hp 95 width_5_95_3).
  - apply (Hs [λ _, Some true]).
Defined.
